(* ===== verification/_CoqProject ===== *)
-Q . S2P
Prelude.v
Channel.v
Mixer.v
Ring.v
Accumulator.v
Text.v
Trigger.v
Dispatcher.v
LogFormat.v
Startup.v
Pipeline.v
EndToEnd.v
Program.v
