(* ===== verification/Prelude.v ===== *)
(** * VIMKillerRecharged: a verification development of [src/src/main.rs]

    The program listens to a microphone, transcribes the last eight seconds
    of speech with Whisper and, when the transcription contains a code
    phrase, runs [ps aux | grep -ie " vi" | tr -s ' ' | cut -d ' ' -f 2 |
    xargs kill -9].  It
    is one Rust file with three execution contexts linked by two
    [std::sync::mpsc] queues:

    - the capture callback [buffer_stereo_data] (lines 222-228) mixes each
      stereo frame to mono and sends it into queue A;
    - the data thread (lines 162-188) keeps the last [BUFFER_SIZE * SECONDS]
      samples in a ring buffer, counts the samples received and, each time
      the count reaches that window length, resamples the window with
      [rubato] and sends it into queue B;
    - the inference thread (lines 77-157) runs Whisper on each window,
      optionally appends one line per segment to a log file, and runs the
      kill pipeline when the lower-cased text contains the lower-cased code
      phrase;
    - [main] (lines 39-75, 190-219) parses options, lists devices or picks
      one, checks the sample format, starts everything, waits for a line on
      standard input and shuts down in a fixed order.

    ** Files

    - [Prelude] (this file): the [outcome] type of code that may panic with
      its bind notation [x <-! m ;; k] in [vk_scope] and [expect]; [lastn];
      [usize] addition at 64 bits ([usize_add], [usize_add_nat]) and the
      largest [Vec<f32>] ([max_vec_f32]); the hint databases [vk] and
      [vk_rw]; shared lemmas on [lastn], [outcome], [omap] and integers.
    - [Channel] ([Module Mpsc]): a channel as a record of its queue, its
      count of live senders and whether its receiver is alive; [send],
      [recv] (received, disconnected or blocked), [drop_sender],
      [drop_receiver], from the documented std semantics.
    - [Mixer]: [buffer_stereo_data] and whisper-rs's
      [convert_stereo_to_mono_audio] over an abstract sample type
      ([Class SampleArith], instance on [Q]); the spec's C-channel mixer
      [spec_mix] and the theorems relating them (C21-C23).
    - [Ring]: the ring-buffer interface [Class RingBuffer] with its laws
      [Class RingBufferLaws], used by the data thread; [Module AllocRing],
      the crate's masked power-of-two implementation (read and write
      pointers, slot index [Nat.land i (size - 1)]), proved to satisfy the
      laws, i.e. to refine [lastn capacity] of the pushed values (C9).
    - [Accumulator]: the resampler interface [Class Resampler] with laws
      (rubato's contract) and a nearest-sample test double; [Module
      Accumulator]: the data thread's state [DataThread], its [init], the
      loop body [on_samples] and the loop [run_chunks]; [Module
      AccumulatorSpec]: the spec's windows [spec_windows] and the invariant
      used to prove the refinement; claims C1, C5, C10-C14.
    - [Text]: [to_lowercase], [contains], [starts_with], the [Display] of
      [i64] on Stdlib strings, the character test [has_char] and the
      splitter [split_on] shared by [Trigger] and [LogFormat], and their
      append lemmas.
    - [Trigger]: the kill pipeline of lines 144-154.  The command vectors
      are [kill_pipeline_cmds]; [run_pipe] interprets them as [shutil::pipe]
      does, over a snapshot of the process table ([proc]), with [ps aux],
      [grep -i], [tr -s], [cut] and [xargs kill -9] modelled from their
      documentation; claims C28-C30.
    - [Dispatcher]: the Whisper API as [Class Whisper] (every call may fail)
      and the host (clock, log file, kill pipeline) as the record [Host];
      the parameters passed to [full] are a [FullParams] record, and
      [window_params] is the value lines 94-100 build for every window;
      [Module Dispatcher] models the inference thread: [inference_start],
      the segment loop [segments_loop]/[segment_step], [log_line],
      [check_trigger], [process_window] and [process_windows]; [Module
      Scripted] is a concrete model used by the witnesses; claims C4,
      C15-C19.
    - [LogFormat]: a reader [parse_entry] of the log's entry format
      (split at the first [" | "], [" - "] and ["]: "], decimal [i64]s),
      [parse_log_line] for a line with its newline, and [file_lines], the
      lines [BufRead::lines] gives (one ["\r"] dropped before each newline,
      no line after a final newline); the round trip of [log_line] (C35)
      and of a whole file of entries (C38), and the number of lines an
      entry takes, one more than the newlines of its segment text (C36).
      The reader is the format's
      contract, not code of the program.
    - [Startup]: [Opt] and its defaults, the list-devices mode, device
      selection, the default configuration and the [f32] check, returning
      [Listed], [Failed] (exit 1), [MainPanic] (exit 101) or [Start];
      claims C24, C26, C27.
    - [Pipeline]: the whole running program as a labelled step relation
      [Pipeline.step] on a record holding main's position [main_pc], both
      queues, the data thread and the inference thread (each running,
      exited or panicked) and whether the callback is alive; each
      constructor is one atomic action of one context, so every
      interleaving of the threads is a run [steps].  [Module PipelineInv]
      proves by rule induction the invariant on sender counts and thread
      states; claims C2, C3, C6, C7, C8, C33, C34.
    - [EndToEnd]: the composition of the callback, queue A, the data thread
      and queue B on the runs of [Pipeline]: the observers [captured] and
      [consumed] of a trace, the invariant [e2e_inv] relating queue A and
      the data thread's state to the trace, and [data_inv], the
      well-formedness of the data thread's state; claims C31, C32.  Its
      [Section KillCount] composes [Dispatcher.process_window] with the
      runs: the count of kill-pipeline runs and of stderr lines (C37).
    - [Program]: the whole of [main] as it composes the others: the
      outcome of [Startup.main_startup], the spawn of the inference thread
      (its prologue [Dispatcher.inference_start] may panic) and of the data
      thread, the stream's build and [play] ([StreamEnv], each may return
      [Err]), then the session of [Pipeline] from [session]; the relation
      [program_exits] gives the process's exit code; claims C20, C25.

    ** What the theorems show

    - Refinement: the data thread, from its initial state, never panics
      with a well-formed resampler and produces exactly the resampled
      windows of the spec (C1); the ring refines the sliding window (C9);
      the code's mixer equals the spec's mixer at two channels (C23); the
      whole program, in every interleaving, transcribes exactly the
      resampled spec windows of the spec-mixed captured audio (C31).
    - Type invariant: in every run the data thread's ring is well formed,
      of capacity [W], and its counter is below [W] (C32).
    - Safety and invariants of every interleaving: queue B is FIFO without
      loss or duplication (C2); the shutdown happens in order (C3); no
      frame is captured after the stop signal (C8).
    - Termination, bounds and progress: after the stop signal every run
      is finite (C6, by a measure decreasing on each step) and has at most
      twice the chunks queued in A plus the windows queued in B plus 8
      actions (C33); no reachable state deadlocks before main returns
      (C7); after the stop signal main can always return or panic (C34).
    - Functional behaviour and error paths of each handler: the data
      thread runs without panicking and hands on at most one window per
      [W] samples received (C5), none before [W] samples (C10), one window
      per large chunk, the counter bound that rules out [usize]
      wrap-around, and the panic of a resampler that needs more than [W]
      frames (C11-C14); logging, trigger and panics
      of the inference thread (C4, C15-C19); the mixer's behaviour and
      panics (C21-C23); startup outcomes and exit codes (C24, C26, C27).
    - The whole program and its exit code: exit code 0 only in
      list-devices mode or after a clean session, in which the stop
      signal was read, the model had loaded and every window produced was
      transcribed (C25); a model that fails to load does not stop [main]
      from streaming until the stop signal, after which the process can
      always end, and only with exit code 101 (C20).
    - Equivalence and round trip for the kill pipeline: the five stages
      kill exactly the processes whose [ps] line contains [" vi"] (C28);
      [tr]/[cut]/[xargs] recover the pid [ps] printed (C29); what that
      selects, [grep] itself included (C30).
    - The log file: each line reads back as what was written when the
      timestamp has no space, as [chrono]'s [Debug] form never does (C35);
      a file of entries reads back, line by line, as the entries in order
      when no timestamp or text has a line break (C38); the entry of a
      segment takes one line more than the newlines in its text, so the
      one-line-per-segment format holds exactly for texts without one
      (C36).
    - Bounds across the whole program: in every run the inference thread
      has run the kill pipeline at most once per transcribed window and
      written at most one error line per pipeline run (C37).

    ** Bounds and fuel

    No definition uses fuel: every loop of the code is structural on the
    list of chunks, windows or segments it consumes ([segments_loop] runs
    over [seq 0 n] for the model's segment count).  The data thread's
    counter is [usize]: [on_samples] adds with wrap-around at [2^64]
    ([usize_add_nat]) and C13 shows the sum is exact because the counter
    stays below [W] and a chunk holds at most [max_vec_f32] samples (the
    largest [Vec<f32>] allocation).  The ring's pointers are unbounded
    [nat]s; the crate's [usize] pointers would wrap only after [2^64]
    pushes.  Samples are abstract ([SampleArith]); [f32] rounding is not
    modelled.

    ** Not modelled

    The FFT inside [rubato] (only its length contract), the Whisper model
    (a black box), [cpal]'s driver threads and the clap parser (only [Opt]
    and its defaults), the stream's error callback (line 195, which only
    prints), the [Debug] prints of the device configuration (lines 68 and
    73), the text of [Utc::now()]'s [Debug] form (supplied by the host),
    and lower-casing of non-ASCII characters.  The kill pipeline runs on a
    snapshot of the process table: the interleaving of [ps] with the other
    stages and with the processes it kills, and how [shutil] turns exit
    statuses into an [Err], are not modelled; the inference thread sees
    the outcome through [Host.host_pipe].  [Pipeline.initial] starts the
    inference thread after a successful [inference_start]; [Program]
    starts the session from either outcome of it.  The inference thread's
    prologue is taken as finished when the session starts: the runs in
    which the data thread queues a window before a failing model load
    panics the thread are not separate runs of [Program.session], and
    such a window is lost with the receiver in both.  The resampler
    constructor of lines 167-173 is taken to succeed, as it does for the
    code's constants; its result is the parameter [rs]. *)

From Stdlib Require Import Ascii String ZArith Lia.
From stdpp Require Import base list strings.

(** ** Notation scope of the development *)

Declare Scope vk_scope.
Delimit Scope vk_scope with vk.

(** ** Outcomes of Rust code that may panic

    Every [.unwrap()], [.expect(msg)] and [panic!] of [main.rs] aborts the
    thread that runs it.  A step of a thread therefore returns either its
    result or the panic message. *)

Inductive outcome (A : Type) : Type :=
  | Done (a : A)
  | Panicked (msg : string).
Arguments Done {A} a.
Arguments Panicked {A} msg.

Definition obind {A B} (m : outcome A) (k : A -> outcome B) : outcome B :=
  match m with
  | Done a => k a
  | Panicked e => Panicked e
  end.

Notation "x <-! m ;; k" := (obind m (fun x => k))
  (at level 60, m at next level, right associativity) : vk_scope.

(** [Option::expect] / [Result::expect] / [unwrap]: [None] (or [Err]) panics
    with the given message. *)
Definition expect {A} (o : option A) (msg : string) : outcome A :=
  match o with
  | Some a => Done a
  | None => Panicked msg
  end.

(** ** Sliding windows: the last [n] elements of a list *)

Definition lastn {A} (n : nat) (l : list A) : list A := drop (length l - n) l.

(** ** Machine integers: [usize] on a 64-bit target *)

Definition usize_modulus : Z := (2 ^ 64)%Z.

(** [a + b] on [usize] in a release build wraps around. *)
Definition usize_add (a b : Z) : Z := ((a + b) mod usize_modulus)%Z.

(** Maximum length of a [Vec<f32>]: its size in bytes is at most
    [isize::MAX]. *)
Definition max_vec_f32 : Z := ((2 ^ 63 - 1) / 4)%Z.

(** [a += b] on two [usize] values, as naturals. *)
Definition usize_add_nat (a b : nat) : nat :=
  Z.to_nat (usize_add (Z.of_nat a) (Z.of_nat b)).

(** ** Automation *)

Create HintDb vk discriminated.
Create Rewrite HintDb vk_rw.

Ltac invc H := inversion H; subst; clear H.

(** Closes a comparison between closed [Z] constants by evaluation. *)
Ltac vk_zcompute := vm_compute; congruence.

(** ** Generic lemmas *)

Section Lastn.
Context {A : Type}.
Implicit Types (l k : list A) (n : nat).

Lemma length_lastn n l : length (lastn n l) = min n (length l).
Proof. unfold lastn. rewrite length_drop. lia. Qed.

Lemma lastn_all n l : length l <= n -> lastn n l = l.
Proof. intros H. unfold lastn. by replace (length l - n) with 0 by lia. Qed.

Lemma lastn_nil n : lastn n (@nil A) = [].
Proof. reflexivity. Qed.

Lemma lastn_app_long n l k : n <= length k -> lastn n (l ++ k) = lastn n k.
Proof.
  intros H. unfold lastn. rewrite length_app, drop_app_ge by lia.
  f_equal. lia.
Qed.

Lemma lastn_app_short n l k : length k <= n ->
  lastn n (l ++ k) = lastn (n - length k) l ++ k.
Proof.
  intros H. unfold lastn. rewrite length_app, drop_app_le by lia.
  f_equal. f_equal. lia.
Qed.

(** Evicting before appending does not change the window: the key fact
    behind a ring buffer of capacity [n]. *)
Lemma lastn_lastn_app n l k : lastn n (lastn n l ++ k) = lastn n (l ++ k).
Proof.
  destruct (decide (n <= length k)) as [Hk|Hk].
  - by rewrite !lastn_app_long.
  - rewrite !lastn_app_short by lia. f_equal.
    unfold lastn. rewrite drop_drop, length_drop. f_equal. lia.
Qed.

Lemma lastn_cons_drop n x l : length l = n -> lastn n (x :: l) = l.
Proof.
  intros <-. unfold lastn. cbn [length].
  by replace (Datatypes.S (length l) - length l) with 1 by lia.
Qed.

Lemma lastn_length l : lastn (length l) l = l.
Proof. by apply lastn_all. Qed.

Lemma lastn_le_length n l : length (lastn n l) <= n.
Proof. rewrite length_lastn. lia. Qed.

(** Pushing the elements of [xs] one by one into a window of [n]. *)
Lemma fold_lastn_push n l xs :
  fold_left (fun r x => lastn n (r ++ [x])) xs (lastn n l) = lastn n (l ++ xs).
Proof.
  revert l. induction xs as [|x xs IH]; intros l; simpl.
  - by rewrite app_nil_r.
  - rewrite lastn_lastn_app, IH, <- app_assoc. reflexivity.
Qed.
End Lastn.

#[export] Hint Rewrite @length_lastn @lastn_lastn_app @lastn_length : vk_rw.
#[export] Hint Resolve lastn_all lastn_le_length : vk.

Lemma obind_done {A B} (a : A) (k : A -> outcome B) : obind (Done a) k = k a.
Proof. reflexivity. Qed.

Lemma obind_panicked {A B} (e : string) (k : A -> outcome B) :
  obind (Panicked e) k = Panicked e.
Proof. reflexivity. Qed.

Lemma obind_done_inv {A B} (m : outcome A) (k : A -> outcome B) b :
  obind m k = Done b -> exists a, m = Done a /\ k a = Done b.
Proof. destruct m; simpl; [eauto | discriminate]. Qed.

#[export] Hint Rewrite @obind_done @obind_panicked : vk_rw.

Lemma max_vec_f32_twice : (2 * max_vec_f32 < usize_modulus)%Z.
Proof. reflexivity. Qed.

Lemma usize_add_nat_exact a b : (Z.of_nat a + Z.of_nat b < usize_modulus)%Z ->
  usize_add_nat a b = a + b.
Proof.
  intros H. unfold usize_add_nat, usize_add. rewrite Z.mod_small by lia. lia.
Qed.

Lemma omap_singleton {A B} (f : A -> option B) a :
  omap f [a] = match f a with Some b => [b] | None => [] end.
Proof. reflexivity. Qed.

Lemma omap_cons_some {A B} (f : A -> option B) a b l :
  f a = Some b -> omap f (a :: l) = b :: omap f l.
Proof. intros H. simpl. by rewrite H. Qed.

Lemma omap_seq_length {B} (f : nat -> option B) s n :
  (forall i, s <= i < s + n -> is_Some (f i)) -> length (omap f (seq s n)) = n.
Proof.
  revert s. induction n as [|n IH]; intros s Hf; [done|].
  simpl. destruct (Hf s ltac:(lia)) as [y ->]. simpl.
  rewrite IH; [done|]. intros; apply Hf; lia.
Qed.
