(* ===== verification/Channel.v ===== *)
(** * Channel: [std::sync::mpsc] channels as used by [main.rs]

    [main.rs] links its three execution contexts with two unbounded
    [mpsc::channel()]s (queue A: [audio_tx]/[audio_rx], queue B:
    [inference_tx]/[inference_rx]).  The channel is library code, not part of
    [src/], so it is modelled from the documented semantics of the standard
    library: a FIFO queue, a count of live [Sender] handles and whether the
    [Receiver] is alive.

    - [send] fails (returns the value back, here [None]) iff the receiver
      has been dropped; otherwise it appends to the queue and never blocks.
    - [recv] returns the oldest message; on an empty queue it blocks while a
      sender is alive and returns [Err(RecvError)] once all are dropped. *)

From Stdlib Require Import Lia.
From stdpp Require Import base list.
From S2P Require Import Prelude.

Module Mpsc.

Record channel (A : Type) := mkChannel {
  queue : list A;      (** messages sent and not yet received, oldest first *)
  senders : nat;       (** live [Sender] handles (clones included) *)
  receiver : bool;     (** the [Receiver] is still alive *)
}.
Arguments mkChannel {A} _ _ _.
Arguments queue {A} _.
Arguments senders {A} _.
Arguments receiver {A} _.

(** [mpsc::channel()]: one sender, one receiver, empty queue. *)
Definition new {A} : channel A := mkChannel [] 1 true.

(** [Sender::send]: [None] is [Err(SendError(t))]. *)
Definition send {A} (x : A) (c : channel A) : option (channel A) :=
  if receiver c then Some (mkChannel (queue c ++ [x]) (senders c) (receiver c))
  else None.

Inductive recv_result (A : Type) :=
  | Received (x : A) (c : channel A)
  | Disconnected          (** [Err(RecvError)]: ends a [while let Ok(..)] loop *)
  | Blocked.              (** the calling thread waits *)
Arguments Received {A} _ _.
Arguments Disconnected {A}.
Arguments Blocked {A}.

(** [Receiver::recv]. *)
Definition recv {A} (c : channel A) : recv_result A :=
  match queue c with
  | x :: q => Received x (mkChannel q (senders c) (receiver c))
  | [] => if Nat.eqb (senders c) 0 then Disconnected else Blocked
  end.

(** [drop(sender)]. *)
Definition drop_sender {A} (c : channel A) : channel A :=
  mkChannel (queue c) (pred (senders c)) (receiver c).

(** Dropping the receiver discards the queued messages. *)
Definition drop_receiver {A} (c : channel A) : channel A :=
  mkChannel [] (senders c) false.

Section Laws.
Context {A : Type}.
Implicit Types (c : channel A) (x : A).

Lemma send_queue c x c' : send x c = Some c' -> queue c' = queue c ++ [x].
Proof. unfold send. destruct (receiver c); intros H; by invc H. Qed.

Lemma send_senders c x c' : send x c = Some c' -> senders c' = senders c.
Proof. unfold send. destruct (receiver c); intros H; by invc H. Qed.

Lemma send_receiver c x c' : send x c = Some c' -> receiver c' = receiver c.
Proof. unfold send. destruct (receiver c); intros H; by invc H. Qed.

Lemma send_ok c x : receiver c = true ->
  send x c = Some (mkChannel (queue c ++ [x]) (senders c) true).
Proof. intros H. unfold send. by rewrite H. Qed.

Lemma send_fail c x : receiver c = false -> send x c = None.
Proof. intros H. unfold send. by rewrite H. Qed.

Lemma recv_received c x c' : recv c = Received x c' ->
  queue c = x :: queue c' /\ senders c' = senders c /\ receiver c' = receiver c.
Proof.
  unfold recv. destruct (queue c) as [|y q]; [by destruct (Nat.eqb _ _)|].
  intros H. by invc H.
Qed.

Lemma recv_disconnected c : recv c = Disconnected <-> queue c = [] /\ senders c = 0.
Proof.
  unfold recv. destruct (queue c); [|naive_solver].
  destruct (Nat.eqb_spec (senders c) 0); naive_solver.
Qed.

Lemma recv_blocked c : recv c = Blocked <-> queue c = [] /\ senders c <> 0.
Proof.
  unfold recv. destruct (queue c); [|naive_solver].
  destruct (Nat.eqb_spec (senders c) 0); naive_solver.
Qed.
End Laws.

End Mpsc.
