(* ===== verification/Mixer.v ===== *)
(** * Mixer: the capture callback [buffer_stereo_data] (main.rs 222-228)

    The capture callback receives the interleaved [f32] samples of one
    driver buffer, collapses them to mono with
    [whisper_rs::convert_stereo_to_mono_audio] and sends the result into
    queue A.  The conversion is library code (whisper-rs), modelled from its
    documented behaviour: odd lengths are rejected with
    [HalfSampleMissing], and every pair [(x0, x1)] becomes [(x0 + x1) / 2.0].

    Sample arithmetic is abstracted by the class [SampleArith] ([f32] in the
    program; [Q] gives exact arithmetic for the examples).  The mixer always
    pairs samples, whatever the device's channel count: [main.rs] never reads
    [config.channels()].  The spec's contract (average of [C] channels) is
    stated as [spec_mix] and related to the code for [C = 2] and [C = 1]. *)

From Stdlib Require Import String QArith Lia.
From stdpp Require Import base list.
From S2P Require Import Prelude Channel.

Class SampleArith (S : Type) := {
  s_add : S -> S -> S;
  s_div : S -> S -> S;
  s_of_nat : nat -> S;   (** the float literal [n.0] *)
}.

#[export] Instance SampleArith_Q : SampleArith Q := {
  s_add := Qplus;
  s_div := Qdiv;
  s_of_nat n := inject_Z (Z.of_nat n);
}.

Module Mixer.
Section Mixer.
Context {S : Type} `{SampleArith S}.

Inductive WhisperError :=
| HalfSampleMissing (len : nat).

(** [samples.chunks_exact(2).map(|x| (x[0] + x[1]) / 2.0)]. *)
Fixpoint mix_pairs (l : list S) : list S :=
match l with
| x0 :: x1 :: rest => s_div (s_add x0 x1) (s_of_nat 2) :: mix_pairs rest
| _ => []
end.

(** [whisper_rs::convert_stereo_to_mono_audio]. *)
Definition convert_stereo_to_mono_audio (samples : list S)
  : WhisperError + list S :=
if negb (Nat.eqb (Nat.land (length samples) 1) 0)
then inl (HalfSampleMissing (length samples))
else inr (mix_pairs samples).

(** [buffer_stereo_data(input, audio_tx)]: convert (panicking on a
  malformed frame), then send into queue A (panicking when the
  accumulator thread is gone). *)
Definition buffer_stereo_data (input : list S) (audio_tx : Mpsc.channel (list S))
  : outcome (Mpsc.channel (list S)) :=
(downsample <-! expect (match convert_stereo_to_mono_audio input with
                        | inl _ => None
                        | inr v => Some v
                        end) "failed to convert audio data" ;;
 match Mpsc.send downsample audio_tx with
 | Some c => Done c
 | None => Panicked "Failed to send sample down channel: sending on a closed channel"
 end)%vk.

(** The spec's mixer (section 4.1): the mean of each group of [C]
  interleaved samples.  Not code: the contract the code is compared to. *)
Fixpoint spec_mix_fuel (fuel C : nat) (l : list S) : list S :=
match fuel with
| 0 => []
| Datatypes.S fuel' =>
    match take C l with
    | x :: xs => if Nat.eqb (length (x :: xs)) C
                 then s_div (foldl s_add x xs) (s_of_nat C)
                        :: spec_mix_fuel fuel' C (drop C l)
                 else []
    | [] => []
    end
end.
Definition spec_mix (C : nat) (l : list S) : list S := spec_mix_fuel (length l) C l.

End Mixer.
End Mixer.

Module MixerFacts.
Import Mixer.
Section Facts.
Context {S : Type} `{SampleArith S}.
Implicit Types (l : list S).

Lemma land_1_mod2 n : Nat.land n 1 = n mod 2.
Proof. change 1 with (Nat.ones 1). by rewrite Nat.land_ones. Qed.

Lemma length_mix_pairs l : length (mix_pairs l) = length l / 2.
Proof.
induction l as [l IH] using (induction_ltof1 _ (@length S)).
destruct l as [|x0 [|x1 rest]]; [done|done|]. cbn [mix_pairs length].
rewrite IH by (unfold ltof; simpl; lia).
replace (Datatypes.S (Datatypes.S (length rest))) with (length rest + 1 * 2) by lia.
rewrite Nat.div_add by lia. lia.
Qed.

Lemma mix_pairs_app l k : Nat.Even (length l) ->
mix_pairs (l ++ k) = mix_pairs l ++ mix_pairs k.
Proof.
induction l as [l IH] using (induction_ltof1 _ (@length S)).
destruct l as [|x0 [|x1 rest]]; intros Hev; [done| |].
- exfalso. destruct Hev as [m Hm]. simpl in Hm. lia.
- simpl. rewrite IH; [done| unfold ltof; simpl; lia |].
  destruct Hev as [m Hm]. exists (m - 1). simpl in Hm. lia.
Qed.

Lemma lookup_mix_pairs l i :
mix_pairs l !! i =
  match l !! (2 * i), l !! (2 * i + 1) with
  | Some a, Some b => Some (s_div (s_add a b) (s_of_nat 2))
  | _, _ => None
  end.
Proof.
revert l. induction i as [|i IH]; intros l.
- destruct l as [|x0 [|x1 rest]]; reflexivity.
- destruct l as [|x0 [|x1 rest]]; simpl; [done| |].
  + by destruct i.
  + rewrite IH. by replace (i + Datatypes.S (i + 0)) with (Datatypes.S (2 * i)) by lia.
Qed.

Lemma convert_even l : Nat.Even (length l) ->
convert_stereo_to_mono_audio l = inr (mix_pairs l).
Proof.
intros Hev. unfold convert_stereo_to_mono_audio. rewrite land_1_mod2.
destruct Hev as [m ->]. by rewrite Nat.mul_comm, Nat.Div0.mod_mul.
Qed.

Lemma convert_odd l : Nat.Odd (length l) ->
convert_stereo_to_mono_audio l = inl (HalfSampleMissing (length l)).
Proof.
intros Hodd. unfold convert_stereo_to_mono_audio. rewrite land_1_mod2.
destruct Hodd as [m Hm]. rewrite Hm, Nat.add_comm, Nat.mul_comm, Nat.Div0.mod_add.
reflexivity.
Qed.

Lemma spec_mix_fuel_2 f l : Nat.Even (length l) -> length l <= 2 * f ->
spec_mix_fuel f 2 l = mix_pairs l.
Proof.
revert l. induction f as [|f IH]; intros l Hev Hlen.
- destruct l; [done|simpl in Hlen; lia].
- destruct l as [|x0 [|x1 rest]]; [done| |].
  + exfalso. destruct Hev as [m Hm]. simpl in Hm. lia.
  + cbn [spec_mix_fuel take length Nat.eqb foldl drop mix_pairs].
    assert (Nat.Even (length rest)) as Hev'
      by (destruct Hev as [m Hm]; exists (m - 1); simpl in Hm; lia).
    simpl. rewrite drop_0, IH by (done || (simpl in Hlen; lia)). done.
Qed.

Lemma length_spec_mix_fuel_1 f l : length l <= f -> length (spec_mix_fuel f 1 l) = length l.
Proof.
revert l. induction f as [|f IH]; intros l Hlen.
- destruct l; [done|simpl in Hlen; lia].
- destruct l as [|x rest]; [done|].
  cbn [spec_mix_fuel take length Nat.eqb drop].
  simpl. rewrite drop_0, IH; [done|simpl in Hlen; lia].
Qed.

Lemma buffer_stereo_data_cases input c :
buffer_stereo_data input c =
  (if Nat.even (length input) then
    if Mpsc.receiver c
    then Done (Mpsc.mkChannel (Mpsc.queue c ++ [mix_pairs input]) (Mpsc.senders c) true)
    else Panicked "Failed to send sample down channel: sending on a closed channel"
  else Panicked "failed to convert audio data").
Proof.
unfold buffer_stereo_data. destruct (Nat.even (length input)) eqn:E.
- rewrite convert_even by (by apply Nat.even_spec). simpl.
  unfold Mpsc.send. by destruct (Mpsc.receiver c).
- rewrite convert_odd; [done|].
  apply Nat.odd_spec. by rewrite <- Nat.negb_even, E.
Qed.
End Facts.
End MixerFacts.

Module MixerProps.
Import Mixer MixerFacts.

(** C21: a frame of even length delivered while the accumulator
  thread is alive enqueues exactly one mono chunk of half its length in
  queue A, whose sample [i] is [(x(2i) + x(2i+1)) / 2.0] (spec 8, third
  property). *)
Theorem buffer_stereo_data_mixes {S} `{SampleArith S} (input : list S)
  (c c' : Mpsc.channel (list S)) :
buffer_stereo_data input c = Done c' ->
exists m, Mpsc.queue c' = Mpsc.queue c ++ [m] /\
  length m = length input / 2 /\
  Mpsc.senders c' = Mpsc.senders c /\
  (forall i a b, input !! (2 * i) = Some a -> input !! (2 * i + 1) = Some b ->
     m !! i = Some (s_div (s_add a b) (s_of_nat 2))).
Proof.
rewrite buffer_stereo_data_cases.
destruct (Nat.even _), (Mpsc.receiver c); intros Hc; invc Hc.
exists (mix_pairs input). cbn [Mpsc.queue Mpsc.senders]. split_and!; [done|apply length_mix_pairs|done|].
intros i a b Ha Hb. rewrite lookup_mix_pairs. by rewrite Ha, Hb.
Qed.

Example buffer_stereo_data_mixes_witness :
exists c', buffer_stereo_data [1; 3; 2; 6]%Q (@Mpsc.new (list Q)) = Done c' /\
exists m, Mpsc.queue c' = Mpsc.queue (@Mpsc.new (list Q)) ++ [m] /\
  length m = length [1; 3; 2; 6]%Q / 2 /\
  Mpsc.senders c' = Mpsc.senders (@Mpsc.new (list Q)) /\
  (forall i a b, [1; 3; 2; 6]%Q !! (2 * i) = Some a -> [1; 3; 2; 6]%Q !! (2 * i + 1) = Some b ->
     m !! i = Some (s_div (s_add a b) (s_of_nat 2))).
Proof.
eexists. split; [reflexivity|]. apply buffer_stereo_data_mixes. reflexivity.
Defined.

(** C22: a frame with an odd number of samples makes the capture
  callback panic ([expect("failed to convert audio data")]), whatever
  the state of queue A. *)
Theorem buffer_stereo_data_odd_panics {S} `{SampleArith S} (input : list S) c :
Nat.Odd (length input) ->
buffer_stereo_data input c = Panicked "failed to convert audio data".
Proof.
intros Hodd. rewrite buffer_stereo_data_cases.
apply Nat.odd_spec in Hodd. rewrite <- Nat.negb_even in Hodd.
by destruct (Nat.even (length input)).
Qed.

Example buffer_stereo_data_odd_panics_witness :
Nat.Odd (length [1; 2; 3]%Q) /\
buffer_stereo_data [1; 2; 3]%Q (@Mpsc.new (list Q)) = Panicked "failed to convert audio data".
Proof.
split; [exists 1; reflexivity|]. apply buffer_stereo_data_odd_panics. exists 1. reflexivity.
Defined.

(** C23: for a two-channel device the code's mixer is the spec's
  channel mixer (section 4.1) at [C = 2]: while the accumulator thread is
  alive, the callback enqueues [spec_mix 2] of every frame of even
  length. *)
Theorem convert_refines_spec_mix_stereo {S} `{SampleArith S} (l : list S) (c : Mpsc.channel (list S)) :
Nat.Even (length l) -> Mpsc.receiver c = true ->
buffer_stereo_data l c = Done (Mpsc.mkChannel (Mpsc.queue c ++ [spec_mix 2 l]) (Mpsc.senders c) true).
Proof.
intros Hev Hr. rewrite buffer_stereo_data_cases, Hr.
apply Nat.even_spec in Hev as He. rewrite He. unfold spec_mix.
rewrite spec_mix_fuel_2 by (done || lia). done.
Qed.

Example convert_refines_spec_mix_stereo_witness :
Nat.Even (length [1; 3; 2; 6]%Q) /\ Mpsc.receiver (@Mpsc.new (list Q)) = true /\
buffer_stereo_data [1; 3; 2; 6]%Q (@Mpsc.new (list Q)) =
  Done (Mpsc.mkChannel (Mpsc.queue (@Mpsc.new (list Q)) ++ [spec_mix 2 [1; 3; 2; 6]%Q])
                       (Mpsc.senders (@Mpsc.new (list Q))) true).
Proof.
split_and!; [exists 2; reflexivity|reflexivity|].
apply convert_refines_spec_mix_stereo; [exists 2|]; reflexivity.
Defined.

End MixerProps.
