(* ===== verification/Ring.v ===== *)
(** * Ring: the circular sample buffer of the accumulator thread

    [main.rs] line 163 creates [AllocRingBuffer::new(BUFFER_SIZE * SECONDS)]
    (crate [ringbuffer]); the accumulator only calls [push] (line 178) and
    [to_vec] (line 183).  The crate is not part of [src/]: the spec (4.2)
    only promises "a true ring of capacity W, oldest sample evicted".

    - [RingBuffer] is the interface the accumulator is proved against: a
      class of operations with laws saying that the ring's contents are the
      last [capacity] samples pushed ([lastn], from the prelude).
    - [AllocRing] is an implementation in the style of the crate: a slot
      array of a power-of-two [size >= capacity], monotone [readptr] and
      [writeptr], slot indices masked with [Z.land]-style [Nat.land].  Its
      laws are proved (a functional refinement of the sliding window), so
      the interface is satisfiable and the accumulator's theorems apply to
      it.  Pointers are unbounded naturals: at 44.1 kHz the 64-bit pointers
      of the crate would wrap after about 13 million years of capture. *)

From Stdlib Require Import String Lia.
From stdpp Require Import base list.
From S2P Require Import Prelude.

(** ** The interface *)

Class RingBuffer (R : Type -> Type) := {
  rb_new : forall {A}, nat -> R A;            (** [AllocRingBuffer::new(capacity)] *)
  rb_push : forall {A}, A -> R A -> R A;      (** [RingBuffer::push] *)
  rb_to_vec : forall {A}, R A -> list A;      (** [RingBuffer::to_vec], oldest first *)
  rb_capacity : forall {A}, R A -> nat;
  rb_wf : forall {A}, R A -> Prop;            (** representation invariant *)
}.

Class RingBufferLaws (R : Type -> Type) `{RingBuffer R} := {
  rb_wf_new : forall A n, 0 < n -> rb_wf (@rb_new R _ A n);
  rb_capacity_new : forall A n, rb_capacity (@rb_new R _ A n) = n;
  rb_to_vec_new : forall A n, rb_to_vec (@rb_new R _ A n) = [];
  rb_wf_push : forall A (x : A) r, rb_wf r -> rb_wf (rb_push x r);
  rb_capacity_push : forall A (x : A) r, rb_capacity (rb_push x r) = rb_capacity r;
  rb_to_vec_push : forall A (x : A) r, rb_wf r ->
    rb_to_vec (rb_push x r) = lastn (rb_capacity r) (rb_to_vec r ++ [x]);
}.

(** [for sample in samples.iter() { buffer.push( *sample); }] (lines 177-179). *)
Definition push_all {R} `{RingBuffer R} {A} (xs : list A) (r : R A) : R A :=
  fold_left (fun r x => rb_push x r) xs r.

Section PushAll.
Context {R} `{RingBufferLaws R} {A : Type}.

Lemma push_all_wf (xs : list A) r : rb_wf r -> rb_wf (push_all xs r).
Proof.
  unfold push_all. revert r. induction xs; intros r Hr; simpl; auto using rb_wf_push.
Qed.

Lemma push_all_capacity (xs : list A) r : rb_capacity (push_all xs r) = rb_capacity r.
Proof.
  unfold push_all. revert r. induction xs; intros r; simpl; [done|].
  by rewrite IHxs, rb_capacity_push.
Qed.

(** After pushing [xs], the ring holds the last [capacity] samples of
    everything it held followed by [xs]. *)
Lemma push_all_to_vec (xs : list A) r : rb_wf r ->
  length (rb_to_vec r) <= rb_capacity r ->
  rb_to_vec (push_all xs r) = lastn (rb_capacity r) (rb_to_vec r ++ xs).
Proof.
  unfold push_all. revert r. induction xs as [|x xs IH]; intros r Hwf Hlen; simpl.
  - by rewrite app_nil_r, lastn_all.
  - rewrite IH by (rewrite ?rb_capacity_push, ?rb_to_vec_push; auto using rb_wf_push, lastn_le_length).
    rewrite rb_capacity_push, rb_to_vec_push, lastn_lastn_app, <- app_assoc by done.
    reflexivity.
Qed.
End PushAll.

#[export] Hint Resolve push_all_wf : vk.
#[export] Hint Rewrite @push_all_capacity : vk_rw.

(** ** An implementation: masked slot array with monotone pointers *)

Module AllocRing.

Record ring (A : Type) := mk {
  buf : list (option A);  (** [size] slots; [None] is an uninitialised slot *)
  size : nat;             (** [capacity.next_power_of_two()] *)
  capacity : nat;
  readptr : nat;
  writeptr : nat;
}.
Arguments mk {A} _ _ _ _ _.
Arguments buf {A} _.
Arguments size {A} _.
Arguments capacity {A} _.
Arguments readptr {A} _.
Arguments writeptr {A} _.

(** [index & (size - 1)]: the slot of a pointer when [size] is a power of two. *)
Definition mask_and (size index : nat) : nat := Nat.land index (size - 1).

Definition next_power_of_two (n : nat) : nat := 2 ^ Nat.log2_up n.

Definition new {A} (capacity : nat) : ring A :=
  let size := next_power_of_two capacity in
  mk (replicate size None) size capacity 0 0.

Definition len {A} (r : ring A) : nat := writeptr r - readptr r.

Definition is_full {A} (r : ring A) : bool := Nat.eqb (len r) (capacity r).

(** [push]: when full, the oldest element is dropped by advancing
    [readptr]; the value is written at the masked [writeptr]. *)
Definition push {A} (x : A) (r : ring A) : ring A :=
  let rp := if is_full r then S (readptr r) else readptr r in
  mk (<[mask_and (size r) (writeptr r) := Some x]> (buf r))
     (size r) (capacity r) rp (S (writeptr r)).

Definition get_abs {A} (r : ring A) (i : nat) : option A :=
  mjoin (buf r !! mask_and (size r) i).

(** [to_vec]: the live elements, from [readptr] to [writeptr]. *)
Definition to_vec {A} (r : ring A) : list A :=
  omap (get_abs r) (seq (readptr r) (len r)).

Definition wf {A} (r : ring A) : Prop :=
  0 < capacity r /\ capacity r <= size r /\ (exists k, size r = 2 ^ k) /\
  length (buf r) = size r /\ readptr r <= writeptr r /\
  writeptr r - readptr r <= capacity r /\
  (forall i, readptr r <= i < writeptr r -> is_Some (get_abs r i)).

#[export] Instance AllocRing_RingBuffer : RingBuffer ring := {
  rb_new A n := new n;
  rb_push A x r := push x r;
  rb_to_vec A r := to_vec r;
  rb_capacity A r := capacity r;
  rb_wf A r := wf r;
}.

(** *** Arithmetic of masked indices *)

Lemma mask_and_mod k i : mask_and (2 ^ k) i = i mod 2 ^ k.
Proof. unfold mask_and. by rewrite <- Nat.land_ones, Nat.ones_equiv, Nat.sub_1_r. Qed.

Lemma mod_neq_close s i w : 0 < s -> i < w -> w - i < s -> i mod s <> w mod s.
Proof.
  intros Hs Hiw Hd E.
  pose proof (Nat.div_mod_eq i s). pose proof (Nat.div_mod_eq w s).
  assert (i / s < w / s) by nia. nia.
Qed.

Lemma next_power_of_two_ge n : 0 < n -> n <= next_power_of_two n.
Proof. intros Hn. unfold next_power_of_two. by apply Nat.log2_up_le_pow2. Qed.

Lemma omap_seq_ext {B} (f g : nat -> option B) s n :
  (forall i, s <= i < s + n -> f i = g i) ->
  omap f (seq s n) = omap g (seq s n).
Proof.
  revert s. induction n as [|n IH]; intros s Hfg; [done|].
  simpl. rewrite Hfg by lia. rewrite IH by (intros; apply Hfg; lia). done.
Qed.


(** *** Reading the slots after a push *)

Section Push.
Context {A : Type} (x : A) (r : ring A) (Hwf : wf r).

Lemma get_abs_push_ne i : i < writeptr r -> writeptr r - i < size r ->
  get_abs (push x r) i = get_abs r i.
Proof.
  intros Hi Hd. destruct Hwf as (_ & _ & [k Hk] & _).
  unfold get_abs, push; cbn [buf size]. rewrite Hk in *.
  rewrite list_lookup_insert_ne; [done|].
  rewrite !mask_and_mod. apply not_eq_sym, mod_neq_close; [|lia|lia].
  apply Nat.neq_0_lt_0, Nat.pow_nonzero. lia.
Qed.

Lemma get_abs_push_eq : get_abs (push x r) (writeptr r) = Some x.
Proof.
  destruct Hwf as (_ & _ & [k Hk] & Hlen & _).
  unfold get_abs, push; cbn [buf size].
  rewrite list_lookup_insert_eq; [done|].
  rewrite Hlen, Hk, mask_and_mod. apply Nat.mod_upper_bound, Nat.pow_nonzero. lia.
Qed.

Lemma length_to_vec : length (to_vec r) = len r.
Proof.
  destruct Hwf as (_ & _ & _ & _ & Hrw & _ & Hsome).
  unfold to_vec, len. apply omap_seq_length. intros i Hi. apply Hsome. lia.
Qed.

Lemma push_pointers :
  readptr r <= readptr (push x r) <= S (readptr r) /\
  writeptr (push x r) = S (writeptr r) /\
  S (writeptr r) - readptr (push x r) <= capacity r /\
  (is_full r = true -> readptr (push x r) = S (readptr r)) /\
  (is_full r = false -> readptr (push x r) = readptr r).
Proof.
  destruct Hwf as (Hc & _ & _ & _ & Hrw & Hcap & _).
  unfold push, is_full, len in *; cbn [readptr writeptr].
  destruct (Nat.eqb_spec (writeptr r - readptr r) (capacity r)); split_and!; done || lia.
Qed.

Lemma wf_push : wf (push x r).
Proof.
  pose proof Hwf as (Hc & Hcs & Hk & Hlen & Hrw & Hcap & Hsome).
  destruct push_pointers as (Hr1 & Hw1 & Hl1 & _).
  split_and!; try lia;
    try (unfold push; cbn [buf size capacity]; rewrite ?length_insert; done || lia).
  intros i Hi. rewrite Hw1 in Hi.
  destruct (decide (i = writeptr r)) as [->|Hne]; [rewrite get_abs_push_eq; eauto|].
  rewrite get_abs_push_ne by lia. apply Hsome. lia.
Qed.

Lemma omap_push_prefix s m : s + m <= writeptr r -> writeptr r - s < size r ->
  omap (get_abs (push x r)) (seq s m) = omap (get_abs r) (seq s m).
Proof.
  intros Hm Hs. apply omap_seq_ext. intros i Hi. apply get_abs_push_ne; lia.
Qed.

(** Refinement: a push is the sliding-window update of the contents. *)
Lemma to_vec_push : to_vec (push x r) = lastn (capacity r) (to_vec r ++ [x]).
Proof.
  pose proof Hwf as (Hc & Hcs & Hk & Hlen & Hrw & Hcap & Hsome).
  destruct push_pointers as (Hr1 & Hw1 & Hl1 & Hfull & Hnfull).
  unfold to_vec at 1. unfold len. rewrite Hw1.
  destruct (is_full r) eqn:F.
  - rewrite Hfull by done. unfold is_full, len in F. apply Nat.eqb_eq in F.
    replace (S (writeptr r) - S (readptr r)) with ((capacity r - 1) + 1) by lia.
    rewrite Nat.add_1_r, seq_S, omap_app, omap_push_prefix by lia.
    replace (S (readptr r) + (capacity r - 1)) with (writeptr r) by lia.
    rewrite omap_singleton, get_abs_push_eq.
    destruct (Hsome (readptr r) ltac:(lia)) as [y Hy].
    assert (Hv : to_vec r = y :: omap (get_abs r) (seq (S (readptr r)) (capacity r - 1))).
    { unfold to_vec, len. rewrite F.
      assert (Hc1 : capacity r = S (capacity r - 1)) by lia. rewrite Hc1 at 1.
      cbn [seq]. by apply omap_cons_some. }
    rewrite Hv. symmetry. apply lastn_cons_drop.
    rewrite length_app, omap_seq_length by (intros; apply Hsome; lia). simpl. lia.
  - rewrite Hnfull by done. unfold is_full, len in F. apply Nat.eqb_neq in F.
    replace (S (writeptr r) - readptr r) with (S (writeptr r - readptr r)) by lia.
    rewrite seq_S, omap_app, omap_push_prefix by lia.
    replace (readptr r + (writeptr r - readptr r)) with (writeptr r) by lia.
    rewrite omap_singleton, get_abs_push_eq. symmetry. apply lastn_all.
    rewrite length_app, omap_seq_length by (intros; apply Hsome; lia). simpl. lia.
Qed.
End Push.

Lemma wf_new {A} n : 0 < n -> wf (@new A n).
Proof.
  intros Hn. unfold new. split_and!; cbn [buf size capacity readptr writeptr];
    rewrite ?length_replicate; try done; try lia.
  - by apply next_power_of_two_ge.
  - by eexists.
Qed.

#[export] Instance AllocRing_laws : RingBufferLaws ring.
Proof.
  split; intros; cbn.
  - by apply wf_new.
  - done.
  - done.
  - by apply wf_push.
  - done.
  - by apply to_vec_push.
Qed.
End AllocRing.

#[export] Existing Instances AllocRing.AllocRing_RingBuffer AllocRing.AllocRing_laws.

Module RingProps.
Import AllocRing.

(** C9: the masked-index ring refines the spec's sliding window:
  after any sequence of pushes into a fresh ring of capacity [cap], its
  contents are the last [cap] values pushed, oldest first. *)
Theorem alloc_ring_sliding_window {A} (cap : nat) (xs : list A) :
0 < cap -> to_vec (push_all xs (new cap)) = lastn cap xs.
Proof.
intros Hcap. change (rb_to_vec (push_all xs (rb_new cap)) = lastn cap xs).
rewrite push_all_to_vec; [|by apply rb_wf_new|rewrite rb_to_vec_new; simpl; lia].
by rewrite rb_capacity_new, rb_to_vec_new.
Qed.

Example alloc_ring_sliding_window_witness :
0 < 3 /\ to_vec (push_all [1; 2; 3; 4; 5] (new 3)) = lastn 3 [1; 2; 3; 4; 5] /\
to_vec (push_all [1; 2; 3; 4; 5] (new 3)) = [3; 4; 5].
Proof.
split; [lia|]. split; [apply alloc_ring_sliding_window; lia|reflexivity].
Defined.
End RingProps.
