(* ===== verification/Accumulator.v ===== *)
(** * Accumulator: the streaming data thread (main.rs 162-188)

    The thread owns an [AllocRingBuffer] of capacity [W = BUFFER_SIZE *
    SECONDS], a counter [sample_count] and an [FftFixedInOut] resampler.
    For every mono chunk received from queue A it adds the chunk's length
    to the counter, pushes the samples into the ring, and, once the counter
    reaches [W], resets it to 0, resamples a snapshot of the whole ring and
    hands the result on (the send into queue B is modelled in [Pipeline]).

    The ring is used through the [RingBuffer] interface of [Ring]; the
    resampler (crate [rubato], not in [src/]) through the [Resampler]
    interface below, whose laws are the contract of spec 4.3 as rubato
    (0.12 and later) keeps it: a chunk of exactly [input_frames] samples in
    one channel is resampled to one channel of [output_frames] samples,
    and a shorter chunk is an error ([InsufficientInputBufferSize]); the
    laws say nothing of longer chunks, which rubato accepts. *)

From Stdlib Require Import String QArith Lia.
From stdpp Require Import base list.
From S2P Require Import Prelude Ring.

(** ** The resampler interface (rubato's [FftFixedInOut]) *)

Class Resampler (Rs S : Type) := {
  (** [FftFixedInOut::new(rate_in, rate_out, chunk_size_in, channels)] *)
  rs_new : nat -> nat -> nat -> nat -> option Rs;
  (** [Resampler::process(&mut self, wave_in, None)]: one list per channel *)
  rs_process : Rs -> list (list S) -> option (Rs * list (list S));
  rs_input_frames : Rs -> nat;     (** [input_frames_next()] *)
  rs_output_frames : Rs -> nat;    (** [output_frames_next()] *)
  rs_channels : Rs -> nat;
}.

Class ResamplerLaws (Rs S : Type) `{Resampler Rs S} := {
  rs_new_channels : forall fin fout chunk ch r,
    rs_new fin fout chunk ch = Some r -> rs_channels r = ch;
  rs_process_ok : forall r w, rs_channels r = 1 -> length w = rs_input_frames r ->
    exists r' out, rs_process r [w] = Some (r', [out]) /\
      length out = rs_output_frames r /\ rs_input_frames r' = rs_input_frames r /\
      rs_output_frames r' = rs_output_frames r /\ rs_channels r' = rs_channels r;
  (** rubato rejects a chunk shorter than [input_frames_next()]
    ([InsufficientInputBufferSize]); it does not reject a longer one. *)
  rs_process_short : forall r w, length w < rs_input_frames r ->
    rs_process r [w] = None;
}.

(** A nearest-neighbour resampler: a test double that satisfies the
    contract, used to run the examples (not a model of rubato's FFT). *)
Module Nearest.
Record nearest := mk { n_in : nat; n_out : nat; n_ch : nat }.

#[export] Instance Nearest_Resampler {S} `{Inhabited S} : Resampler nearest S := {
  rs_new fin fout chunk ch :=
    if Nat.eqb fin 0 || Nat.eqb chunk 0 then None
    else Some (mk chunk (chunk * fout / fin) ch);
  rs_process r chans :=
    match chans with
    | [w] => if Nat.leb (n_in r) (length w)
             then Some (r, [map (fun j => w !!! (j * n_in r / n_out r)) (seq 0 (n_out r))])
             else None
    | _ => None
    end;
  rs_input_frames := n_in;
  rs_output_frames := n_out;
  rs_channels := n_ch;
}.

#[export] Instance Nearest_laws {S} `{Inhabited S} : ResamplerLaws nearest S.
Proof.
  split.
  - intros fin fout chunk ch r. cbn.
    destruct (Nat.eqb fin 0 || Nat.eqb chunk 0); intros Hr; by invc Hr.
  - intros r w Hch Hlen. cbn. rewrite Hlen, Nat.leb_refl. do 2 eexists.
    split; [reflexivity|]. by rewrite length_map, length_seq.
  - intros r w Hlen. cbn in *. destruct (Nat.leb_spec (n_in r) (length w)); [lia|done].
Qed.
End Nearest.

#[export] Existing Instances Nearest.Nearest_Resampler Nearest.Nearest_laws.
#[export] Instance Q_inhabited : Inhabited Q := populate 0%Q.

(** ** The data thread *)

Module Accumulator.

Record DataThread (R : Type -> Type) (S Rs : Type) := mkDataThread {
  buffer : R S;          (** [buffer: AllocRingBuffer<f32>] *)
  sample_count : nat;    (** [sample_count: usize] *)
  resampler : Rs;        (** [resampler: FftFixedInOut<f32>] *)
}.
Arguments mkDataThread {R S Rs} _ _ _.
Arguments buffer {R S Rs} _.
Arguments sample_count {R S Rs} _.
Arguments resampler {R S Rs} _.

Section Thread.
Context {R : Type -> Type} `{RingBuffer R} {S Rs : Type} `{Resampler Rs S}.
Variable W : nat.   (** [BUFFER_SIZE * SECONDS] *)

(** Lines 163-164: the thread's initial state, given the resampler
    built at lines 167-173. *)
Definition init (rs : Rs) : DataThread R S Rs := mkDataThread (rb_new W) 0 rs.

(** Lines 176-186: the body of [while let Ok(samples) = audio_rx.recv()]
    up to the send: the new state and the resampled window, if any. *)
Definition on_samples (samples : list S) (st : DataThread R S Rs)
    : outcome (DataThread R S Rs * option (list S)) :=
  let sample_count := usize_add_nat (sample_count st) (length samples) in
  let buffer := push_all samples (buffer st) in
  if Nat.leb W sample_count then
    (p <-! expect (rs_process (resampler st) [rb_to_vec buffer])
             "called `Result::unwrap()` on an `Err` value" ;;
     let '(rs', downsample) := p in
     out <-! expect (head downsample)
               "index out of bounds: the len is 0 but the index is 0" ;;
     Done (mkDataThread buffer 0 rs', Some out))%vk
  else Done (mkDataThread buffer sample_count (resampler st), None).

(** A sequence of received chunks, collecting the windows handed on. *)
Fixpoint run_chunks (chunks : list (list S)) (st : DataThread R S Rs)
    : outcome (DataThread R S Rs * list (list S)) :=
  match chunks with
  | [] => Done (st, [])
  | c :: cs =>
      (p <-! on_samples c st ;;
       let '(st', o) := p in
       q <-! run_chunks cs st' ;;
       let '(st'', ws) := q in
       Done (st'', option_list o ++ ws))%vk
  end.
End Thread.

End Accumulator.

(** ** The accumulator's contract and its proof *)

Module AccumulatorSpec.
Import Accumulator.

Section Spec.
Context {S Rs : Type} `{Resampler Rs S}.

(** Spec 4.2: the windows handed to the resampler, as a function of the
  chunks received.  [pending] counts the samples since the last window;
  a window is the last [W] samples of the whole history. *)
Fixpoint spec_windows (W pending : nat) (hist : list S) (chunks : list (list S))
  : list (list S) :=
match chunks with
| [] => []
| c :: cs =>
    let hist' := hist ++ c in
    if Nat.leb W (pending + length c)
    then lastn W hist' :: spec_windows W 0 hist' cs
    else spec_windows W (pending + length c) hist' cs
end.

(** The resampler applied to a sequence of windows, threading its state
  ([downsample[0]] of each call). *)
Fixpoint rs_run (rs : Rs) (ws : list (list S)) : option (Rs * list (list S)) :=
match ws with
| [] => Some (rs, [])
| w :: ws' =>
    match rs_process rs [w] with
    | Some (rs', out :: _) =>
        match rs_run rs' ws' with
        | Some (rs'', outs) => Some (rs'', out :: outs)
        | None => None
        end
    | _ => None
    end
end.
End Spec.

Section Proofs.
Context {R : Type -> Type} `{RingBufferLaws R} {S Rs : Type} `{ResamplerLaws Rs S}.
Variable W : nat.
Hypothesis HW : 0 < W.
Hypothesis HWmax : (Z.of_nat W <= max_vec_f32)%Z.

(** The invariant of the data thread, relative to the history [hist] of
  all samples received and the number [pending] received since the
  last window. *)
Definition acc_inv (hist : list S) (pending : nat) (st : DataThread R S Rs) : Prop :=
rb_wf (buffer st) /\ rb_capacity (buffer st) = W /\
rb_to_vec (buffer st) = lastn W hist /\
sample_count st = pending /\ pending < W /\ pending <= length hist /\
rs_input_frames (resampler st) = W /\ rs_channels (resampler st) = 1.

Definition chunk_ok (c : list S) : Prop := (Z.of_nat (length c) <= max_vec_f32)%Z.

Lemma acc_inv_init rs : rs_input_frames rs = W -> rs_channels rs = 1 ->
acc_inv [] 0 (init W rs).
Proof.
intros Hin Hch. unfold acc_inv, init; cbn [buffer sample_count resampler].
split_and!; auto using rb_wf_new, rb_capacity_new, rb_to_vec_new with lia.
Qed.

Lemma acc_inv_counter hist pending st c : acc_inv hist pending st -> chunk_ok c ->
usize_add_nat (sample_count st) (length c) = pending + length c.
Proof.
intros (_ & _ & _ & Hsc & Hp & _) Hc. unfold chunk_ok in Hc. subst.
apply usize_add_nat_exact. pose proof max_vec_f32_twice. lia.
Qed.

Lemma acc_inv_push hist pending st c : acc_inv hist pending st ->
rb_wf (push_all c (buffer st)) /\ rb_capacity (push_all c (buffer st)) = W /\
rb_to_vec (push_all c (buffer st)) = lastn W (hist ++ c).
Proof.
intros (Hwf & Hcap & Hvec & _).
split_and!; [by apply push_all_wf|by rewrite push_all_capacity|].
rewrite push_all_to_vec, Hcap, Hvec by (rewrite ?Hcap, ?Hvec; auto using lastn_le_length).
apply lastn_lastn_app.
Qed.

Lemma length_lastn_full (hist c : list S) pending : pending <= length hist ->
W <= pending + length c -> length (lastn W (hist ++ c)) = W.
Proof. intros. rewrite length_lastn, length_app. lia. Qed.

(** One iteration of the loop, on every branch. *)
Lemma on_samples_step hist pending st (c : list S) : acc_inv hist pending st -> chunk_ok c ->
exists st' o, on_samples W c st = Done (st', o) /\
  buffer st' = push_all c (buffer st) /\
  acc_inv (hist ++ c) (if Nat.leb W (pending + length c) then 0 else pending + length c) st' /\
  (if Nat.leb W (pending + length c)
   then exists out, o = Some out /\ length out = rs_output_frames (resampler st) /\
          rs_process (resampler st) [lastn W (hist ++ c)] = Some (resampler st', [out])
   else o = None /\ resampler st' = resampler st).
Proof.
intros Hinv Hc. pose proof Hinv as (_ & _ & _ & Hsc & Hp & Hph & Hin & Hch).
destruct (acc_inv_push _ _ _ c Hinv) as (Hwf' & Hcap' & Hvec').
unfold on_samples. rewrite (acc_inv_counter _ _ _ _ Hinv Hc).
destruct (Nat.leb_spec W (pending + length c)) as [Hge|Hlt].
- destruct (rs_process_ok (resampler st) (lastn W (hist ++ c))) as
    (r' & out & Hproc & Hout & Hin' & _ & Hch'); [done|rewrite Hin; apply (length_lastn_full _ _ pending); lia|].
  rewrite Hvec', Hproc. simpl. do 2 eexists. split_and!; [reflexivity|done| |].
  + unfold acc_inv; cbn [buffer sample_count resampler].
    split_and!; try done; try lia; by rewrite ?Hin', ?Hch'.
  + eauto.
- do 2 eexists. split_and!; [reflexivity|done| |done|done].
  unfold acc_inv; cbn [buffer sample_count resampler].
  split_and!; try done; rewrite ?length_app; lia.
Qed.

(** Refinement: the loop over a sequence of chunks is [spec_windows]
  followed by the resampler. *)
Lemma run_chunks_refines chunks : forall hist pending st,
acc_inv hist pending st -> Forall chunk_ok chunks ->
exists st' outs pending',
  run_chunks W chunks st = Done (st', outs) /\
  rs_run (resampler st) (spec_windows W pending hist chunks) = Some (resampler st', outs) /\
  acc_inv (hist ++ concat chunks) pending' st'.
Proof.
induction chunks as [|c cs IH]; intros hist pending st Hinv Hok.
- exists st, [], pending. simpl. by rewrite app_nil_r.
- apply Forall_cons in Hok as [Hc Hcs].
  destruct (on_samples_step hist pending st c Hinv Hc) as (st1 & o & Hstep & _ & Hinv1 & Ho).
  destruct (IH _ _ _ Hinv1 Hcs) as (st2 & outs & p2 & Hrun & Hrs & Hinv2).
  exists st2, (option_list o ++ outs), p2. cbn [run_chunks spec_windows concat].
  rewrite Hstep, obind_done, Hrun, obind_done, app_assoc.
  split_and!; [done| |done].
  destruct (Nat.leb W (pending + length c)).
  + destruct Ho as (out & -> & _ & Hproc). simpl. by rewrite Hproc, Hrs.
  + destruct Ho as (-> & Hr). simpl. by rewrite <- Hr.
Qed.

(** Every window of the contract is [W] samples long, provided the
  history holds at least the [pending] samples. *)
Lemma spec_windows_length (chunks : list (list S)) : forall hist pending, pending <= length hist ->
Forall (fun w => length w = W) (spec_windows W pending hist chunks).
Proof.
induction chunks as [|c cs IH]; intros hist pending Hp; [constructor|].
cbn [spec_windows]. destruct (Nat.leb_spec W (pending + length c)).
- constructor; [by apply (length_lastn_full _ _ pending)|]. apply IH. lia.
- apply IH. rewrite length_app. lia.
Qed.

Lemma spec_windows_short (chunks : list (list S)) : forall hist pending,
pending + length (concat chunks) < W -> spec_windows W pending hist chunks = [].
Proof.
induction chunks as [|c cs IH]; intros hist pending Hlt; [done|].
cbn [spec_windows]. cbn [concat] in Hlt. rewrite length_app in Hlt.
destruct (Nat.leb_spec W (pending + length c)); [lia|]. apply IH. lia.
Qed.

(** At most one spec window per [W] samples received. *)
Lemma spec_windows_count (chunks : list (list S)) : forall hist pending,
length (spec_windows W pending hist chunks) * W <= pending + length (concat chunks).
Proof.
induction chunks as [|c cs IH]; intros hist pending; cbn [spec_windows concat]; [simpl; lia|].
rewrite length_app. destruct (Nat.leb_spec W (pending + length c)); cbn [length].
- specialize (IH (hist ++ c) 0). lia.
- specialize (IH (hist ++ c) (pending + length c)). lia.
Qed.

Lemma rs_run_length ws : forall rs rs' outs, rs_run rs ws = Some (rs', outs) -> length outs = length ws.
Proof.
induction ws as [|w ws IH]; intros rs rs' outs Hr; cbn [rs_run] in Hr; [by invc Hr|].
destruct (rs_process rs [w]) as [[r1 [|o os]]|]; try discriminate.
destruct (rs_run r1 ws) as [[r2 outs2]|] eqn:E; [|discriminate]. invc Hr.
cbn. by rewrite (IH _ _ _ E).
Qed.

Lemma rs_run_lengths ws : forall rs rs' outs,
rs_channels rs = 1 -> Forall (fun w => length w = rs_input_frames rs) ws ->
rs_run rs ws = Some (rs', outs) ->
Forall (fun o => length o = rs_output_frames rs) outs.
Proof.
induction ws as [|w ws IH]; intros rs rs' outs Hch Hws Hrun.
- by invc Hrun.
- apply Forall_cons in Hws as [Hw Hws].
  destruct (rs_process_ok rs w Hch Hw) as (r1 & out & Hp & Hout & Hin1 & Hout1 & Hch1).
  cbn [rs_run] in Hrun. rewrite Hp in Hrun.
  destruct (rs_run r1 ws) as [[r2 outs2]|] eqn:E; invc Hrun.
  constructor; [done|]. rewrite <- Hout1.
  eapply (IH r1); [by rewrite Hch1|by rewrite Hin1|exact E].
Qed.
End Proofs.
End AccumulatorSpec.

Module AccumulatorProps.
Import Accumulator AccumulatorSpec.

Section Props.
Context {R : Type -> Type} `{RingBufferLaws R} {S Rs : Type} `{ResamplerLaws Rs S}.

(** C1: from its initial state, on any sequence of received
  chunks, the data thread never panics, and the windows it hands on are
  exactly the resampler applied, in order, to the windows of the spec's
  cadence ([spec_windows]: one snapshot of the last [W] samples each
  time [W] fresh samples have arrived since the previous one). *)
Theorem data_thread_refines_spec (W : nat) (rs : Rs) (chunks : list (list S)) :
0 < W -> (Z.of_nat W <= max_vec_f32)%Z ->
rs_input_frames rs = W -> rs_channels rs = 1 ->
Forall (fun c => Z.of_nat (length c) <= max_vec_f32)%Z chunks ->
exists st' outs,
  run_chunks W chunks (init (R := R) W rs) = Done (st', outs) /\
  rs_run rs (spec_windows W 0 [] chunks) = Some (resampler st', outs).
Proof.
intros HW HWmax Hin Hch Hok.
destruct (run_chunks_refines W HW HWmax chunks [] 0 (init W rs)) as (st' & outs & _ & Hrun & Hrs & _);
  [by apply acc_inv_init|done|].
by exists st', outs.
Qed.

(** C5: the data thread's cadence is bounded by the samples it has
  received: from its initial state it never panics, and it hands on at
  most one window per [W] samples received in total. *)
Theorem data_thread_windows_bounded (W : nat) (rs : Rs) (chunks : list (list S)) :
0 < W -> (Z.of_nat W <= max_vec_f32)%Z ->
rs_input_frames rs = W -> rs_channels rs = 1 ->
Forall (fun c => Z.of_nat (length c) <= max_vec_f32)%Z chunks ->
exists st' outs, run_chunks W chunks (init (R := R) W rs) = Done (st', outs) /\
  length outs * W <= length (concat chunks).
Proof.
intros HW HWmax Hin Hch Hok.
destruct (run_chunks_refines W HW HWmax chunks [] 0 (init W rs)) as (st1 & outs1 & _ & Hrun1 & Hrs & _);
  [by apply acc_inv_init|done|].
exists st1, outs1. split; [done|].
rewrite (rs_run_length _ _ _ _ Hrs). pose proof (spec_windows_count W HW chunks [] 0). lia.
Qed.

(** C10: while fewer than [W] samples have been received in
  total, the data thread runs without panicking and hands on no window
  (spec 8, first property). *)
Theorem data_thread_no_window_before_W (W : nat) (rs : Rs) (chunks : list (list S)) :
0 < W -> (Z.of_nat W <= max_vec_f32)%Z ->
rs_input_frames rs = W -> rs_channels rs = 1 ->
Forall (fun c => Z.of_nat (length c) <= max_vec_f32)%Z chunks ->
length (concat chunks) < W ->
exists st', run_chunks W chunks (init (R := R) W rs) = Done (st', []).
Proof.
intros HW HWmax Hin Hch Hok Hshort.
destruct (run_chunks_refines W HW HWmax chunks [] 0 (init W rs)) as (st1 & outs1 & _ & Hrun1 & Hrs & _);
  [by apply acc_inv_init|done|].
rewrite spec_windows_short in Hrs by (simpl; lia). invc Hrs. by exists st1.
Qed.

Lemma run_chunks_single (W : nat) (c : list S) (st : DataThread R S Rs) :
run_chunks W [c] st = obind (on_samples W c st) (fun p => Done (p.1, option_list p.2)).
Proof. simpl. destruct (on_samples W c st) as [[st' o]|]; simpl; by rewrite ?app_nil_r. Qed.

(** C11: a single chunk of at least [W] samples yields exactly one
  window, the last [W] samples, and the counter restarts from 0: a chunk
  that crosses several multiples of [W] does not give one window per
  crossing, and the samples beyond [W] are not carried over. *)
Theorem data_thread_large_chunk_one_window (W : nat) (rs : Rs) (c : list S) :
0 < W -> (Z.of_nat W <= max_vec_f32)%Z ->
rs_input_frames rs = W -> rs_channels rs = 1 ->
(Z.of_nat (length c) <= max_vec_f32)%Z -> W <= length c ->
exists st' out,
  run_chunks W [c] (init (R := R) W rs) = Done (st', [out]) /\
  sample_count st' = 0 /\
  rs_process rs [lastn W c] = Some (resampler st', [out]).
Proof.
intros HW HWmax Hin Hch Hc Hge.
destruct (on_samples_step W HW HWmax [] 0 (init W rs) c) as (st' & o & Hstep & _ & Hinv & Ho);
  [by apply acc_inv_init|done|].
rewrite run_chunks_single, Hstep. simpl.
destruct (Nat.leb_spec W (0 + length c)) as [_|]; [|lia].
destruct Ho as (out & -> & _ & Hp). exists st', out. split_and!; [done| |done].
by destruct Hinv as (_ & _ & _ & -> & _).
Qed.

(** C12: the end-to-end scenario of spec 8 on the data thread:
  three chunks of [W / 3] samples produce exactly one window, after the
  third, which is the three chunks in order. *)
Theorem data_thread_three_thirds (k : nat) (rs : Rs) (c1 c2 c3 : list S) :
0 < k -> (Z.of_nat (3 * k) <= max_vec_f32)%Z ->
rs_input_frames rs = 3 * k -> rs_channels rs = 1 ->
length c1 = k -> length c2 = k -> length c3 = k ->
exists st' out,
  run_chunks (3 * k) [c1; c2; c3] (init (R := R) (3 * k) rs) = Done (st', [out]) /\
  rs_process rs [c1 ++ c2 ++ c3] = Some (resampler st', [out]).
Proof.
intros Hk HWmax Hin Hch Hl1 Hl2 Hl3.
destruct (run_chunks_refines (3 * k) ltac:(lia) HWmax [c1; c2; c3] [] 0 (init (3 * k) rs))
  as (st' & outs & _ & Hrun & Hrs & _); [apply acc_inv_init; auto with lia|repeat constructor; unfold chunk_ok; lia|].
cbn [spec_windows] in Hrs. rewrite Hl1, Hl2, Hl3 in Hrs.
destruct (Nat.leb_spec (3 * k) (0 + k)); [lia|].
destruct (Nat.leb_spec (3 * k) (0 + k + k)); [lia|].
destruct (Nat.leb_spec (3 * k) (0 + k + k + k)); [|lia].
rewrite lastn_all in Hrs by (rewrite !length_app; simpl; lia).
cbn [rs_run] in Hrs. rewrite <- !app_assoc in Hrs. simpl in Hrs.
destruct (rs_process rs [c1 ++ c2 ++ c3]) as [[r1 [|out os]]|] eqn:Hp; try done.
invc Hrs. exists st', out. split; [done|].
destruct (rs_process_ok rs (c1 ++ c2 ++ c3)) as (r2 & out2 & Hp2 & _); [done|rewrite !length_app; lia|].
rewrite Hp in Hp2. by invc Hp2.
Qed.

(** C13: after any sequence of chunks the counter is below [W],
  so the next [sample_count += samples.len()] cannot wrap around the
  64-bit [usize]. *)
Theorem data_thread_counter_bounded (W : nat) (rs : Rs) (chunks : list (list S)) st' outs :
0 < W -> (Z.of_nat W <= max_vec_f32)%Z ->
rs_input_frames rs = W -> rs_channels rs = 1 ->
Forall (fun c => Z.of_nat (length c) <= max_vec_f32)%Z chunks ->
run_chunks W chunks (init (R := R) W rs) = Done (st', outs) ->
sample_count st' < W /\
forall c : list S, (Z.of_nat (length c) <= max_vec_f32)%Z ->
  usize_add_nat (sample_count st') (length c) = sample_count st' + length c.
Proof.
intros HW HWmax Hin Hch Hok Hrun.
destruct (run_chunks_refines W HW HWmax chunks [] 0 (init W rs)) as (st1 & outs1 & p & Hrun1 & _ & Hinv);
  [by apply acc_inv_init|done|].
rewrite Hrun in Hrun1. injection Hrun1 as <- <-.
pose proof Hinv as (_ & _ & _ & Hsc & Hp & _). split; [lia|].
intros c Hc. rewrite (acc_inv_counter W HW HWmax _ _ _ c Hinv Hc). by rewrite Hsc.
Qed.

End Props.

Section Witnesses.

Lemma example_chunks_ok : Forall (fun c => Z.of_nat (length c) <= max_vec_f32)%Z [[1; 2; 3]; [4; 5; 6]]%Q.
Proof. repeat constructor; vk_zcompute. Qed.

Lemma four_ok : (Z.of_nat 4 <= max_vec_f32)%Z.
Proof. vk_zcompute. Qed.

Example data_thread_refines_spec_witness :
exists st' outs,
  run_chunks 4 [[1; 2; 3]; [4; 5; 6]]%Q (init (R := AllocRing.ring) 4 (Nearest.mk 4 2 1)) = Done (st', outs) /\
  rs_run (Nearest.mk 4 2 1) (spec_windows 4 0 [] [[1; 2; 3]; [4; 5; 6]]%Q) = Some (resampler st', outs).
Proof.
apply data_thread_refines_spec; [lia|exact four_ok|reflexivity|reflexivity|exact example_chunks_ok].
Defined.

Example data_thread_windows_bounded_witness :
exists st' outs, run_chunks 4 [[1; 2; 3]; [4; 5; 6]]%Q (init (R := AllocRing.ring) 4 (Nearest.mk 4 2 1)) = Done (st', outs) /\
  length outs * 4 <= length (concat [[1; 2; 3]; [4; 5; 6]]%Q).
Proof.
apply (data_thread_windows_bounded (R := AllocRing.ring) 4 (Nearest.mk 4 2 1) [[1; 2; 3]; [4; 5; 6]]%Q);
  [lia|exact four_ok|reflexivity|reflexivity|exact example_chunks_ok].
Defined.

Example data_thread_no_window_before_W_witness :
exists st', run_chunks 7 [[1; 2; 3]; [4; 5; 6]]%Q (init (R := AllocRing.ring) 7 (Nearest.mk 7 2 1)) = Done (st', []).
Proof.
apply (data_thread_no_window_before_W (R := AllocRing.ring) 7 (Nearest.mk 7 2 1) [[1; 2; 3]; [4; 5; 6]]%Q);
  [lia|vk_zcompute|reflexivity|reflexivity|exact example_chunks_ok|simpl; lia].
Defined.

Example data_thread_large_chunk_one_window_witness :
exists st' out,
  run_chunks 2 [[1; 2; 3; 4; 5]%Q] (init (R := AllocRing.ring) 2 (Nearest.mk 2 1 1)) = Done (st', [out]) /\
  sample_count st' = 0 /\
  rs_process (Nearest.mk 2 1 1) [lastn 2 [1; 2; 3; 4; 5]%Q] = Some (resampler st', [out]).
Proof.
apply data_thread_large_chunk_one_window; [lia|vk_zcompute|reflexivity|reflexivity|vk_zcompute|simpl; lia].
Defined.

Example data_thread_three_thirds_witness :
exists st' out,
  run_chunks (3 * 2) [[1; 2]; [3; 4]; [5; 6]]%Q (init (R := AllocRing.ring) (3 * 2) (Nearest.mk 6 2 1))
    = Done (st', [out]) /\
  rs_process (Nearest.mk 6 2 1) [[1; 2] ++ [3; 4] ++ [5; 6]]%Q = Some (resampler st', [out]).
Proof.
apply data_thread_three_thirds; [lia|vk_zcompute|reflexivity|reflexivity|reflexivity|reflexivity|reflexivity].
Defined.

Example data_thread_counter_bounded_witness :
exists st' outs, run_chunks 4 [[1; 2; 3]; [4; 5; 6]]%Q (init (R := AllocRing.ring) 4 (Nearest.mk 4 2 1))
  = Done (st', outs) /\ sample_count st' < 4 /\
forall c : list Q, (Z.of_nat (length c) <= max_vec_f32)%Z ->
  usize_add_nat (sample_count st') (length c) = sample_count st' + length c.
Proof.
eexists _, _. split; [vm_compute; reflexivity|].
eapply (data_thread_counter_bounded (R := AllocRing.ring) 4 (Nearest.mk 4 2 1));
  [lia|exact four_ok|reflexivity|reflexivity|exact example_chunks_ok|vm_compute; reflexivity].
Defined.

End Witnesses.
End AccumulatorProps.
