(* ===== verification/Text.v ===== *)
(** * Text: the string operations of the inference thread

    Line 140-142 of [main.rs] decide the trigger with
    [transcription_chunk.to_lowercase().contains(&opt.code_phrase.to_lowercase())]
    and line 126-133 format each log line with [i64] timestamps.  These are
    standard-library functions ([str::to_lowercase], [str::contains],
    [Display for i64]), modelled here from their documented behaviour on
    byte strings ([String.string], a list of [ascii]):

    - [to_lowercase] maps ['A'..'Z'] to ['a'..'z'] and leaves every other
      byte alone (Rust also lowers non-ASCII letters; not modelled);
    - [contains s p] holds iff [p] occurs in [s] at some position (the empty
      pattern occurs everywhere), decided by the naive search;
    - [i64_to_string] prints an integer in decimal, with a leading ['-'];
    - [has_char c s] tests whether the byte [c] occurs in [s], and
      [split_on d s] cuts [s] at every [d], as [str::split] does; they
      serve the [cut] and [xargs] stages of the kill pipeline and the
      reading of the log file.  The lemmas show which bytes a printed
      integer cannot contain ([has_char_i64]). *)

From Stdlib Require Import Ascii String ZArith Lia DecimalString.
From stdpp Require Import base tactics.
From S2P Require Import Prelude.

Local Open Scope string_scope.

Module Text.

(** [char::to_ascii_lowercase] *)
Definition ascii_to_lower (c : ascii) : ascii :=
  let n := nat_of_ascii c in
  if Nat.leb 65 n && Nat.leb n 90 then ascii_of_nat (n + 32) else c.

(** [str::to_lowercase] on byte strings. *)
Fixpoint to_lowercase (s : string) : string :=
  match s with
  | EmptyString => EmptyString
  | String c s' => String (ascii_to_lower c) (to_lowercase s')
  end.

(** [str::starts_with] *)
Fixpoint starts_with (p s : string) : bool :=
  match p, s with
  | EmptyString, _ => true
  | String a p', String b s' => Ascii.eqb a b && starts_with p' s'
  | String _ _, EmptyString => false
  end.

(** [str::contains]: does [p] occur at some position of [s]? *)
Fixpoint contains (s p : string) : bool :=
  starts_with p s ||
  match s with
  | EmptyString => false
  | String _ s' => contains s' p
  end.

(** [Display for i64]. *)
Definition i64_to_string (z : Z) : string := NilZero.string_of_int (Z.to_int z).

(** [String::push_str] over a sequence of segments, from [""]. *)
Definition str_concat (l : list string) : string := fold_right String.append "" l.

(** Does [c] occur in [s]? *)
Fixpoint has_char (c : ascii) (s : string) : bool :=
  match s with
  | EmptyString => false
  | String a s' => Ascii.eqb a c || has_char c s'
  end.

(** The fields of a line separated by [d]. *)
Fixpoint split_on (d : ascii) (s : string) : list string :=
  match s with
  | EmptyString => [EmptyString]
  | String a s' =>
      if Ascii.eqb a d then EmptyString :: split_on d s'
      else match split_on d s' with
           | f :: fs => String a f :: fs
           | [] => [String a EmptyString]
           end
  end.

Definition is_digit (c : ascii) : bool := Nat.leb 48 (nat_of_ascii c) && Nat.leb (nat_of_ascii c) 57.

(** *** Specifications *)

(** stdpp declares [String.append] [simpl never]: its two equations. *)
Lemma append_nil_l a : "" ++ a = a.
Proof. reflexivity. Qed.
Lemma append_cons x a b : String x a ++ b = String x (a ++ b).
Proof. reflexivity. Qed.

Lemma append_assoc a b c : (a ++ b) ++ c = a ++ (b ++ c).
Proof. induction a as [|x a IH]; [done|]. by rewrite !append_cons, IH. Qed.

Lemma append_empty_r a : a ++ "" = a.
Proof. induction a as [|x a IH]; [done|]. by rewrite append_cons, IH. Qed.

Lemma starts_with_spec p s : starts_with p s = true <-> exists b, s = p ++ b.
Proof.
  revert s. induction p as [|a p IH]; intros s; simpl.
  - split; [eauto|done].
  - destruct s as [|b s].
    + split; [done|]. intros [? H]; discriminate.
    + rewrite andb_true_iff, Ascii.eqb_eq, IH. split.
      * intros [-> [c ->]]. eauto.
      * intros [c Hc]. injection Hc as -> ->. eauto.
Qed.

Lemma contains_spec s p : contains s p = true <-> exists a b, s = a ++ p ++ b.
Proof.
  induction s as [|c s IH]; simpl; rewrite orb_true_iff, starts_with_spec.
  - split.
    + intros [[b Hb]|]; [|done]. by exists EmptyString, b.
    + intros [a [b Hab]]. left. destruct a; [by exists b|discriminate].
  - rewrite IH. split.
    + intros [[b Hb]|[a [b Hab]]].
      * by exists EmptyString, b.
      * exists (String c a), b. by rewrite Hab.
    + intros [a [b Hab]]. destruct a as [|c' a].
      * left. by exists b.
      * right. injection Hab as _ Hab. eauto.
Qed.

Lemma to_lowercase_app a b : to_lowercase (a ++ b) = to_lowercase a ++ to_lowercase b.
Proof. induction a as [|c a IH]; [done|]. rewrite append_cons. simpl. by rewrite IH. Qed.

Lemma contains_app_mid a p b : contains (a ++ p ++ b) p = true.
Proof. apply contains_spec. eauto. Qed.

Lemma str_concat_app l1 l2 : str_concat (l1 ++ l2) = str_concat l1 ++ str_concat l2.
Proof.
  unfold str_concat. induction l1 as [|a l1 IH]; simpl; [done|]. by rewrite IH, append_assoc.
Qed.
Lemma has_char_app c a b : has_char c (a ++ b) = has_char c a || has_char c b.
Proof. induction a as [|x a IH]; [done|]. rewrite append_cons. cbn. by rewrite IH, orb_assoc. Qed.

(** Decimal numerals contain only digits and a sign. *)
Lemma has_char_uint c d : is_digit c = false -> has_char c (NilEmpty.string_of_uint d) = false.
Proof.
  intros Hc. induction d; cbn [NilEmpty.string_of_uint has_char]; rewrite ?IHd, ?orb_false_r; try done;
    match goal with |- context [Ascii.eqb ?a c] => destruct (Ascii.eqb_spec a c) as [<-|] end; done.
Qed.

Lemma has_char_nz_uint c d : is_digit c = false -> has_char c (NilZero.string_of_uint d) = false.
Proof.
  intros Hc. destruct d; unfold NilZero.string_of_uint; [|by apply has_char_uint..].
  change "0" with (NilEmpty.string_of_uint (Decimal.D0 Decimal.Nil)). by apply has_char_uint.
Qed.

Lemma has_char_i64 c z : is_digit c = false -> c <> "-"%char -> has_char c (i64_to_string z) = false.
Proof.
  intros Hc Hm. unfold i64_to_string, NilZero.string_of_int.
  destruct (Z.to_int z); [by apply has_char_nz_uint|]. cbn [has_char].
  destruct (Ascii.eqb_spec "-" c); [congruence|]. by apply has_char_nz_uint.
Qed.
Lemma split_on_plain d s : has_char d s = false -> split_on d s = [s].
Proof.
  induction s as [|a s IH]; [done|]. cbn. intros H.
  apply orb_false_iff in H as [Ha H]. by rewrite Ha, IH.
Qed.

Lemma split_on_field d u s : has_char d u = false -> split_on d (u ++ String d s) = u :: split_on d s.
Proof.
  induction u as [|a u IH]; intros Hu.
  - rewrite append_nil_l. cbn. by rewrite Ascii.eqb_refl.
  - rewrite append_cons. cbn in Hu |- *. apply orb_false_iff in Hu as [Ha Hu]. by rewrite Ha, IH.
Qed.

End Text.
