(* ===== verification/Trigger.v ===== *)
(** * Trigger: the kill pipeline run on a phrase match (main.rs 144-154)

    When the trigger phrase is heard, the inference thread calls
    [shutil::pipe] on five command vectors, the shell pipeline
    [ps aux | grep -ie " vi" | tr -s ' ' | cut -d ' ' -f 2 | xargs kill -9]
    (the comment of line 145 spells it out).  The command vectors are the
    code ([kill_pipeline_cmds]); the programs are not part of [src/] and
    are modelled from their documented (POSIX / GNU) behaviour, on a
    snapshot of the process table taken when [ps] runs:

    - [ps aux] prints a header and one line per process: user, the pid
      right-aligned in a space-padded column, the statistics columns, and
      the command line ([ps_line]);
    - [grep -i -e PAT] keeps the lines that contain [PAT], ignoring case;
    - [tr -s ' '] squeezes every run of spaces to a single space;
    - [cut -d ' ' -f N] prints the [N]th space-separated field of each line,
      and a line without a space unchanged;
    - [xargs kill -9] splits its input into words and runs [kill -9] once on
      all of them (also when there are none); [kill] signals each word that
      is the pid of a live process and fails if any word is not, or if it
      got no argument.

    Streams are lists of lines.  [run_pipe] interprets a list of command
    vectors: the first must be [ps aux], the last [xargs kill -9], and the
    ones in between are the filters above.  The result is the list of pids
    killed and whether [xargs] exited successfully.  [kill]'s permission
    check is not modelled: every live pid named is taken as signalled. *)

From Stdlib Require Import Ascii String DecimalString DecimalNat Lia.
From stdpp Require Import base list.
From S2P Require Import Prelude Text.

Import Text.
Local Open Scope string_scope.

Module Trigger.

(** A process as [ps aux] reports it. *)
Record proc := mkProc {
  user : string;       (** USER column *)
  pad : nat;           (** extra spaces aligning the PID column *)
  pid : nat;           (** PID column *)
  stats : string;      (** %CPU %MEM VSZ RSS TTY STAT START TIME *)
  command : string;    (** COMMAND: the command line, arguments joined by spaces *)
}.

Fixpoint spaces (n : nat) : string :=
  match n with 0 => "" | S n' => String " " (spaces n') end.

(** Decimal printing and parsing of a pid. *)
Definition pid_string (n : nat) : string := NilZero.string_of_uint (Nat.to_uint n).
Definition parse_pid (w : string) : option nat :=
  option_map Nat.of_uint (NilZero.uint_of_string w).

Definition ps_header : string :=
  "USER         PID %CPU %MEM    VSZ   RSS TTY      STAT START   TIME COMMAND".

Definition ps_line (p : proc) : string :=
  user p ++ spaces (S (pad p)) ++ pid_string (pid p) ++ " " ++ stats p ++ " " ++ command p.

(** [ps aux] *)
Definition ps_aux (table : list proc) : list string := ps_header :: map ps_line table.

(** [grep -i -e pat] (a pattern without special characters). *)
Definition grep_i (pat : string) (lines : list string) : list string :=
  List.filter (fun l => contains (to_lowercase l) (to_lowercase pat)) lines.

(** [tr -s c]: [prev] tells whether the previous output byte was [c]. *)
Fixpoint squeeze_from (c : ascii) (prev : bool) (s : string) : string :=
  match s with
  | EmptyString => EmptyString
  | String a s' =>
      if Ascii.eqb a c then
        if prev then squeeze_from c true s' else String a (squeeze_from c true s')
      else String a (squeeze_from c false s')
  end.
Definition squeeze (c : ascii) (s : string) : string := squeeze_from c false s.

(** [cut -d d -f n] on one line. *)
Definition cut_field (d : ascii) (n : nat) (line : string) : string :=
  match split_on d line with
  | [whole] => whole
  | fields => default EmptyString (fields !! (n - 1))
  end.

(** The words [xargs] reads from a line. *)
Definition words (line : string) : list string :=
  List.filter (fun w => negb (String.eqb w EmptyString)) (split_on " " line).

(** [kill -9 w]: the pid signalled, if [w] is the pid of a live process. *)
Definition kill_one (live : list nat) (w : string) : option nat :=
  match parse_pid w with
  | Some n => if bool_decide (n ∈ live) then Some n else None
  | None => None
  end.

(** [xargs kill -9]: the pids killed, and whether [kill] succeeded. *)
Definition xargs_kill (table : list proc) (input : list string) : list nat * bool :=
  let ws := concat (map words input) in
  let live := map pid table in
  (omap (kill_one live) ws,
   negb (bool_decide (ws = [])) &&
   forallb (fun w => bool_decide (is_Some (kill_one live w))) ws).

(** The filters between [ps] and [xargs], by their command vector. *)
Definition filter_stage (cmd : list string) : option (list string -> list string) :=
  match cmd with
  | [c; a; pat] =>
      if String.eqb c "grep" && String.eqb a "-ie" then Some (grep_i pat)
      else match pat with
           | String ch EmptyString =>
               if String.eqb c "tr" && String.eqb a "-s" then Some (map (squeeze ch)) else None
           | _ => None
           end
  | [c; a; String d EmptyString; f; n] =>
      if String.eqb c "cut" && String.eqb a "-d" && String.eqb f "-f" then
        option_map (fun k => map (cut_field d k)) (parse_pid n)
      else None
  | _ => None
  end.

Definition is_cmd (cmd expected : list string) : bool := bool_decide (cmd = expected).

(** The stages after [ps], ending in [xargs kill -9]. *)
Fixpoint run_stages (table : list proc) (cmds : list (list string)) (input : list string)
    : option (list nat * bool) :=
  match cmds with
  | [] => None
  | [last] => if is_cmd last ["xargs"; "kill"; "-9"] then Some (xargs_kill table input) else None
  | cmd :: rest =>
      match filter_stage cmd with
      | Some f => run_stages table rest (f input)
      | None => None
      end
  end.

(** [shutil::pipe] on a pipeline that starts with [ps aux]. *)
Definition run_pipe (table : list proc) (cmds : list (list string)) : option (list nat * bool) :=
  match cmds with
  | first :: rest => if is_cmd first ["ps"; "aux"] then run_stages table rest (ps_aux table) else None
  | [] => None
  end.

(** Lines 146-152: the command vectors passed to [pipe]. *)
Definition kill_pipeline_cmds : list (list string) :=
  [["ps"; "aux"];
   ["grep"; "-ie"; " vi"];
   ["tr"; "-s"; " "];
   ["cut"; "-d"; " "; "-f"; "2"];
   ["xargs"; "kill"; "-9"]].

(** Line 146: [pipe(vec![...])] on the process table of the moment. *)
Definition kill_pipeline (table : list proc) : option (list nat * bool) :=
  run_pipe table kill_pipeline_cmds.

(** The processes the pipeline selects: their [ps] line contains [" vi"],
    ignoring case. *)
Definition selected (p : proc) : bool := contains (to_lowercase (ps_line p)) " vi".

(** A process whose user name [ps] prints as one field. *)
Definition proc_wf (p : proc) : Prop := user p <> "" /\ has_char " " (user p) = false.

End Trigger.

Module TriggerFacts.
Import Trigger.


(** [tr -s c] copies a word without [c] and forgets the previous byte. *)
Lemma squeeze_plain c u s : has_char c u = false ->
  squeeze_from c false (u ++ s) = u ++ squeeze_from c false s.
Proof.
  induction u as [|a u IH]; [done|]. rewrite !append_cons. cbn. intros Hu.
  apply orb_false_iff in Hu as [Ha Hu]. by rewrite Ha, IH.
Qed.

Lemma squeeze_plain_after c u s : u <> "" -> has_char c u = false ->
  squeeze_from c true (u ++ s) = u ++ squeeze_from c false s.
Proof.
  destruct u as [|a u]; [done|]. intros _ Hu. rewrite !append_cons. cbn in Hu |- *.
  apply orb_false_iff in Hu as [Ha Hu]. by rewrite Ha, squeeze_plain.
Qed.

Lemma squeeze_spaces n s : squeeze_from " " true (spaces n ++ s) = squeeze_from " " true s.
Proof. induction n as [|n IH]; [done|]. cbn [spaces]. rewrite append_cons. exact IH. Qed.

Lemma squeeze_sep s : squeeze_from " " false (String " " s) = String " " (squeeze_from " " true s).
Proof. reflexivity. Qed.

(** Decimal pids: one nonempty word, parsed back to the pid. *)
Lemma pid_string_plain n : has_char " " (pid_string n) = false.
Proof. by apply has_char_nz_uint. Qed.

Lemma pid_string_nonempty n : pid_string n <> "".
Proof. unfold pid_string, NilZero.string_of_uint. by destruct (Nat.to_uint n). Qed.

Lemma to_uint_nonnil n : Nat.to_uint n <> Decimal.Nil.
Proof.
  intros H. pose proof (DecimalNat.Unsigned.of_to n) as E. rewrite H in E. cbn in E. subst n.
  discriminate H.
Qed.

Lemma parse_pid_string n : parse_pid (pid_string n) = Some n.
Proof.
  unfold parse_pid, pid_string. rewrite NilZero.usu by apply to_uint_nonnil. cbn.
  by rewrite DecimalNat.Unsigned.of_to.
Qed.

Lemma words_pid n : words (pid_string n) = [pid_string n].
Proof.
  unfold words. rewrite split_on_plain by apply pid_string_plain. cbn.
  destruct (String.eqb_spec (pid_string n) "") as [E|_]; [by apply pid_string_nonempty in E|done].
Qed.

(** [tr -s ' ' | cut -d ' ' -f 2] on a line of [ps aux] gives its pid. *)
Lemma cut_ps_line p : proc_wf p -> cut_field " " 2 (squeeze " " (ps_line p)) = pid_string (pid p).
Proof.
  intros [Hne Hu]. unfold squeeze, ps_line. rewrite squeeze_plain by done.
  cbn [spaces]. rewrite append_cons, squeeze_sep.
  rewrite squeeze_spaces, squeeze_plain_after by auto using pid_string_nonempty, pid_string_plain.
  rewrite append_cons, append_nil_l, squeeze_sep.
  unfold cut_field. rewrite split_on_field, split_on_field by auto using pid_string_plain. done.
Qed.

Lemma kill_one_pid table p : p ∈ table -> kill_one (map pid table) (pid_string (pid p)) = Some (pid p).
Proof.
  intros Hp. unfold kill_one. rewrite parse_pid_string, bool_decide_eq_true_2; [done|].
  apply list_elem_of_In, in_map, list_elem_of_In, Hp.
Qed.

Lemma xargs_kill_pids table l : (forall p, p ∈ l -> p ∈ table) ->
  xargs_kill table (map (fun p => pid_string (pid p)) l) = (map pid l, bool_decide (l <> [])).
Proof.
  intros Hsub. unfold xargs_kill.
  assert (Hl : concat (map words (map (fun p => pid_string (pid p)) l)) = map (fun p => pid_string (pid p)) l /\
    omap (kill_one (map pid table)) (map (fun p => pid_string (pid p)) l) = map pid l /\
    forallb (fun w => bool_decide (is_Some (kill_one (map pid table) w))) (map (fun p => pid_string (pid p)) l) = true).
  { induction l as [|p l IH]; [done|].
    destruct IH as (IH1 & IH2 & IH3); [intros q Hq; apply Hsub; by right|].
    assert (Hk : kill_one (map pid table) (pid_string (pid p)) = Some (pid p))
      by (apply kill_one_pid, Hsub; left).
    cbn [map concat forallb]. rewrite (omap_cons_some _ _ _ _ Hk), words_pid, Hk, IH1, IH2, IH3.
    split_and!; [done|done|]. by rewrite bool_decide_eq_true_2 by eauto. }
  destruct Hl as (-> & -> & ->). f_equal. destruct l; [done|]. rewrite (bool_decide_eq_false_2 (_ = [])), bool_decide_eq_true_2; done.
Qed.

(** The shell sees the code's command vectors as these stages. *)
Lemma kill_pipeline_unfold table : kill_pipeline table =
  Some (xargs_kill table (map (cut_field " " 2) (map (squeeze " ") (grep_i " vi" (ps_aux table))))).
Proof. reflexivity. Qed.

Lemma grep_selected table : grep_i " vi" (ps_aux table) = map ps_line (List.filter selected table).
Proof.
  unfold grep_i, ps_aux. change (to_lowercase " vi") with " vi". cbn [List.filter].
  assert (Hh : contains (to_lowercase ps_header) " vi" = false) by reflexivity.
  rewrite Hh. induction table as [|p table IH]; [done|]. cbn [List.filter map].
  fold (selected p). destruct (selected p); by rewrite IH.
Qed.

Lemma contains_app_r a b p : contains b p = true -> contains (a ++ b) p = true.
Proof.
  rewrite !contains_spec. intros (x & y & ->). exists (a ++ x), y. by rewrite append_assoc.
Qed.

(** A process whose command line has [" vi"] in it is selected. *)
Lemma selected_command p : contains (to_lowercase (command p)) " vi" = true -> selected p = true.
Proof.
  intros Hc. unfold selected, ps_line.
  assert (E : forall a b c d e, a ++ b ++ c ++ " " ++ d ++ " " ++ e = (a ++ b ++ c ++ " " ++ d ++ " ") ++ e)
    by (intros; rewrite !append_assoc; done).
  rewrite E, to_lowercase_app. by apply contains_app_r.
Qed.
End TriggerFacts.

Module TriggerProps.
Import Trigger TriggerFacts.

(** C28: on any snapshot of well-formed processes, the code's
    pipeline [ps aux | grep -ie " vi" | tr -s ' ' | cut -d ' ' -f 2 |
    xargs kill -9] is equivalent to the direct selection: it kills exactly
    the processes whose [ps] line contains [" vi"] in any case, in table
    order, and [xargs] succeeds iff there is at least one. *)
Theorem kill_pipeline_kills_selected table : Forall proc_wf table ->
  kill_pipeline table =
    Some (map pid (List.filter selected table), bool_decide (List.filter selected table <> [])).
Proof.
  intros Hwf. rewrite kill_pipeline_unfold, grep_selected, !map_map.
  assert (Hsub : forall p, p ∈ List.filter selected table -> p ∈ table)
    by (intros p; rewrite !list_elem_of_In, filter_In; tauto).
  rewrite (map_ext_in _ (fun p => pid_string (pid p))); [by rewrite xargs_kill_pids|].
  intros p Hp. apply cut_ps_line. rewrite Forall_forall in Hwf.
  apply Hwf, Hsub, list_elem_of_In, Hp.
Qed.

Example kill_pipeline_kills_selected_witness :
  Forall proc_wf [mkProc "alice" 3 4242 "0.0 0.1 S+" "vi notes.txt"; mkProc "root" 0 1 "0.0 0.0 Ss" "/sbin/init"] /\
  kill_pipeline [mkProc "alice" 3 4242 "0.0 0.1 S+" "vi notes.txt"; mkProc "root" 0 1 "0.0 0.0 Ss" "/sbin/init"] =
    Some (map pid (List.filter selected [mkProc "alice" 3 4242 "0.0 0.1 S+" "vi notes.txt"; mkProc "root" 0 1 "0.0 0.0 Ss" "/sbin/init"]),
          bool_decide (List.filter selected [mkProc "alice" 3 4242 "0.0 0.1 S+" "vi notes.txt"; mkProc "root" 0 1 "0.0 0.0 Ss" "/sbin/init"] <> [])).
Proof.
  assert (Hwf : Forall proc_wf [mkProc "alice" 3 4242 "0.0 0.1 S+" "vi notes.txt"; mkProc "root" 0 1 "0.0 0.0 Ss" "/sbin/init"])
    by (repeat constructor; discriminate).
  split; [exact Hwf|]. apply kill_pipeline_kills_selected, Hwf.
Defined.

(** C29: round trip of a pid through the text stages: for a
    well-formed live process, the stages of the code's command vectors
    after [grep] ([tr -s ' '], [cut -d ' ' -f 2], [xargs kill -9]) recover
    from the line [ps] printed exactly the pid it printed, and kill it. *)
Theorem kill_pipeline_pid_roundtrip table p : proc_wf p -> p ∈ table ->
  run_stages table (drop 2 kill_pipeline_cmds) [ps_line p] = Some ([pid p], true).
Proof.
  intros Hwf Hp. change (run_stages table (drop 2 kill_pipeline_cmds) [ps_line p])
    with (Some (xargs_kill table [cut_field " " 2 (squeeze " " (ps_line p))])).
  rewrite cut_ps_line by done.
  change [pid_string (pid p)] with (map (fun p => pid_string (pid p)) [p]).
  rewrite (xargs_kill_pids table [p]); [done|]. intros q Hq. apply list_elem_of_singleton in Hq. by subst.
Qed.

Example kill_pipeline_pid_roundtrip_witness :
  proc_wf (mkProc "alice" 7 31337 "0.0 0.1 S+" "vim x") /\
  mkProc "alice" 7 31337 "0.0 0.1 S+" "vim x" ∈ [mkProc "alice" 7 31337 "0.0 0.1 S+" "vim x"] /\
  run_stages [mkProc "alice" 7 31337 "0.0 0.1 S+" "vim x"] (drop 2 kill_pipeline_cmds)
    [ps_line (mkProc "alice" 7 31337 "0.0 0.1 S+" "vim x")] = Some ([pid (mkProc "alice" 7 31337 "0.0 0.1 S+" "vim x")], true).
Proof.
  assert (Hwf : proc_wf (mkProc "alice" 7 31337 "0.0 0.1 S+" "vim x")) by (split; [discriminate|reflexivity]).
  assert (Hin : mkProc "alice" 7 31337 "0.0 0.1 S+" "vim x" ∈ [mkProc "alice" 7 31337 "0.0 0.1 S+" "vim x"])
    by apply list_elem_of_here.
  split_and!; [exact Hwf|exact Hin|]. apply kill_pipeline_pid_roundtrip; [exact Hwf|exact Hin].
Defined.

(** C30: the [grep] stage matches its own line: whenever [ps]
    lists the [grep -ie " vi"] process, the pipeline sends [kill -9] to
    [grep]'s own pid. *)
Theorem grep_kills_itself table p : Forall proc_wf table -> p ∈ table ->
  command p = "grep -ie  vi" ->
  exists killed ok, kill_pipeline table = Some (killed, ok) /\ pid p ∈ killed.
Proof.
  intros Hwf Hp Hc. rewrite kill_pipeline_kills_selected by done. do 2 eexists. split; [reflexivity|].
  apply list_elem_of_In, in_map, filter_In. split; [by apply list_elem_of_In|].
  apply selected_command. by rewrite Hc.
Qed.

Example grep_kills_itself_witness :
  exists killed ok,
    kill_pipeline [mkProc "alice" 1 5000 "0.0 0.0 S" "grep -ie  vi"] = Some (killed, ok) /\
    pid (mkProc "alice" 1 5000 "0.0 0.0 S" "grep -ie  vi") ∈ killed.
Proof.
  apply grep_kills_itself; [repeat constructor; discriminate|apply list_elem_of_here|reflexivity].
Defined.

End TriggerProps.
