(* ===== verification/Dispatcher.v ===== *)
(** * Dispatcher: the inference thread (main.rs 77-157)

    The thread opens the optional log file in append mode (lines 79-88),
    loads the Whisper model (lines 90-92), then for every resampled window
    received from queue B (line 94) builds a fresh model state, runs the
    model, walks the segments [0..num_segments] appending each segment's
    text to [transcription_chunk] and, when logging, one line
    [[<now> | <t0> - <t1>]: <text>] to the file; finally it runs the kill
    pipeline when the lower-cased chunk contains the lower-cased code
    phrase, printing an error instead of stopping when the pipeline fails.

    - [Whisper] is the interface of whisper-rs used by the thread (library
      code: every call may fail, and every failure is an [expect] panic).
    - [Host] gives the effects of the operating system: the wall clock of
      [chrono::offset::Utc::now()], whether opening and [writeln!] on the
      log file succeed, and the result of [shutil::pipe]; each is indexed
      by a counter of host events, so the theorems hold for every
      behaviour of the host. *)

From Stdlib Require Import Ascii String ZArith Lia.
From stdpp Require Import base list.
From S2P Require Import Prelude Text.

Import Text.

(** ** Interfaces *)

(** [whisper_rs::FullParams], through the settings the thread makes:
    the greedy sampling strategy with its [best_of], the language and the
    five output switches. *)
Record FullParams := mkParams {
  greedy_best_of : nat;          (** [SamplingStrategy::Greedy { best_of }] *)
  language : option string;      (** [set_language] *)
  debug_mode : bool;             (** [set_debug_mode] *)
  print_special : bool;          (** [set_print_special] *)
  print_progress : bool;         (** [set_print_progress] *)
  print_realtime : bool;         (** [set_print_realtime] *)
  print_timestamps : bool;       (** [set_print_timestamps] *)
}.

Class Whisper (Ctx St S : Type) := {
  (** [WhisperContext::new_with_params(path, ..)] *)
  w_new_with_params : string -> option Ctx;
  (** [whisper_ctx.create_state()] *)
  w_create_state : Ctx -> option St;
  (** [state.full(params, &audio[..])]: the state after the run *)
  w_full : St -> FullParams -> list S -> option St;
  w_full_n_segments : St -> option Z;              (** a [c_int] *)
  w_full_get_segment_text : St -> Z -> option string;
  w_full_get_segment_t0 : St -> Z -> option Z;     (** an [i64] *)
  w_full_get_segment_t1 : St -> Z -> option Z;
}.

Record Host := mkHost {
  host_open_ok : string -> bool;      (** [OpenOptions..open(path)] succeeds *)
  host_now : nat -> string;           (** [format!("{:?}", Utc::now())] at event [n] *)
  host_write_ok : nat -> bool;        (** [writeln!(file, ..)] succeeds at event [n] *)
  host_pipe : nat -> option string;   (** [pipe(..)] at event [n]: [Some e] is [Err(e)] *)
}.

Module Dispatcher.

Record InfThread := mkInf {
  log : option (list string);  (** lines appended to [out_file], if one was given *)
  stderr : list string;        (** lines printed by [eprintln!] *)
  pipes_run : nat;             (** invocations of the kill pipeline *)
  clock : nat;                 (** host events so far *)
}.

Definition newline : string := String "010"%char EmptyString.

(** [writeln!(file, "[{:?} | {} - {}]: {}", now, t0, t1, segment)] *)
Definition log_line (now : string) (t0 t1 : Z) (segment : string) : string :=
  ("[" ++ now ++ " | " ++ i64_to_string t0 ++ " - " ++ i64_to_string t1 ++ "]: "
   ++ segment ++ newline)%string.

(** The indices of [for i in 0..num_segments]: empty when negative. *)
Definition segment_range (n : Z) : list Z := map Z.of_nat (seq 0 (Z.to_nat n)).

Section Process.
Context {Ctx St Smp : Type} `{Whisper Ctx St Smp}.
Variables (host : Host) (code_phrase : string).

(** Lines 79-92: the thread's prologue. *)
Definition inference_start (out_file : option string) (model_path : string)
    : outcome (InfThread * Ctx) :=
  (maybe_log <-! match out_file with
                 | None => Done None
                 | Some path =>
                     if host_open_ok host path then Done (Some [])
                     else Panicked "called `Result::unwrap()` on an `Err` value"
                 end ;;
   ctx <-! expect (w_new_with_params model_path) "failed to load model" ;;
   Done (mkInf maybe_log [] 0 0, ctx))%vk.

(** Lines 114-137: one segment. *)
Definition segment_step (state : St) (acc : InfThread * string) (i : Z)
    : outcome (InfThread * string) :=
  let '(inf, chunk) := acc in
  (segment <-! expect (w_full_get_segment_text state i) "failed to get segment" ;;
   inf' <-! match log inf with
            | None => Done inf
            | Some lines =>
                t0 <-! expect (w_full_get_segment_t0 state i)
                         "failed to get segment start timestamp" ;;
                t1 <-! expect (w_full_get_segment_t1 state i)
                         "failed to get segment end timestamp" ;;
                if host_write_ok host (clock inf) then
                  Done (mkInf (Some (lines ++ [log_line (host_now host (clock inf)) t0 t1 segment]))
                              (stderr inf) (pipes_run inf) (S (clock inf)))
                else Panicked "called `Result::unwrap()` on an `Err` value"
            end ;;
   Done (inf', (chunk ++ segment)%string))%vk.

Fixpoint segments_loop (state : St) (idxs : list Z) (acc : InfThread * string)
    : outcome (InfThread * string) :=
  match idxs with
  | [] => Done acc
  | i :: idxs' => (acc' <-! segment_step state acc i ;; segments_loop state idxs' acc')%vk
  end.

(** Lines 140-155: the trigger. *)
Definition check_trigger (inf : InfThread) (transcription_chunk : string) : InfThread :=
  if contains (to_lowercase transcription_chunk) (to_lowercase code_phrase) then
    match host_pipe host (clock inf) with
    | None => mkInf (log inf) (stderr inf) (S (pipes_run inf)) (S (clock inf))
    | Some e => mkInf (log inf) (stderr inf ++ ["Shell Command error: " ++ e]%string)
                      (S (pipes_run inf)) (S (clock inf))
    end
  else inf.

(** Lines 94-100: the parameters built for every window. *)
Definition window_params : FullParams :=
  mkParams 1 (Some "english"%string) false false false false false.

(** Lines 95-155: the body of [while let Ok(audio) = inference_rx.recv()]. *)
Definition process_window (ctx : Ctx) (audio : list Smp) (inf : InfThread) : outcome InfThread :=
  (state <-! expect (w_create_state ctx) "failed to create state" ;;
   state <-! expect (w_full state window_params audio) "failed to run model" ;;
   num_segments <-! expect (w_full_n_segments state) "failed to get number of segments" ;;
   acc <-! segments_loop state (segment_range num_segments) (inf, ""%string) ;;
   Done (check_trigger acc.1 acc.2))%vk.

(** The windows received in order, on one thread. *)
Fixpoint process_windows (ctx : Ctx) (ws : list (list Smp)) (inf : InfThread) : outcome InfThread :=
  match ws with
  | [] => Done inf
  | w :: ws' => (inf' <-! process_window ctx w inf ;; process_windows ctx ws' inf')%vk
  end.
End Process.

End Dispatcher.

Module DispatcherSpec.
Import Dispatcher.

Section Spec.
Context {Ctx St Smp : Type} `{Whisper Ctx St Smp}.
Variables (host : Host) (code_phrase : string).

(** The model, on [audio], produces the segments [texts]. *)
Definition model_yields (ctx : Ctx) (audio : list Smp) (state : St) (texts : list string) : Prop :=
exists s0, w_create_state ctx = Some s0 /\ w_full s0 window_params audio = Some state /\
  w_full_n_segments state = Some (Z.of_nat (length texts)) /\
  forall j t, texts !! j = Some t -> w_full_get_segment_text state (Z.of_nat j) = Some t.

Definition t0_of (state : St) (j : nat) : Z := default 0%Z (w_full_get_segment_t0 state (Z.of_nat j)).
Definition t1_of (state : St) (j : nat) : Z := default 0%Z (w_full_get_segment_t1 state (Z.of_nat j)).

(** The log lines of spec 6 for segments [k..], the first written at host
  event [clk]. *)
Fixpoint expected_log (state : St) (k clk : nat) (texts : list string) : list string :=
match texts with
| [] => []
| t :: ts => log_line (host_now host clk) (t0_of state k) (t1_of state k) t
             :: expected_log state (S k) (S clk) ts
end.

Lemma segment_range_of_nat n : segment_range (Z.of_nat n) = map Z.of_nat (seq 0 n).
Proof. unfold segment_range. by rewrite Nat2Z.id. Qed.

(** Whatever the log does, a completed segment loop appends the texts, in
  order, to the chunk and leaves the pipeline count and stderr alone. *)
Lemma segments_loop_done state k texts : forall inf chunk inf' chunk',
(forall j t, texts !! j = Some t -> w_full_get_segment_text state (Z.of_nat (k + j)) = Some t) ->
segments_loop host state (map Z.of_nat (seq k (length texts))) (inf, chunk) = Done (inf', chunk') ->
chunk' = (chunk ++ Text.str_concat texts)%string /\ pipes_run inf' = pipes_run inf /\
stderr inf' = stderr inf /\ (log inf' = None <-> log inf = None).
Proof.
revert k. induction texts as [|t ts IH]; intros k inf chunk inf' chunk' Htxt Hloop.
- invc Hloop. by rewrite Text.append_empty_r.
- cbn [length seq map segments_loop] in Hloop.
  apply obind_done_inv in Hloop as ([inf1 chunk1] & Hstep & Hrest).
  unfold segment_step in Hstep.
  pose proof (Htxt 0 t eq_refl) as Ht. rewrite Nat.add_0_r in Ht.
  rewrite Ht in Hstep. cbn [expect obind] in Hstep.
  assert (Hinf1 : pipes_run inf1 = pipes_run inf /\ stderr inf1 = stderr inf /\
                  (log inf1 = None <-> log inf = None) /\ chunk1 = (chunk ++ t)%string).
  { destruct (log inf) as [lines|] eqn:Hlog; cbn in Hstep; [|by invc Hstep].
    destruct (w_full_get_segment_t0 _ _), (w_full_get_segment_t1 _ _); try discriminate.
    destruct (host_write_ok _ _); invc Hstep; cbn; split_and!; done. }
  destruct Hinf1 as (Hp1 & He1 & Hl1 & ->).
  destruct (IH (S k) inf1 (chunk ++ t)%string inf' chunk') as (-> & Hp & He & Hl); [|done|].
  + intros j t' Hj. rewrite <- (Htxt (S j) t') by done. f_equal. lia.
  + split_and!; [|congruence|congruence|by rewrite Hl].
    cbn [Text.str_concat fold_right]. by rewrite Text.append_assoc.
Qed.

Lemma segments_loop_nolog state k texts : forall inf chunk,
log inf = None ->
(forall j t, texts !! j = Some t -> w_full_get_segment_text state (Z.of_nat (k + j)) = Some t) ->
segments_loop host state (map Z.of_nat (seq k (length texts))) (inf, chunk) =
  Done (inf, (chunk ++ Text.str_concat texts)%string).
Proof.
revert k. induction texts as [|t ts IH]; intros k inf chunk Hlog Htxt.
- cbn. by rewrite Text.append_empty_r.
- pose proof (Htxt 0 t eq_refl) as Ht. rewrite Nat.add_0_r in Ht.
  cbn [length seq map segments_loop]. unfold segment_step.
  rewrite Ht, Hlog. cbn [expect obind].
  rewrite (IH (S k)); [|done|].
  + cbn [Text.str_concat fold_right]. by rewrite Text.append_assoc.
  + intros j t' Hj. replace (S k + j) with (k + S j) by lia. by apply (Htxt (S j)).
Qed.

(** With logging on, timestamps available and every write succeeding,
  the loop appends exactly one line per segment. *)
Lemma segments_loop_log state k texts : forall inf lines chunk,
log inf = Some lines ->
(forall j t, texts !! j = Some t ->
   w_full_get_segment_text state (Z.of_nat (k + j)) = Some t /\
   is_Some (w_full_get_segment_t0 state (Z.of_nat (k + j))) /\
   is_Some (w_full_get_segment_t1 state (Z.of_nat (k + j)))) ->
(forall j, j < length texts -> host_write_ok host (clock inf + j) = true) ->
segments_loop host state (map Z.of_nat (seq k (length texts))) (inf, chunk) =
  Done (mkInf (Some (lines ++ expected_log state k (clock inf) texts)) (stderr inf)
              (pipes_run inf) (clock inf + length texts),
        (chunk ++ Text.str_concat texts)%string).
Proof.
revert k. induction texts as [|t ts IH]; intros k inf lines chunk Hlog Htxt Hw.
- cbn. rewrite Text.append_empty_r, app_nil_r, Nat.add_0_r, <- Hlog. by destruct inf.
- destruct (Htxt 0 t eq_refl) as (Ht & [a Ha] & [b Hb]). rewrite Nat.add_0_r in Ht, Ha, Hb.
  pose proof (Hw 0 ltac:(simpl; lia)) as Hw0. rewrite Nat.add_0_r in Hw0.
  cbn [length seq map segments_loop]. unfold segment_step.
  rewrite Ht, Hlog, Ha, Hb, Hw0. cbn [expect obind].
  rewrite (IH (S k) _ (lines ++ [log_line (host_now host (clock inf)) a b t]));
    cbn [log clock stderr pipes_run].
  + rewrite <- app_assoc, Text.append_assoc. cbn [expected_log app].
    unfold t0_of, t1_of. rewrite Ha, Hb. cbn [default].
    do 3 f_equal. lia.
  + done.
  + intros j t' Hj. replace (S k + j) with (k + S j) by lia. by apply (Htxt (S j)).
  + intros j Hj. rewrite <- (Hw (S j)) by (simpl; lia). f_equal. lia.
Qed.
End Spec.
End DispatcherSpec.

(** A scripted model: a test double for the examples, which returns a fixed
    list of segments [(text, t0, t1)] whatever the audio. *)
Module Scripted.
Definition script := list (string * Z * Z).
Definition seg_text (s : string * Z * Z) : string := s.1.1.

#[export] Instance Scripted_Whisper {Smp} : Whisper script script Smp := {
  w_new_with_params _ := Some [];
  w_create_state c := Some c;
  w_full st _ _ := Some st;
  w_full_n_segments st := Some (Z.of_nat (length st));
  w_full_get_segment_text st i := seg_text <$> st !! Z.to_nat i;
  w_full_get_segment_t0 st i := (fun '(_, a, _) => a) <$> st !! Z.to_nat i;
  w_full_get_segment_t1 st i := (fun '(_, _, b) => b) <$> st !! Z.to_nat i;
}.

Definition quiet_host : Host := mkHost (fun _ => true) (fun _ => "2024-01-01T00:00:00Z"%string)
                                       (fun _ => true) (fun _ => None).
End Scripted.

#[export] Existing Instance Scripted.Scripted_Whisper.

Module DispatcherProps.
Import Dispatcher DispatcherSpec.

Section Props.
Context {Ctx St Smp : Type} `{Whisper Ctx St Smp}.

Lemma check_trigger_pipes host phrase inf c :
pipes_run (check_trigger host phrase inf c) =
  if Text.contains (Text.to_lowercase c) (Text.to_lowercase phrase)
  then S (pipes_run inf) else pipes_run inf.
Proof.
unfold check_trigger. destruct (Text.contains _ _); [|done].
by destruct (host_pipe host (clock inf)).
Qed.

Lemma process_window_unfold host phrase ctx audio state texts inf :
model_yields ctx audio state texts ->
process_window host phrase ctx audio inf =
  (acc <-! segments_loop host state (map Z.of_nat (seq 0 (length texts))) (inf, ""%string) ;;
   Done (check_trigger host phrase acc.1 acc.2))%vk.
Proof.
intros (s0 & Hc & Hf & Hn & _). unfold process_window.
rewrite Hc; cbn [expect obind]. rewrite Hf; cbn [expect obind].
rewrite Hn; cbn [expect obind]. by rewrite segment_range_of_nat.
Qed.

(** C4: when the model transcribes a window into the segments
  [texts] and the window is processed, the kill pipeline is run once
  exactly when the lower-cased code phrase occurs in the lower-cased
  concatenation of the segments (spec 4.4 step 4: case-insensitive
  substring test), and never more than once. *)
Theorem process_window_fires_iff host phrase ctx audio state texts inf inf' :
model_yields ctx audio state texts ->
process_window host phrase ctx audio inf = Done inf' ->
(pipes_run inf' = S (pipes_run inf) <->
   exists a b, Text.to_lowercase (Text.str_concat texts) = (a ++ Text.to_lowercase phrase ++ b)%string) /\
(pipes_run inf' = pipes_run inf \/ pipes_run inf' = S (pipes_run inf)).
Proof.
intros Hm Hrun. pose proof Hm as (_ & _ & _ & _ & Htxt).
rewrite (process_window_unfold _ _ _ _ _ _ _ Hm) in Hrun.
apply obind_done_inv in Hrun as ([inf1 c1] & Hloop & Hrun). invc Hrun.
destruct (segments_loop_done host state 0 texts inf ""%string inf1 c1) as (-> & Hp & _);
  [intros; by apply Htxt|done|].
cbn [fst snd]. rewrite check_trigger_pipes, Text.append_nil_l, Hp, <- Text.contains_spec.
destruct (Text.contains _ _).
- split; [done|by right].
- split; [split; [lia|discriminate]|by left].
Qed.

Lemma length_expected_log host state k clk texts :
length (expected_log host state k clk texts) = length texts.
Proof. revert k clk. induction texts; intros; simpl; by rewrite ?IHtexts. Qed.

(** C16: without a log file, a window the model transcribes is
  always processed to completion: the result is the trigger check on
  the concatenated segments, in order. *)
Theorem process_window_nolog host phrase ctx audio state texts inf :
model_yields ctx audio state texts -> log inf = None ->
process_window host phrase ctx audio inf =
  Done (check_trigger host phrase inf (Text.str_concat texts)).
Proof.
intros Hm Hlog. pose proof Hm as (_ & _ & _ & _ & Htxt).
rewrite (process_window_unfold _ _ _ _ _ _ _ Hm).
rewrite (segments_loop_nolog host state 0 texts); [done|done|].
intros j t Hj. by apply Htxt.
Qed.

(** C15: with a log file, timestamps available and every write
  succeeding, processing a window appends exactly one line per segment,
  [[<now> | <t0> - <t1>]: <text>] in segment order (spec 6 and the
  end-to-end property of spec 8). *)
Theorem process_window_log_lines host phrase ctx audio state texts inf lines :
model_yields ctx audio state texts -> log inf = Some lines ->
(forall j, j < length texts ->
   is_Some (w_full_get_segment_t0 state (Z.of_nat j)) /\
   is_Some (w_full_get_segment_t1 state (Z.of_nat j)) /\
   host_write_ok host (clock inf + j) = true) ->
exists inf', process_window host phrase ctx audio inf = Done inf' /\
  log inf' = Some (lines ++ expected_log host state 0 (clock inf) texts) /\
  length (expected_log host state 0 (clock inf) texts) = length texts.
Proof.
intros Hm Hlog Hts. pose proof Hm as (_ & _ & _ & _ & Htxt).
rewrite (process_window_unfold _ _ _ _ _ _ _ Hm).
rewrite (segments_loop_log host state 0 texts inf lines); [|done| |].
- eexists. split; [reflexivity|]. split; [|apply length_expected_log].
  unfold check_trigger. cbn [fst snd log].
  destruct (Text.contains _ _); [destruct (host_pipe _ _)|]; done.
- intros j t Hj. pose proof (lookup_lt_Some _ _ _ Hj). simpl.
  split; [by apply Htxt|]. destruct (Hts j) as (? & ? & _); [lia|done].
- intros j Hj. apply Hts; lia.
Qed.

(** C17: a failure of the model to build its state, to run,
  or to report its segment count panics the inference thread with the
  message of the corresponding [expect] (spec 4.4, failure semantics). *)
Theorem process_window_model_errors host phrase ctx audio inf :
(w_create_state ctx = None ->
   process_window host phrase ctx audio inf = Panicked "failed to create state") /\
(forall s0, w_create_state ctx = Some s0 -> w_full s0 window_params audio = None ->
   process_window host phrase ctx audio inf = Panicked "failed to run model") /\
(forall s0 s1, w_create_state ctx = Some s0 -> w_full s0 window_params audio = Some s1 ->
   w_full_n_segments s1 = None ->
   process_window host phrase ctx audio inf = Panicked "failed to get number of segments").
Proof.
unfold process_window. split_and!.
- intros Hc. by rewrite Hc.
- intros s0 Hc Hf. rewrite Hc; cbn [expect obind]. by rewrite Hf.
- intros s0 s1 Hc Hf Hn. rewrite Hc; cbn [expect obind]. rewrite Hf; cbn [expect obind].
  by rewrite Hn.
Qed.

(** C18: with a log file, a failed [writeln!] on the first
  segment panics the inference thread (spec 4.4: log-write failures are
  fatal). *)
Theorem process_window_write_error_panics host phrase ctx audio state texts inf lines :
model_yields ctx audio state texts -> log inf = Some lines -> texts <> [] ->
is_Some (w_full_get_segment_t0 state 0%Z) -> is_Some (w_full_get_segment_t1 state 0%Z) ->
host_write_ok host (clock inf) = false ->
process_window host phrase ctx audio inf =
  Panicked "called `Result::unwrap()` on an `Err` value".
Proof.
intros Hm Hlog Hne [a Ha] [b Hb] Hw. pose proof Hm as (_ & _ & _ & _ & Htxt).
rewrite (process_window_unfold _ _ _ _ _ _ _ Hm).
destruct texts as [|t ts]; [done|].
cbn [length seq map segments_loop]. unfold segment_step.
rewrite (Htxt 0 t eq_refl), Hlog. cbn [expect obind]. change (Z.of_nat 0) with 0%Z.
by rewrite Ha, Hb, Hw.
Qed.

(** C19: when the trigger matches and the kill pipeline fails,
  the error is printed and the thread carries on: the window completes
  normally, and the following windows are processed as if from that
  state (spec 4.4 and 7: action-dispatch errors are recovered). *)
Theorem process_window_pipe_error_continues host phrase ctx audio state texts inf e ws :
model_yields ctx audio state texts -> log inf = None ->
Text.contains (Text.to_lowercase (Text.str_concat texts)) (Text.to_lowercase phrase) = true ->
host_pipe host (clock inf) = Some e ->
let inf' := mkInf None (stderr inf ++ ["Shell Command error: " ++ e]%string)
                  (S (pipes_run inf)) (S (clock inf)) in
process_window host phrase ctx audio inf = Done inf' /\
process_windows host phrase ctx (audio :: ws) inf = process_windows host phrase ctx ws inf'.
Proof.
intros Hm Hlog Hc Hp inf'. pose proof Hm as (_ & _ & _ & _ & Htxt).
assert (Hw : process_window host phrase ctx audio inf = Done inf').
{ rewrite (process_window_unfold _ _ _ _ _ _ _ Hm).
  rewrite (segments_loop_nolog host state 0 texts); [|done|intros; by apply Htxt].
  cbn [obind fst snd]. unfold check_trigger. rewrite Text.append_nil_l, Hc, Hp.
  unfold inf'. by rewrite <- Hlog. }
split; [done|]. cbn [process_windows]. by rewrite Hw.
Qed.

(** The example of spec 8: the transcription
  " The Octopus Has Escaped now" fires the trigger for the default code
  phrase, whatever the host, while "the octopus" alone does not. *)
Example trigger_default_phrase_example host inf :
pipes_run (check_trigger host "the octopus has escaped" inf " The Octopus Has Escaped now") =
  S (pipes_run inf) /\
check_trigger host "the octopus has escaped" inf " The Octopus, I said" = inf.
Proof.
split; [rewrite check_trigger_pipes; reflexivity|reflexivity].
Qed.
End Props.

Section Witnesses.
Local Open Scope string_scope.

Lemma scripted_yields (sc : Scripted.script) (audio : list nat) :
model_yields sc audio sc (map Scripted.seg_text sc).
Proof.
exists sc. split_and!; try reflexivity.
- cbn. by rewrite length_map.
- intros j t Hj. cbn. rewrite Nat2Z.id. by rewrite list_lookup_fmap in Hj.
Qed.

Example process_window_fires_iff_witness :
exists inf', process_window Scripted.quiet_host "the octopus has escaped"
  [(" The Octopus Has Escaped now", 0, 250)%Z] ([] : list nat) (mkInf None [] 0 0) = Done inf' /\
(pipes_run inf' = S (pipes_run (mkInf None [] 0 0)) <->
   exists a b, Text.to_lowercase (Text.str_concat (map Scripted.seg_text [(" The Octopus Has Escaped now", 0, 250)%Z]))
               = (a ++ Text.to_lowercase "the octopus has escaped" ++ b)%string) /\
(pipes_run inf' = pipes_run (mkInf None [] 0 0) \/ pipes_run inf' = S (pipes_run (mkInf None [] 0 0))).
Proof.
eexists. split; [reflexivity|].
eapply (process_window_fires_iff _ _ _ []); [apply scripted_yields|reflexivity].
Defined.

Example process_window_nolog_witness :
process_window Scripted.quiet_host "the octopus has escaped"
  [(" hello", 0, 100); (" world", 100, 200)]%Z ([] : list nat) (mkInf None [] 0 0) =
Done (check_trigger Scripted.quiet_host "the octopus has escaped" (mkInf None [] 0 0)
        (Text.str_concat (map Scripted.seg_text [(" hello", 0, 100); (" world", 100, 200)]%Z))).
Proof. eapply process_window_nolog; [apply scripted_yields|reflexivity]. Defined.

Example process_window_log_lines_witness :
exists inf', process_window Scripted.quiet_host "the octopus has escaped"
  [(" hello", 0, 100); (" world", 100, 200)]%Z ([] : list nat) (mkInf (Some []) [] 0 0) = Done inf' /\
log inf' = Some (app [] (expected_log (Smp := nat) Scripted.quiet_host
                         ([(" hello", 0, 100); (" world", 100, 200)]%Z : Scripted.script) 0 0
                         (map Scripted.seg_text [(" hello", 0, 100); (" world", 100, 200)]%Z))) /\
length (expected_log (Smp := nat) Scripted.quiet_host
          ([(" hello", 0, 100); (" world", 100, 200)]%Z : Scripted.script) 0 0
          (map Scripted.seg_text [(" hello", 0, 100); (" world", 100, 200)]%Z)) =
  length (map Scripted.seg_text [(" hello", 0, 100); (" world", 100, 200)]%Z).
Proof.
apply (process_window_log_lines Scripted.quiet_host _ _ _ _ _ (mkInf (Some []) [] 0 0) []);
  [apply scripted_yields|reflexivity|].
intros j Hj. simpl in Hj. destruct j as [|[|j]]; [..|lia]; split_and!; try reflexivity; eexists; reflexivity.
Defined.

Example process_window_write_error_panics_witness :
process_window (mkHost (fun _ => true) (fun _ => "now"%string) (fun _ => false) (fun _ => None))
  "the octopus has escaped" [(" hello", 0, 100)]%Z ([] : list nat) (mkInf (Some []) [] 0 0)
= Panicked "called `Result::unwrap()` on an `Err` value".
Proof.
eapply process_window_write_error_panics;
  [apply scripted_yields|reflexivity|discriminate|eexists; reflexivity|eexists; reflexivity|reflexivity].
Defined.

Example process_window_pipe_error_continues_witness :
process_window (mkHost (fun _ => true) (fun _ => "now"%string) (fun _ => true)
                       (fun _ => Some "No such file or directory"%string))
  "the octopus has escaped" [(" The octopus has escaped!", 0, 100)]%Z ([] : list nat) (mkInf None [] 0 0)
= Done (mkInf None (app [] ["Shell Command error: " ++ "No such file or directory"]) 1 1) /\
process_windows (mkHost (fun _ => true) (fun _ => "now"%string) (fun _ => true)
                       (fun _ => Some "No such file or directory"%string))
  "the octopus has escaped" [(" The octopus has escaped!", 0, 100)]%Z ([[]; []] : list (list nat)) (mkInf None [] 0 0)
= process_windows (mkHost (fun _ => true) (fun _ => "now"%string) (fun _ => true)
                       (fun _ => Some "No such file or directory"%string))
  "the octopus has escaped" [(" The octopus has escaped!", 0, 100)]%Z ([[]] : list (list nat))
  (mkInf None (app [] ["Shell Command error: " ++ "No such file or directory"]) 1 1).
Proof.
eapply (process_window_pipe_error_continues _ _ _ _ _ (map Scripted.seg_text [(" The octopus has escaped!", 0, 100)]%Z));
  [apply scripted_yields|reflexivity|reflexivity|reflexivity].
Defined.
End Witnesses.
End DispatcherProps.
