(* ===== verification/LogFormat.v ===== *)
(** * LogFormat: reading back the log file of the inference thread

    With [--out-file], the inference thread appends to the file one line
    per segment, written by [writeln!(file, "[{:?} | {} - {}]: {}", now, t0,
    t1, segment)] (main.rs 126-134, [Dispatcher.log_line]).  This file
    gives the reader of that format, [parse_entry] (and [parse_log_line]
    for a line with its newline), and proves that it inverts the writer:
    a line gives back the timestamp text, the two [i64] segment times and
    the segment text, provided the timestamp contains no space (the
    [Debug] form of a [chrono] [DateTime<Utc>], such as
    [2024-05-01T10:00:00.123456789Z], has none).  A whole file, cut into
    lines as [BufRead::lines] does ([file_lines]), reads back as the
    entries written, in order, when no timestamp or segment text contains
    a line break ([entry_ok]); a segment with a newline breaks the format.

    The reader splits at the first [" | "], the first [" - "] after it and
    the first ["]: "] after that; the numbers are decimal [i64]s.  It is
    the contract of the format, not code of the program. *)

From Stdlib Require Import Ascii String ZArith DecimalString DecimalZ Lia.
From stdpp Require Import base list.
From S2P Require Import Prelude Text Dispatcher.

Import Text Dispatcher.
Local Open Scope string_scope.

Module LogFormat.

(** [s] without its prefix [p], if [p] is one. *)
Fixpoint strip_prefix (p s : string) : option string :=
  match p, s with
  | EmptyString, _ => Some s
  | String a p', String b s' => if Ascii.eqb a b then strip_prefix p' s' else None
  | String _ _, EmptyString => None
  end.

(** The text before the first occurrence of [sep], and the text after it. *)
Fixpoint break_on (sep s : string) : option (string * string) :=
  match strip_prefix sep s with
  | Some rest => Some (EmptyString, rest)
  | None =>
      match s with
      | EmptyString => None
      | String c s' => '(u, v) ← break_on sep s'; Some (String c u, v)
      end
  end.

(** [s] without its final newline, if it ends with one. *)
Fixpoint strip_nl (s : string) : option string :=
  match s with
  | EmptyString => None
  | String c EmptyString => if Ascii.eqb c "010" then Some EmptyString else None
  | String c s' => u ← strip_nl s'; Some (String c u)
  end.

(** A decimal [i64], as [str::parse::<i64>] reads it. *)
Definition parse_i64 (s : string) : option Z := Z.of_int <$> NilZero.int_of_string s.

(** A log entry without its newline: [[<now> | <t0> - <t1>]: <text>]. *)
Definition parse_entry (line : string) : option (string * Z * Z * string) :=
  r1 ← strip_prefix "[" line;
  '(now, r2) ← break_on " | " r1;
  '(a, r3) ← break_on " - " r2;
  '(b, seg) ← break_on "]: " r3;
  t0 ← parse_i64 a;
  t1 ← parse_i64 b;
  Some (now, t0, t1, seg).

(** A line of the log as [writeln!] writes it, newline included. *)
Definition parse_log_line (line : string) : option (string * Z * Z * string) :=
  body ← strip_nl line; parse_entry body.

(** [s] without one final carriage return. *)
Fixpoint strip_cr (s : string) : string :=
  match s with
  | EmptyString => EmptyString
  | String c EmptyString => if Ascii.eqb c "013" then EmptyString else s
  | String c s' => String c (strip_cr s')
  end.

(** The pieces between newlines, as [BufRead::lines] returns them: a piece
    followed by a newline loses one final ["\r"], and a last piece that is
    empty (the text ends with a newline) is no line. *)
Fixpoint lines_of (pieces : list string) : list string :=
  match pieces with
  | [] => []
  | [l] => if String.eqb l EmptyString then [] else [l]
  | l :: ls => strip_cr l :: lines_of ls
  end.

Definition file_lines (text : string) : list string := lines_of (split_on "010" text).

(** The number of occurrences of [c] in [s]. *)
Fixpoint count_char (c : ascii) (s : string) : nat :=
  match s with
  | EmptyString => 0
  | String a s' => (if Ascii.eqb a c then 1 else 0) + count_char c s'
  end.

(** An entry the format can carry: a timestamp without space, and no line
    break in the timestamp or the text. *)
Definition entry_ok (e : string * Z * Z * string) : bool :=
  let '(now, _, _, seg) := e in
  negb (has_char " " now || has_char "010" now || has_char "013" now ||
        has_char "010" seg || has_char "013" seg).

End LogFormat.

Module LogFormatFacts.
Import LogFormat.

Lemma strip_prefix_app p s : strip_prefix p (p ++ s) = Some s.
Proof.
  induction p as [|a p IH]; [done|]. rewrite append_cons. cbn. by rewrite Ascii.eqb_refl.
Qed.

Lemma break_on_unfold sep s : break_on sep s =
  match strip_prefix sep s with
  | Some rest => Some (EmptyString, rest)
  | None => match s with
            | EmptyString => None
            | String c s' => '(u, v) ← break_on sep s'; Some (String c u, v)
            end
  end.
Proof. by destruct s. Qed.

Lemma break_on_app c sep a b : has_char c a = false ->
  break_on (String c sep) (a ++ String c sep ++ b) = Some (a, b).
Proof.
  induction a as [|x a IH]; intros Ha.
  - rewrite append_nil_l, break_on_unfold. by rewrite strip_prefix_app.
  - rewrite append_cons. cbn in Ha. apply orb_false_iff in Ha as [Hx Ha].
    cbn [break_on strip_prefix]. rewrite Ascii.eqb_sym, Hx, IH by done. done.
Qed.

Lemma strip_nl_app seg : strip_nl (seg ++ newline) = Some seg.
Proof.
  induction seg as [|c seg IH]; [done|]. rewrite append_cons.
  destruct seg as [|c' seg']; [done|].
  rewrite append_cons in IH |- *. cbn [strip_nl] in IH |- *. by rewrite IH.
Qed.

Lemma to_int_not_nil z : Z.to_int z <> Decimal.Pos Decimal.Nil /\ Z.to_int z <> Decimal.Neg Decimal.Nil.
Proof.
  split; intros H; pose proof (DecimalZ.of_to z) as E; rewrite H in E; cbn in E; subst z; discriminate H.
Qed.

Lemma parse_i64_string z : parse_i64 (i64_to_string z) = Some z.
Proof.
  unfold parse_i64, i64_to_string. destruct (to_int_not_nil z).
  rewrite NilZero.isi by done. cbn. by rewrite DecimalZ.of_to.
Qed.

Lemma i64_no_space z : has_char " " (i64_to_string z) = false.
Proof. by apply has_char_i64. Qed.

Lemma i64_no_bracket z : has_char "]" (i64_to_string z) = false.
Proof. by apply has_char_i64. Qed.

Lemma i64_no_nl z : has_char "010" (i64_to_string z) = false.
Proof. by apply has_char_i64. Qed.

Lemma i64_no_cr z : has_char "013" (i64_to_string z) = false.
Proof. by apply has_char_i64. Qed.

(** The text of an entry, as [writeln!] formats it before the newline. *)
Definition entry_body (e : string * Z * Z * string) : string :=
  let '(now, t0, t1, seg) := e in
  "[" ++ now ++ " | " ++ i64_to_string t0 ++ " - " ++ i64_to_string t1 ++ "]: " ++ seg.

Lemma log_line_body now t0 t1 seg :
  log_line now t0 t1 seg = entry_body (now, t0, t1, seg) ++ newline.
Proof. unfold log_line, entry_body. by rewrite <- !append_assoc. Qed.

Lemma parse_entry_body now t0 t1 seg : has_char " " now = false ->
  parse_entry (entry_body (now, t0, t1, seg)) = Some (now, t0, t1, seg).
Proof.
  intros Hnow. unfold parse_entry, entry_body.
  rewrite strip_prefix_app. cbn [mbind option_bind].
  rewrite break_on_app by done. cbn [mbind option_bind].
  rewrite break_on_app by apply i64_no_space. cbn [mbind option_bind].
  rewrite break_on_app by apply i64_no_bracket. cbn [mbind option_bind].
  by rewrite !parse_i64_string.
Qed.

Lemma entry_body_plain e : entry_ok e = true ->
  has_char "010" (entry_body e) = false /\ has_char "013" (entry_body e) = false.
Proof.
  destruct e as [[[now t0] t1] seg]. cbn [entry_ok entry_body].
  intros Hok. apply negb_true_iff in Hok. rewrite !orb_false_iff in Hok.
  destruct Hok as [[[[_ Hn1] Hn2] Hs1] Hs2].
  rewrite !has_char_app, Hn1, Hn2, Hs1, Hs2, !i64_no_nl, !i64_no_cr. done.
Qed.

Lemma strip_cr_plain s : has_char "013" s = false -> strip_cr s = s.
Proof.
  induction s as [|c s IH]; [done|]. cbn [has_char]. intros Hs.
  apply orb_false_iff in Hs as [Hc Hs]. destruct s as [|c' s']; [cbn; by rewrite Hc|].
  change (strip_cr (String c (String c' s'))) with (String c (strip_cr (String c' s'))).
  by rewrite IH.
Qed.

Lemma lines_of_cons l ls : ls <> [] -> lines_of (l :: ls) = strip_cr l :: lines_of ls.
Proof. by destruct ls. Qed.

Lemma lines_of_final_nl ls : lines_of (ls ++ [EmptyString])%list = map strip_cr ls.
Proof.
  induction ls as [|l ls IH]; [done|]. cbn [app map].
  rewrite lines_of_cons by (by destruct ls). by rewrite IH.
Qed.

Lemma split_on_nonempty d s : split_on d s <> [].
Proof.
  destruct s as [|a s]; cbn; [done|]. destruct (Ascii.eqb a d); [done|].
  by destruct (split_on d s).
Qed.

Lemma split_on_sep_app d u s : split_on d (u ++ String d s) = (split_on d u ++ split_on d s)%list.
Proof.
  induction u as [|a u IH].
  - rewrite append_nil_l. cbn. by rewrite Ascii.eqb_refl.
  - rewrite append_cons. cbn [split_on]. rewrite IH. destruct (Ascii.eqb a d); [done|].
    pose proof (split_on_nonempty d u). by destruct (split_on d u).
Qed.

Lemma length_split_on d s : length (split_on d s) = S (count_char d s).
Proof.
  induction s as [|a s IH]; [done|]. cbn [split_on count_char].
  destruct (Ascii.eqb a d); cbn [length]; [by rewrite IH|].
  destruct (split_on d s); cbn in IH |- *; lia.
Qed.

Lemma count_char_app c a b : count_char c (a ++ b) = count_char c a + count_char c b.
Proof. induction a as [|x a IH]; [done|]. rewrite append_cons. cbn [count_char]. rewrite IH. lia. Qed.

Lemma count_char_none c s : has_char c s = false -> count_char c s = 0.
Proof.
  induction s as [|a s IH]; [done|]. cbn [has_char count_char].
  intros [-> Hs]%orb_false_iff. by rewrite IH.
Qed.

(** A file of entries is cut, at its newlines, into their texts. *)
Lemma split_on_entries es : forallb entry_ok es = true ->
  split_on "010" (str_concat (map (fun '(now, t0, t1, seg) => log_line now t0 t1 seg) es))
  = (map entry_body es ++ [EmptyString])%list.
Proof.
  induction es as [|e es IH]; [done|]. cbn [forallb]. intros [He Hes]%andb_true_iff.
  destruct e as [[[now t0] t1] seg]. cbn [map str_concat fold_right]. fold (str_concat (map (fun '(now, t0, t1, seg) => log_line now t0 t1 seg) es)).
  rewrite log_line_body, append_assoc. unfold newline. rewrite append_cons, append_nil_l.
  rewrite split_on_field by apply (entry_body_plain _ He). by rewrite IH.
Qed.
End LogFormatFacts.

Module LogFormatProps.
Import LogFormat LogFormatFacts.

(** C35: a line the inference thread writes to the [--out-file] log reads
    back as the timestamp text, the two segment times and the segment text
    it was written from, whenever the timestamp text has no space. *)
Theorem log_line_roundtrip now t0 t1 seg :
  has_char " " now = false ->
  parse_log_line (log_line now t0 t1 seg) = Some (now, t0, t1, seg).
Proof.
  intros Hnow. unfold parse_log_line. rewrite log_line_body, strip_nl_app.
  cbn [mbind option_bind]. by apply parse_entry_body.
Qed.

(** C36: the log holds one line per segment only for segment texts
    without a newline: the entry for a segment is read back, as
    [BufRead::lines] cuts the file, as one line more than the number of
    newlines in the segment text (when the timestamp has none). *)
Theorem log_line_lines_count now t0 t1 seg : has_char "010" now = false ->
  length (file_lines (log_line now t0 t1 seg)) = S (count_char "010" seg).
Proof.
  intros Hn. unfold file_lines. rewrite log_line_body. unfold newline.
  rewrite split_on_sep_app. change (split_on "010" EmptyString) with [EmptyString].
  rewrite lines_of_final_nl, length_map, length_split_on. f_equal.
  unfold entry_body. rewrite !count_char_app, (count_char_none _ now), !(count_char_none _ (i64_to_string _))
    by (done || apply i64_no_nl).
  simpl. lia.
Qed.

(** C38: a log file holding the lines written for a sequence of entries,
    read back line by line as [BufRead::lines] does, gives those entries in
    order, when no timestamp has a space and no timestamp or text has a
    line break. *)
Theorem log_file_roundtrip es : forallb entry_ok es = true ->
  map parse_entry (file_lines (str_concat (map (fun '(now, t0, t1, seg) => log_line now t0 t1 seg) es)))
  = map Some es.
Proof.
  intros Hok. unfold file_lines. rewrite split_on_entries, lines_of_final_nl by done.
  induction es as [|e es IH]; [done|]. cbn [forallb] in Hok. apply andb_true_iff in Hok as [He Hes].
  cbn [map]. rewrite IH by done. f_equal.
  destruct (entry_body_plain e He) as [_ Hcr]. rewrite strip_cr_plain by done.
  destruct e as [[[now t0] t1] seg]. apply parse_entry_body.
  cbn [entry_ok] in He. apply negb_true_iff in He. rewrite !orb_false_iff in He. tauto.
Qed.

(** Witness of C36: a segment [kill], newline, [vim] takes two lines. *)
Lemma log_line_lines_count_witness :
  has_char "010" "2024-05-01T10:00:00Z" = false /\
  length (file_lines (log_line "2024-05-01T10:00:00Z" 0 2000 ("kill" ++ newline ++ "vim"))) = 2.
Proof. split; [reflexivity|]. rewrite log_line_lines_count by reflexivity. reflexivity. Defined.

(** Witness of C35 at a concrete timestamp. *)
Lemma log_line_roundtrip_witness :
  parse_log_line (log_line "2024-05-01T10:00:00.123456789Z" 120 (-4) "kill vim")
  = Some ("2024-05-01T10:00:00.123456789Z", 120%Z, (-4)%Z, "kill vim").
Proof. apply log_line_roundtrip. reflexivity. Defined.

(** Witness of C38: two segments of one window, read back from the file. *)
Lemma log_file_roundtrip_witness :
  let es := [("2024-05-01T10:00:00.1Z", 0%Z, 1200%Z, " The octopus");
             ("2024-05-01T10:00:00.2Z", 1200%Z, 2400%Z, " has escaped.")] in
  forallb entry_ok es = true /\
  map parse_entry (file_lines (str_concat (map (fun '(now, t0, t1, seg) => log_line now t0 t1 seg) es)))
  = map Some es.
Proof. intros es. split; [reflexivity|]. apply log_file_roundtrip. reflexivity. Defined.

End LogFormatProps.
