(* ===== verification/Startup.v ===== *)
(** * Startup: command-line options, device selection and stream checks

    The part of [main] that runs before the pipeline (main.rs 19-75 and
    190-203): the [clap] options with their defaults, the list-devices
    mode, the choice of the input device, the query of its default
    configuration and the check that it delivers [f32] samples.  The audio
    host ([cpal]) is an environment record: the list of input devices (the
    enumeration may fail), the default device, and for each device its name
    and default configuration (each query may fail).

    [main] returns [Ok(())] (exit code 0), returns an [Err] (exit code 1), or
    panics (exit code 101); otherwise it goes on with the session modelled in
    [Pipeline]. *)

From Stdlib Require Import Ascii String ZArith Lia.
From stdpp Require Import base list.
From S2P Require Import Prelude Text.

Import Text.
Local Open Scope string_scope.

Module Startup.

Inductive SampleFormat := I8 | I16 | I32 | I64 | U8 | U16 | U32 | U64 | F32 | F64.

(** [Display for SampleFormat] *)
Definition sample_format_name (f : SampleFormat) : string :=
  match f with
  | I8 => "i8" | I16 => "i16" | I32 => "i32" | I64 => "i64"
  | U8 => "u8" | U16 => "u16" | U32 => "u32" | U64 => "u64"
  | F32 => "f32" | F64 => "f64"
  end.

Record StreamConfig := mkConfig {
  channels : nat;
  sample_rate : nat;
  sample_format : SampleFormat;
}.

Record Device := mkDevice {
  name : option string;                       (** [device.name()] *)
  default_input_config : option StreamConfig; (** [device.default_input_config()] *)
}.

Record AudioHost := mkAudioHost {
  input_devices : option (list Device);       (** [host.input_devices()] *)
  default_input_device : option Device;       (** [host.default_input_device()] *)
}.

(** [struct Opt] (lines 19-37). *)
Record Opt := mkOpt {
  device : string;
  list_devices : bool;
  out_file : option string;
  code_phrase : string;
  model_path : string;
}.

(** The [default_value_t]s of [Opt]. *)
Definition default_opt : Opt :=
  mkOpt "default" false None "the octopus has escaped" "ggml-base.en.bin".

Inductive startup :=
  | Listed (stdout : list string)          (** list-devices mode: [Ok(())] *)
  | Failed (msg : string)                  (** [main] returns [Err] *)
  | MainPanic (msg : string)               (** [main] panics *)
  | Start (d : Device) (cfg : StreamConfig) (stdout : list string).

Definition exit_code (r : startup) : option nat :=
  match r with
  | Listed _ => Some 0
  | Failed _ => Some 1
  | MainPanic _ => Some 101
  | Start _ _ _ => None
  end.

(** The [Display] of a [cpal] host error returned by [?]. *)
Definition host_error : string := "The requested device is no longer available".

(** Lines 45-50: the names that could be queried, in order. *)
Definition device_names (devs : list Device) : list string := omap name devs.

Definition tab : string := String "009"%char EmptyString.

(** Lines 51-54: [println!("\t {idx}. {device}")] for each name. *)
Definition listing (names : list string) : list string :=
  "Devices:" :: imap (fun idx d => tab ++ " " ++ i64_to_string (Z.of_nat idx) ++ ". " ++ d) names.

(** Lines 59-65: [find] keeps the first device whose name query succeeds
    and equals the option; failed queries count as no match. *)
Definition find_device (wanted : string) (devs : list Device) : option Device :=
  List.find (fun d => match name d with Some y => String.eqb y wanted | None => false end) devs.

(** [None]: the enumeration failed and [?] returns the error. *)
Definition select_device (opt : Opt) (h : AudioHost) : option (option Device) :=
  if String.eqb (device opt) "default" then Some (default_input_device h)
  else match input_devices h with
       | None => None
       | Some devs => Some (find_device (device opt) devs)
       end.

(** Lines 191-203: only [f32] input is accepted. *)
Definition check_sample_format (d : Device) (cfg : StreamConfig) (stdout : list string) : startup :=
  match sample_format cfg with
  | F32 => Start d cfg stdout
  | f => Failed ("Unsupported sample format '" ++ sample_format_name f ++ "'")
  end.

(** Lines 40-73, then the check of lines 191-203, up to the start of the
    stream (the threads spawned in between are modelled in [Pipeline]). *)
Definition main_startup (opt : Opt) (h : AudioHost) : startup :=
  if list_devices opt then
    match input_devices h with
    | None => Failed host_error
    | Some devs => Listed ("Polling input devices..." :: listing (device_names devs))
    end
  else
    match select_device opt h with
    | None => Failed host_error
    | Some None => MainPanic "failed to find input device"
    | Some (Some d) =>
        match name d with
        | None => Failed host_error
        | Some n =>
            match default_input_config d with
            | None => MainPanic "Failed to get default input config"
            | Some cfg => check_sample_format d cfg ["Input device: " ++ n]
            end
        end
    end.

End Startup.

Module StartupProps.
Import Startup.

Lemma lookup_listing_tail names i n :
names !! i = Some n ->
imap (fun idx d => tab ++ " " ++ i64_to_string (Z.of_nat idx) ++ ". " ++ d) names !! i =
  Some (tab ++ " " ++ i64_to_string (Z.of_nat i) ++ ". " ++ n).
Proof. intros Hn. by rewrite list_lookup_imap, Hn. Qed.

(** C24: in list-devices mode, when the enumeration succeeds,
  [main] prints a header, then one line ["\t i. name"] for each device
  whose name could be queried, numbered from 0 in enumeration order, and
  exits with code 0. *)
Theorem list_devices_listing opt h devs :
list_devices opt = true -> input_devices h = Some devs ->
exists lines, main_startup opt h = Listed ("Polling input devices..." :: "Devices:" :: lines) /\
  exit_code (main_startup opt h) = Some 0 /\
  length lines = length (device_names devs) /\
  (forall i n, device_names devs !! i = Some n ->
     lines !! i = Some (tab ++ " " ++ i64_to_string (Z.of_nat i) ++ ". " ++ n)).
Proof.
intros Hl Hd. unfold main_startup. rewrite Hl, Hd. eexists. split_and!; [reflexivity|reflexivity| |].
- by rewrite length_imap.
- intros i n Hn. by apply lookup_listing_tail.
Qed.

Example list_devices_listing_witness :
exists lines,
  main_startup (mkOpt "default" true None "x" "m")
    (mkAudioHost (Some [mkDevice (Some "mic") None; mkDevice None None; mkDevice (Some "usb") None]) None)
  = Listed ("Polling input devices..." :: "Devices:" :: lines) /\
  exit_code (main_startup (mkOpt "default" true None "x" "m")
    (mkAudioHost (Some [mkDevice (Some "mic") None; mkDevice None None; mkDevice (Some "usb") None]) None))
  = Some 0 /\
  length lines = length (device_names [mkDevice (Some "mic") None; mkDevice None None; mkDevice (Some "usb") None]) /\
  (forall i n, device_names [mkDevice (Some "mic") None; mkDevice None None; mkDevice (Some "usb") None] !! i = Some n ->
     lines !! i = Some (tab ++ " " ++ i64_to_string (Z.of_nat i) ++ ". " ++ n)).
Proof. apply list_devices_listing; reflexivity. Defined.

(** With the default device option the device is the
  host's default input device: the outcome of startup does not depend on
  the enumeration of devices. *)
Theorem default_device_ignores_enumeration opt h devs :
list_devices opt = false -> device opt = "default" ->
main_startup opt h = main_startup opt (mkAudioHost devs (default_input_device h)).
Proof. intros Hl Hd. unfold main_startup, select_device. by rewrite Hl, Hd. Qed.

Example default_device_ignores_enumeration_witness :
main_startup (mkOpt "default" false None "x" "m")
  (mkAudioHost None (Some (mkDevice (Some "mic") (Some (mkConfig 2 44100 F32)))))
= main_startup (mkOpt "default" false None "x" "m")
    (mkAudioHost (Some []) (default_input_device
       (mkAudioHost None (Some (mkDevice (Some "mic") (Some (mkConfig 2 44100 F32))))))).
Proof. apply default_device_ignores_enumeration; reflexivity. Defined.

Lemma find_device_none wanted devs :
Forall (fun d => name d <> Some wanted) devs -> find_device wanted devs = None.
Proof.
unfold find_device. induction 1 as [|d ds Hd _ IH]; [done|]. cbn.
destruct (name d) as [y|]; cbn; [|done].
destruct (String.eqb_spec y wanted); [congruence|done].
Qed.

(** C26: a device name that no enumerated device has makes
  [main] panic with "failed to find input device" (exit code 101). *)
Theorem named_device_missing_panics opt h devs :
list_devices opt = false -> device opt <> "default" -> input_devices h = Some devs ->
Forall (fun d => name d <> Some (device opt)) devs ->
main_startup opt h = MainPanic "failed to find input device" /\
exit_code (main_startup opt h) = Some 101.
Proof.
intros Hl Hd Hdevs Hnone.
unfold main_startup, select_device. rewrite Hl, Hdevs, find_device_none by done.
destruct (String.eqb_spec (device opt) "default"); [done|]. done.
Qed.

Example named_device_missing_panics_witness :
main_startup (mkOpt "usb" false None "x" "m")
  (mkAudioHost (Some [mkDevice (Some "mic") None]) None) = MainPanic "failed to find input device" /\
exit_code (main_startup (mkOpt "usb" false None "x" "m")
  (mkAudioHost (Some [mkDevice (Some "mic") None]) None)) = Some 101.
Proof.
apply named_device_missing_panics with (devs := [mkDevice (Some "mic") None]);
  [reflexivity|discriminate|reflexivity|repeat constructor; discriminate].
Defined.

(** C27: a device whose default configuration is not [f32]
  makes [main] return the error "Unsupported sample format '<f>'"
  (exit code 1), and an [f32] device starts the stream. *)
Theorem sample_format_check opt h d n cfg :
list_devices opt = false -> select_device opt h = Some (Some d) ->
name d = Some n -> default_input_config d = Some cfg ->
(sample_format cfg <> F32 ->
   main_startup opt h = Failed ("Unsupported sample format '" ++ sample_format_name (sample_format cfg) ++ "'") /\
   exit_code (main_startup opt h) = Some 1) /\
(sample_format cfg = F32 -> main_startup opt h = Start d cfg ["Input device: " ++ n]).
Proof.
intros Hl Hs Hn Hc. unfold main_startup. rewrite Hl, Hs, Hn, Hc. unfold check_sample_format.
split; [intros Hf|intros ->; done]. by destruct (sample_format cfg).
Qed.

Example sample_format_check_witness :
(sample_format (mkConfig 2 48000 I16) <> F32 ->
   main_startup default_opt (mkAudioHost None (Some (mkDevice (Some "mic") (Some (mkConfig 2 48000 I16)))))
   = Failed ("Unsupported sample format '" ++ sample_format_name (sample_format (mkConfig 2 48000 I16)) ++ "'") /\
   exit_code (main_startup default_opt
     (mkAudioHost None (Some (mkDevice (Some "mic") (Some (mkConfig 2 48000 I16)))))) = Some 1) /\
(sample_format (mkConfig 2 48000 I16) = F32 ->
   main_startup default_opt (mkAudioHost None (Some (mkDevice (Some "mic") (Some (mkConfig 2 48000 I16)))))
   = Start (mkDevice (Some "mic") (Some (mkConfig 2 48000 I16))) (mkConfig 2 48000 I16) ["Input device: " ++ "mic"]).
Proof. apply sample_format_check; reflexivity. Defined.
End StartupProps.
