(* ===== verification/Pipeline.v ===== *)
(** * Pipeline: the lifecycle controller [main] (main.rs 39-220)

    [main] spawns the inference thread (line 77), creates queue A and the
    data thread (lines 160-188), starts the capture stream whose callback is
    [buffer_stereo_data] (lines 190-205), waits for a line on standard input
    (lines 207-210) and then shuts down: [drop(stream)], [drop(audio_tx)],
    [drop(inference_tx)], [data_thread_handle.join().unwrap()],
    [inference_thread_handle.join().unwrap()] (lines 213-218).

    The three execution contexts run concurrently; the model is a labelled
    step relation [step] on the whole [pipeline] state in which each
    constructor is one atomic action of one context, so every interleaving
    of the code is a sequence of steps:

    - the capture callback mixes a frame and sends it into queue A;
    - the data thread receives a chunk, runs [on_samples] and sends the
      window (if any) into queue B, or exits when queue A is disconnected;
    - the inference thread receives a window and runs [process_window], or
      exits when queue B is disconnected;
    - the main thread performs its shutdown actions one at a time, or
      panics when [read_line] fails, dropping the stream and its senders
      while it unwinds.

    Senders are counted as in the code: queue A has [audio_tx] (main) and
    the clone moved into the stream's callback; queue B has [inference_tx]
    (main) and [inference_tx_clone] (moved into the data thread, dropped
    when that thread ends, by return or by panic). *)

From Stdlib Require Import String ZArith QArith Lia.
From stdpp Require Import base list.
From S2P Require Import Prelude Channel Mixer Ring Accumulator Text Dispatcher.

Import Accumulator Dispatcher Mixer.

(** ** Program constants (main.rs 15-17) *)

Definition SECONDS : nat := 8.
Definition BUFFER_SIZE : nat := 44100.
Definition WHISPER_BUFFER_SIZE : nat := 16161.

Module Pipeline.

(** A spawned thread: running with its state, returned, or panicked. *)
Inductive tstate (A : Type) :=
  | TRunning (a : A)
  | TExited
  | TPanicked (msg : string).
Arguments TRunning {A} a.
Arguments TExited {A}.
Arguments TPanicked {A} msg.

Definition is_running {A} (t : tstate A) : bool :=
  match t with TRunning _ => true | _ => false end.

(** The main thread's position in lines 205-219. *)
Inductive main_pc :=
  | Streaming        (** blocked in [read_line] with the stream playing *)
  | StreamDropped    (** after [drop(stream)] *)
  | AudioTxDropped   (** after [drop(audio_tx)] *)
  | InfTxDropped     (** after [drop(inference_tx)] *)
  | DataJoined       (** after [data_thread_handle.join().unwrap()] *)
  | Stopped          (** after [inference_thread_handle.join().unwrap()] *)
  | MainPanicked (msg : string).

Definition pc_rank (pc : main_pc) : nat :=
  match pc with
  | Streaming => 0 | StreamDropped => 1 | AudioTxDropped => 2
  | InfTxDropped => 3 | DataJoined => 4 | Stopped => 5 | MainPanicked _ => 6
  end.

Section Model.
Context {R : Type -> Type} `{RingBuffer R}.
Context {S Rs Ctx St : Type} `{SampleArith S} `{Resampler Rs S} `{Whisper Ctx St S}.
Variables (W : nat) (host : Host) (code_phrase : string) (ctx : Ctx).

Record pipeline := mkPipeline {
  pc : main_pc;
  capture_ok : bool;                   (** the callback has not panicked *)
  qa : Mpsc.channel (list S);          (** queue A: mono chunks *)
  qb : Mpsc.channel (list S);          (** queue B: resampled windows *)
  data : tstate (DataThread R S Rs);
  inf : tstate InfThread;
}.

(** Observable actions, for the properties of runs. *)
Inductive event :=
  | EvCapture (frame : list S)                 (** a frame mixed into queue A *)
  | EvData (chunk : list S) (out : option (list S))  (** a chunk consumed *)
  | EvInfer (window : list S)                  (** a window transcribed *)
  | EvStop                                     (** the line read on stdin *)
  | EvTau.                                     (** any other action *)

Definition with_qa (s : pipeline) (c : Mpsc.channel (list S)) : pipeline :=
  mkPipeline (pc s) (capture_ok s) c (qb s) (data s) (inf s).

Definition send_panic : string :=
  "called `Result::unwrap()` on an `Err` value: SendError { .. }".
Definition read_panic : string :=
  "Failed to read line: Custom { kind: InvalidData, error: stream did not contain valid UTF-8 }".
Definition join_panic : string :=
  "called `Result::unwrap()` on an `Err` value: Any { .. }".

(** One atomic action of one of the execution contexts. *)
Inductive step : pipeline -> event -> pipeline -> Prop :=
(** the capture callback (lines 194, 222-228) *)
| step_capture s frame qa' :
    pc s = Streaming -> capture_ok s = true ->
    buffer_stereo_data frame (qa s) = Done qa' ->
    step s (EvCapture frame) (with_qa s qa')
| step_capture_panic s frame msg :
    pc s = Streaming -> capture_ok s = true ->
    buffer_stereo_data frame (qa s) = Panicked msg ->
    step s EvTau (mkPipeline (pc s) false (qa s) (qb s) (data s) (inf s))
(** the data thread (lines 175-187) *)
| step_data_none s st chunk qa' st' :
    data s = TRunning st -> Mpsc.recv (qa s) = Mpsc.Received chunk qa' ->
    on_samples W chunk st = Done (st', None) ->
    step s (EvData chunk None)
         (mkPipeline (pc s) (capture_ok s) qa' (qb s) (TRunning st') (inf s))
| step_data_emit s st chunk qa' st' w qb' :
    data s = TRunning st -> Mpsc.recv (qa s) = Mpsc.Received chunk qa' ->
    on_samples W chunk st = Done (st', Some w) ->
    Mpsc.send w (qb s) = Some qb' ->
    step s (EvData chunk (Some w))
         (mkPipeline (pc s) (capture_ok s) qa' qb' (TRunning st') (inf s))
| step_data_send_panic s st chunk qa' st' w :
    data s = TRunning st -> Mpsc.recv (qa s) = Mpsc.Received chunk qa' ->
    on_samples W chunk st = Done (st', Some w) ->
    Mpsc.send w (qb s) = None ->
    step s EvTau
         (mkPipeline (pc s) (capture_ok s) (Mpsc.drop_receiver qa')
                     (Mpsc.drop_sender (qb s)) (TPanicked send_panic) (inf s))
| step_data_panic s st chunk qa' msg :
    data s = TRunning st -> Mpsc.recv (qa s) = Mpsc.Received chunk qa' ->
    on_samples W chunk st = Panicked msg ->
    step s EvTau
         (mkPipeline (pc s) (capture_ok s) (Mpsc.drop_receiver qa')
                     (Mpsc.drop_sender (qb s)) (TPanicked msg) (inf s))
| step_data_exit s st :
    data s = TRunning st -> Mpsc.recv (qa s) = Mpsc.Disconnected ->
    step s EvTau
         (mkPipeline (pc s) (capture_ok s) (Mpsc.drop_receiver (qa s))
                     (Mpsc.drop_sender (qb s)) TExited (inf s))
(** the inference thread (lines 94-156) *)
| step_inf s i w qb' i' :
    inf s = TRunning i -> Mpsc.recv (qb s) = Mpsc.Received w qb' ->
    process_window host code_phrase ctx w i = Done i' ->
    step s (EvInfer w) (mkPipeline (pc s) (capture_ok s) (qa s) qb' (data s) (TRunning i'))
| step_inf_panic s i w qb' msg :
    inf s = TRunning i -> Mpsc.recv (qb s) = Mpsc.Received w qb' ->
    process_window host code_phrase ctx w i = Panicked msg ->
    step s EvTau (mkPipeline (pc s) (capture_ok s) (qa s) (Mpsc.drop_receiver qb')
                             (data s) (TPanicked msg))
| step_inf_exit s i :
    inf s = TRunning i -> Mpsc.recv (qb s) = Mpsc.Disconnected ->
    step s EvTau (mkPipeline (pc s) (capture_ok s) (qa s) (Mpsc.drop_receiver (qb s))
                             (data s) TExited)
(** the main thread (lines 207-219) *)
| step_stop s :
    pc s = Streaming ->
    step s EvStop (mkPipeline StreamDropped (capture_ok s) (Mpsc.drop_sender (qa s))
                              (qb s) (data s) (inf s))
(** [read_line] fails (input that is not UTF-8): [expect] panics, and
    unwinding [main] drops [stream], [audio_tx] and [inference_tx]. *)
| step_read_error s :
    pc s = Streaming ->
    step s EvTau (mkPipeline (MainPanicked read_panic) (capture_ok s)
                             (Mpsc.drop_sender (Mpsc.drop_sender (qa s)))
                             (Mpsc.drop_sender (qb s)) (data s) (inf s))
| step_drop_audio_tx s :
    pc s = StreamDropped ->
    step s EvTau (mkPipeline AudioTxDropped (capture_ok s) (Mpsc.drop_sender (qa s))
                             (qb s) (data s) (inf s))
| step_drop_inference_tx s :
    pc s = AudioTxDropped ->
    step s EvTau (mkPipeline InfTxDropped (capture_ok s) (qa s)
                             (Mpsc.drop_sender (qb s)) (data s) (inf s))
| step_join_data s :
    pc s = InfTxDropped -> data s = TExited ->
    step s EvTau (mkPipeline DataJoined (capture_ok s) (qa s) (qb s) (data s) (inf s))
| step_join_data_panic s msg :
    pc s = InfTxDropped -> data s = TPanicked msg ->
    step s EvTau (mkPipeline (MainPanicked join_panic) (capture_ok s) (qa s) (qb s)
                             (data s) (inf s))
| step_join_inf s :
    pc s = DataJoined -> inf s = TExited ->
    step s EvTau (mkPipeline Stopped (capture_ok s) (qa s) (qb s) (data s) (inf s))
| step_join_inf_panic s msg :
    pc s = DataJoined -> inf s = TPanicked msg ->
    step s EvTau (mkPipeline (MainPanicked join_panic) (capture_ok s) (qa s) (qb s)
                             (data s) (inf s)).

(** Runs: sequences of steps with their trace of events. *)
Inductive steps : pipeline -> list event -> pipeline -> Prop :=
| steps_refl s : steps s [] s
| steps_step s e s' tr s'' : step s e s' -> steps s' tr s'' -> steps s (e :: tr) s''.

(** The state once [stream.play()] has returned (line 205), given the
    data thread's resampler and the inference thread's initial state. *)
Definition initial (rs : Rs) (i0 : InfThread) : pipeline :=
  mkPipeline Streaming true (Mpsc.mkChannel [] 2 true) (Mpsc.mkChannel [] 2 true)
             (TRunning (init W rs)) (TRunning i0).
End Model.

End Pipeline.

Module PipelineInv.
Import Pipeline.

Section Inv.
Context {R : Type -> Type} `{RingBuffer R}.
Context {S Rs Ctx St : Type} `{SampleArith S} `{Resampler Rs S} `{Whisper Ctx St S}.
Variables (W : nat) (host : Host) (code_phrase : string) (ctx : Ctx).

Local Abbreviation step := (step W host code_phrase ctx).
Local Abbreviation steps := (steps W host code_phrase ctx).

(** Live senders of queue A held by the main thread and the stream. *)
Definition qa_main_senders (pc : main_pc) : nat :=
match pc with Streaming => 2 | StreamDropped => 1 | _ => 0 end.

(** [inference_tx], held by the main thread until line 215. *)
Definition qb_main_senders (pc : main_pc) : nat :=
if Nat.ltb (pc_rank pc) 3 then 1 else 0.

Definition b2n (b : bool) : nat := if b then 1 else 0.

(** The invariant of the running program. *)
Definition inv (s : pipeline (R := R) (S := S) (Rs := Rs)) : Prop :=
Mpsc.senders (qa s) = qa_main_senders (pc s) /\
Mpsc.receiver (qa s) = is_running (data s) /\
Mpsc.senders (qb s) = qb_main_senders (pc s) + b2n (is_running (data s)) /\
Mpsc.receiver (qb s) = is_running (inf s) /\
(inf s = TExited -> is_running (data s) = false /\ 3 <= pc_rank (pc s)) /\
(is_running (data s) = false -> 2 <= pc_rank (pc s) \/ data s <> TExited) /\
(4 <= pc_rank (pc s) -> pc_rank (pc s) <= 5 -> data s = TExited) /\
(pc s = Stopped -> inf s = TExited).

Lemma inv_initial rs i0 : inv (initial W rs i0).
Proof. unfold inv, initial; cbn. split_and!; done || lia. Qed.

Lemma recv_channel_fields {A} (c c' : Mpsc.channel A) x :
Mpsc.recv c = Mpsc.Received x c' ->
Mpsc.senders c' = Mpsc.senders c /\ Mpsc.receiver c' = Mpsc.receiver c.
Proof. intros Hr. by apply Mpsc.recv_received in Hr as (_ & ? & ?). Qed.

Lemma capture_channel_fields (frame : list S) c c' :
buffer_stereo_data frame c = Done c' ->
Mpsc.senders c' = Mpsc.senders c /\ Mpsc.receiver c' = Mpsc.receiver c.
Proof.
rewrite MixerFacts.buffer_stereo_data_cases.
destruct (Nat.even _), (Mpsc.receiver c) eqn:E; intros Hc; invc Hc; cbn; by rewrite ?E.
Qed.

Ltac channel_facts :=
repeat match goal with
| Hr : Mpsc.recv _ = Mpsc.Received _ _ |- _ =>
    apply recv_channel_fields in Hr as [? ?]
| Hr : Mpsc.recv _ = Mpsc.Disconnected |- _ =>
    apply Mpsc.recv_disconnected in Hr as [? ?]
| Hsd : Mpsc.send _ _ = Some _ |- _ =>
    pose proof (Mpsc.send_senders _ _ _ Hsd); pose proof (Mpsc.send_receiver _ _ _ Hsd); clear Hsd
| Hc : buffer_stereo_data _ _ = Done _ |- _ =>
    apply capture_channel_fields in Hc as [? ?]
end.

Lemma qa_main_senders_zero p : 0 = qa_main_senders p -> 2 <= pc_rank p.
Proof. destruct p; cbn; lia. Qed.

Lemma qb_senders_zero p b : 0 = qb_main_senders p + b2n b -> b = false /\ 3 <= pc_rank p.
Proof. destruct p, b; cbn; split; done || lia. Qed.

Lemma b2n_true : b2n true = 1.
Proof. reflexivity. Qed.
Lemma b2n_false : b2n false = 0.
Proof. reflexivity. Qed.

Lemma inv_step s e s' : inv s -> step s e s' -> inv s'.
Proof.
intros Hinv Hs. unfold inv in *.
inversion Hs; subst; channel_facts; unfold with_qa; cbn [pc qa qb data inf capture_ok] in *;
  repeat match goal with
  | Hd : data _ = _ |- _ => rewrite Hd in *; clear Hd
  | Hi : inf _ = _ |- _ => rewrite Hi in *; clear Hi
  | Hp : pc _ = _ |- _ => rewrite Hp in *; clear Hp
  end;
  cbn [Mpsc.senders Mpsc.receiver Mpsc.drop_sender Mpsc.drop_receiver is_running
       qa_main_senders qb_main_senders pc_rank Nat.ltb Nat.leb] in *;
  destruct_and?;
  try match goal with
  | Hz : Mpsc.senders ?c = 0, He : Mpsc.senders ?c = qa_main_senders ?p |- _ =>
      pose proof (qa_main_senders_zero _ (eq_trans (eq_sym Hz) He))
  end;
  try match goal with
  | Hz : Mpsc.senders ?c = 0, He : Mpsc.senders ?c = qb_main_senders ?p + b2n ?b |- _ =>
      pose proof (qb_senders_zero _ _ (eq_trans (eq_sym Hz) He)) as [? ?]
  end;
  rewrite ?b2n_true, ?b2n_false in *;
  split_and!; try congruence; naive_solver lia.
Qed.

Lemma steps_inv s tr s' : inv s -> steps s tr s' -> inv s'.
Proof. intros Hi Hs. induction Hs; eauto using inv_step. Qed.

Lemma step_rank s e s' : step s e s' -> pc_rank (pc s) <= pc_rank (pc s').
Proof. intros Hs. inversion Hs; subst; cbn; try lia; match goal with H : pc _ = _ |- _ => rewrite H end; cbn; lia. Qed.

Lemma steps_app_inv s tr1 tr2 s' : steps s (tr1 ++ tr2) s' ->
exists s1, steps s tr1 s1 /\ steps s1 tr2 s'.
Proof.
revert s. induction tr1 as [|e tr1 IH]; intros s Hs; simpl in Hs.
- eexists; split; [constructor|done].
- inversion Hs as [|? ? s0 ? ? Hst Hrest]; subst.
  destruct (IH _ Hrest) as (s1 & ? & ?). exists s1. split; [econstructor|]; eauto.
Qed.

(** The events of a run that hand a window to queue B, and those that
  take one out of it. *)
Fixpoint emitted (tr : list event) : list (list S) :=
match tr with
| [] => []
| EvData _ (Some w) :: tr' => w :: emitted tr'
| _ :: tr' => emitted tr'
end.
Fixpoint inferred (tr : list event) : list (list S) :=
match tr with
| [] => []
| EvInfer w :: tr' => w :: inferred tr'
| _ :: tr' => inferred tr'
end.

Lemma step_inf_panicked s e s' m : step s e s' -> inf s = TPanicked m -> inf s' = TPanicked m.
Proof. intros Hs Hi. inversion Hs; subst; cbn; congruence. Qed.

Lemma steps_inf_panicked s tr s' m : steps s tr s' -> inf s = TPanicked m -> inf s' = TPanicked m.
Proof. induction 1; eauto using step_inf_panicked. Qed.

Lemma steps_fifo s tr s' : steps s tr s' -> (forall m, inf s' <> TPanicked m) ->
Mpsc.queue (qb s) ++ emitted tr = inferred tr ++ Mpsc.queue (qb s').
Proof.
induction 1 as [s|s e s1 tr s2 Hs Hrest IH]; intros Hnp.
- by rewrite app_nil_r.
- specialize (IH Hnp).
  inversion Hs; subst; cbn [emitted inferred qb inf with_qa Mpsc.queue Mpsc.drop_sender] in *;
    try exact IH.
  + match goal with Hsd : Mpsc.send _ _ = Some _ |- _ => apply Mpsc.send_queue in Hsd; rewrite Hsd in IH end.
    by rewrite <- app_assoc in IH.
  + match goal with Hr : Mpsc.recv _ = Mpsc.Received _ _ |- _ =>
      apply Mpsc.recv_received in Hr as (Hq & _ & _) end.
    rewrite Hq. cbn. by rewrite IH.
  + exfalso. eapply Hnp, steps_inf_panicked; [exact Hrest|done].
  + match goal with Hr : Mpsc.recv _ = Mpsc.Disconnected |- _ =>
      apply Mpsc.recv_disconnected in Hr as (Hq & _) end.
    rewrite Hq. exact IH.
Qed.

(** The measure that every action after the stop signal decreases. *)
Definition measure (s : pipeline (R := R) (S := S) (Rs := Rs)) : nat :=
2 * length (Mpsc.queue (qa s)) + length (Mpsc.queue (qb s)) +
b2n (is_running (data s)) + b2n (is_running (inf s)) + (6 - pc_rank (pc s)).

Lemma step_measure s e s' : pc s <> Streaming -> step s e s' -> measure s' < measure s.
Proof.
intros Hpc Hs. unfold measure.
inversion Hs; subst; cbn [pc qa qb data inf Mpsc.queue Mpsc.drop_receiver Mpsc.drop_sender] in *;
  try congruence;
  repeat match goal with
  | Hr : Mpsc.recv _ = Mpsc.Received _ _ |- _ => apply Mpsc.recv_received in Hr as (? & _ & _)
  | Hsd : Mpsc.send _ _ = Some _ |- _ => apply Mpsc.send_queue in Hsd
  | Hd : data _ = _ |- _ => rewrite Hd; clear Hd
  | Hi : inf _ = _ |- _ => rewrite Hi; clear Hi
  | Hp : pc _ = _ |- _ => rewrite Hp; clear Hp
  | Hq : Mpsc.queue _ = _ |- _ => rewrite Hq; clear Hq
  end; cbn; rewrite ?length_app; cbn; try lia;
  destruct (is_running (inf s)), (is_running (data s)); cbn; lia.
Qed.
End Inv.
End PipelineInv.

Module PipelineProps.
Import Pipeline PipelineInv.

Section Props.
Context {R : Type -> Type} `{RingBuffer R}.
Context {S Rs Ctx St : Type} `{SampleArith S} `{Resampler Rs S} `{Whisper Ctx St S}.
Variables (W : nat) (host : Host) (code_phrase : string) (ctx : Ctx).

Local Abbreviation step := (step W host code_phrase ctx).
Local Abbreviation steps := (steps W host code_phrase ctx).

(** C3: in every run of the program, the data thread returns
  only once the stream and [audio_tx] are dropped, the inference thread
  returns only once the data thread has ended and [inference_tx] is
  dropped, and the main thread reaches its end only after both threads
  returned (spec 4.5: producer-to-consumer shutdown order). *)
Theorem shutdown_order rs i0 tr s :
steps (initial W rs i0) tr s ->
(data s = TExited -> 2 <= pc_rank (pc s)) /\
(inf s = TExited -> is_running (data s) = false /\ 3 <= pc_rank (pc s)) /\
(pc s = Stopped -> data s = TExited /\ inf s = TExited).
Proof.
intros Hrun. pose proof (steps_inv W host code_phrase ctx _ _ _ (inv_initial W rs i0) Hrun)
  as (_ & _ & _ & _ & Hinf & Hdat & Hjoin & Hstop).
split_and!.
- intros Hd. rewrite Hd in Hdat. destruct (Hdat eq_refl); [done|congruence].
- done.
- intros Hp. split; [apply Hjoin; rewrite Hp; cbn; lia|by apply Hstop].
Qed.

(** C8: after the stop signal no frame is ever mixed into
  queue A (spec 8, shutdown property). *)
Theorem no_capture_after_stop rs i0 tr1 tr2 s :
steps (initial W rs i0) (tr1 ++ EvStop :: tr2) s ->
forall frame, EvCapture frame ∉ tr2.
Proof.
intros Hrun frame. apply steps_app_inv in Hrun as (s1 & _ & Hrun).
inversion Hrun as [|? ? s2 ? ? Hstop Hrest]; subst.
assert (Hpc : 1 <= pc_rank (pc s2)) by (inversion Hstop; cbn; lia).
clear Hrun Hstop. revert Hpc.
induction Hrest as [|a e b tr c Hab Hbc IH]; intros Hpc; [apply not_elem_of_nil|].
rewrite elem_of_cons. intros [Heq|Hin].
- subst e. inversion Hab; subst. match goal with H : pc _ = Streaming |- _ => rewrite H in Hpc end.
  cbn in Hpc. lia.
- pose proof (step_rank W host code_phrase ctx _ _ _ Hab). exact (IH ltac:(lia) Hin).
Qed.

(** C2: queue B delivers windows in order, without loss or
  duplication: in every run in which the inference thread has not
  panicked, the windows it has transcribed followed by those still
  queued are exactly the windows the data thread has emitted (spec 5,
  ordering guarantees). *)
Theorem windows_fifo rs i0 tr s :
steps (initial W rs i0) tr s -> (forall m, inf s <> TPanicked m) ->
emitted tr = inferred tr ++ Mpsc.queue (qb s).
Proof. intros Hrun Hnp. apply (steps_fifo W host code_phrase ctx _ _ _ Hrun Hnp). Qed.

(** C6: once the stop signal has been received, every execution
  is finite, whatever the interleaving of the threads: shutdown cannot
  run forever (spec 4.5, Draining reaches a final state). *)
Theorem shutdown_terminates (s : pipeline (R := R) (S := S) (Rs := Rs)) :
pc s <> Streaming -> Acc (fun b a => exists e, step a e b) s.
Proof.
intros Hpc. remember (measure s) as n eqn:Hn. revert s Hpc Hn.
induction n as [n IH] using lt_wf_ind. intros s Hpc ->.
constructor. intros s' [e Hs]. apply (IH (measure s')); [by eapply step_measure|..|done].
pose proof (step_rank W host code_phrase ctx _ _ _ Hs). destruct (pc s), (pc s'); cbn in *; try done; lia.
Qed.

Lemma data_can_step (s : pipeline (R := R) (S := S) (Rs := Rs)) st :
data s = TRunning st -> Mpsc.senders (qa s) = 0 -> exists e s', step s e s'.
Proof.
intros Hd Hsd. destruct (Mpsc.recv (qa s)) as [chunk qa'| |] eqn:Hr.
- destruct (on_samples W chunk st) as [[st' [w|]]|m] eqn:Ho.
  + destruct (Mpsc.send w (qb s)) eqn:Hs.
    * do 2 eexists. eapply step_data_emit; eauto.
    * do 2 eexists. eapply step_data_send_panic; eauto.
  + do 2 eexists. eapply step_data_none; eauto.
  + do 2 eexists. eapply step_data_panic; eauto.
- do 2 eexists. eapply step_data_exit; eauto.
- apply Mpsc.recv_blocked in Hr as [_ Hr]. congruence.
Qed.

Lemma inf_can_step (s : pipeline (R := R) (S := S) (Rs := Rs)) i :
inf s = TRunning i -> Mpsc.senders (qb s) = 0 -> exists e s', step s e s'.
Proof.
intros Hi Hsd. destruct (Mpsc.recv (qb s)) as [w qb'| |] eqn:Hr.
- destruct (process_window host code_phrase ctx w i) as [i'|m] eqn:Hp.
  + do 2 eexists. eapply step_inf; eauto.
  + do 2 eexists. eapply step_inf_panic; eauto.
- do 2 eexists. eapply step_inf_exit; eauto.
- apply Mpsc.recv_blocked in Hr as [_ Hr]. congruence.
Qed.

(** Under the invariant, only a returned or panicked main is stuck. *)
Lemma inv_progress s : inv s -> pc s <> Stopped -> (forall m, pc s <> MainPanicked m) ->
exists e s', step s e s'.
Proof.
intros (Ha & _ & Hb & _ & _ & _ & Hjoin & _) Hstop Hpanic.
destruct (pc s) eqn:Hpc.
- do 2 eexists. by apply step_stop.
- do 2 eexists. by apply step_drop_audio_tx.
- do 2 eexists. by apply step_drop_inference_tx.
- destruct (data s) as [st| |m] eqn:Hd.
  + apply (data_can_step s st Hd). by rewrite Ha.
  + do 2 eexists. by apply step_join_data.
  + do 2 eexists. by eapply step_join_data_panic.
- rewrite Hjoin in Hb by (cbn; lia). cbn in Hb.
  destruct (inf s) as [i| |m] eqn:Hi.
  + by apply (inf_can_step s i Hi).
  + do 2 eexists. by apply step_join_inf.
  + do 2 eexists. by eapply step_join_inf_panic.
- done.
- by destruct (Hpanic msg).
Qed.

(** C7: no reachable state deadlocks: until the main thread
  has returned or panicked, some context can always take a step
  (the stop signal, a shutdown action, or a step of a thread that is
  not blocked on an empty queue whose senders are gone). *)
Theorem pipeline_progress rs i0 tr s :
steps (initial W rs i0) tr s -> pc s <> Stopped -> (forall m, pc s <> MainPanicked m) ->
exists e s', step s e s'.
Proof.
intros Hrun. apply inv_progress.
exact (steps_inv W host code_phrase ctx _ _ _ (inv_initial W rs i0) Hrun).
Qed.

Lemma step_after_stop (s s' : pipeline (R := R) (S := S) (Rs := Rs)) e :
pc s <> Streaming -> step s e s' -> pc s' <> Streaming.
Proof.
intros Hpc Hs Hs'. pose proof (step_rank W host code_phrase ctx _ _ _ Hs) as Hr.
rewrite Hs' in Hr. destruct (pc s); cbn in Hr; done || lia.
Qed.

Lemma measure_bound (s : pipeline (R := R) (S := S) (Rs := Rs)) :
measure s <= 2 * length (Mpsc.queue (qa s)) + length (Mpsc.queue (qb s)) + 8.
Proof. unfold measure. destruct (is_running (data s)), (is_running (inf s)); cbn; lia. Qed.

(** C33: after the stop signal the shutdown takes a bounded
  number of actions, whatever the interleaving: every run from a state
  [s] in which main has left [read_line] has at most twice the chunks
  queued in A, plus the windows queued in B, plus 8 steps. *)
Theorem shutdown_steps_bounded (s s' : pipeline (R := R) (S := S) (Rs := Rs)) tr :
pc s <> Streaming -> steps s tr s' ->
length tr <= 2 * length (Mpsc.queue (qa s)) + length (Mpsc.queue (qb s)) + 8.
Proof.
intros Hpc Hrun. enough (length tr <= measure s) by (pose proof (measure_bound s); lia).
revert Hpc. induction Hrun as [s|s e s1 tr s2 Hs Hrest IH]; intros Hpc; cbn [length]; [lia|].
pose proof (step_measure W host code_phrase ctx _ _ _ Hpc Hs).
specialize (IH (step_after_stop _ _ _ Hpc Hs)). lia.
Qed.

(** From any state of the invariant after the stop signal, main can
  return or panic. *)
Lemma inv_shutdown_completes s : inv s -> pc s <> Streaming ->
exists tr' s', steps s tr' s' /\ (pc s' = Stopped \/ exists m, pc s' = MainPanicked m).
Proof.
remember (measure s) as n eqn:Hn. revert s Hn.
induction n as [n IH] using lt_wf_ind. intros s -> Hinv Hpc.
assert (Hfin : {pc s = Stopped \/ exists m, pc s = MainPanicked m} +
               {pc s <> Stopped /\ forall m, pc s <> MainPanicked m})
  by (destruct (pc s) as [| | | | | |m]; try (left; solve [left; done | right; eauto]);
      right; split; intros; congruence).
destruct Hfin as [Hfin|[Hs Hm]]; [exists [], s; split; [constructor|done]|].
destruct (inv_progress s Hinv Hs Hm) as (e & s1 & Hstep).
destruct (IH (measure s1) (step_measure W host code_phrase ctx _ _ _ Hpc Hstep) s1 eq_refl
            (inv_step W host code_phrase ctx _ _ _ Hinv Hstep) (step_after_stop _ _ _ Hpc Hstep))
  as (tr' & s' & Hrest & Hfin).
exists (e :: tr'), s'. split; [by econstructor|done].
Qed.

(** C34: the shutdown can always complete: from every state
  reachable after the stop signal there is a run to a state in which
  main has returned ([Stopped]) or panicked. *)
Theorem shutdown_completes rs i0 tr s :
steps (initial W rs i0) tr s -> pc s <> Streaming ->
exists tr' s', steps s tr' s' /\ (pc s' = Stopped \/ exists m, pc s' = MainPanicked m).
Proof.
intros Hrun. apply inv_shutdown_completes.
exact (steps_inv W host code_phrase ctx _ _ _ (inv_initial W rs i0) Hrun).
Qed.
End Props.
End PipelineProps.

Module PipelineWitnesses.
Import Pipeline PipelineInv PipelineProps.

Definition ex_rs : Nearest.nearest := Nearest.mk 2 1 1.
Definition ex_i0 : InfThread := mkInf None [] 0 0.
Definition ex_ctx : Scripted.script := [(" hi"%string, 0%Z, 100%Z)].
Definition ex_init : pipeline (R := AllocRing.ring) (S := Q) (Rs := Nearest.nearest) :=
initial 2 ex_rs ex_i0.

Local Abbreviation ex_steps := (steps (R := AllocRing.ring) (S := Q) (Ctx := Scripted.script)
                                (St := Scripted.script) 2 Scripted.quiet_host
                                "the octopus has escaped" ex_ctx).

Ltac take c := eapply steps_step; [eapply c; reflexivity|].

(** A complete session: stop, shutdown of both threads, joins. *)
Lemma ex_shutdown_run : exists s,
ex_steps ex_init [EvStop; EvTau; EvTau; EvTau; EvTau; EvTau; EvTau] s /\ pc s = Stopped.
Proof.
eexists. split.
- take step_stop. take step_drop_audio_tx. take step_data_exit.
  take step_drop_inference_tx. take step_inf_exit. take step_join_data. take step_join_inf.
  apply steps_refl.
- reflexivity.
Qed.

Example shutdown_order_witness : exists s,
ex_steps ex_init [EvStop; EvTau; EvTau; EvTau; EvTau; EvTau; EvTau] s /\
(data s = TExited -> 2 <= pc_rank (pc s)) /\
(inf s = TExited -> is_running (data s) = false /\ 3 <= pc_rank (pc s)) /\
(pc s = Stopped -> data s = TExited /\ inf s = TExited).
Proof.
destruct ex_shutdown_run as (s & Hrun & _). exists s. split; [exact Hrun|].
exact (shutdown_order _ _ _ _ _ _ _ _ Hrun).
Defined.

Example no_capture_after_stop_witness : exists s,
ex_steps ex_init ([EvCapture [1; 3; 2; 6]%Q] ++ EvStop :: [EvTau]) s /\
forall frame, EvCapture frame ∉ [EvTau (S := Q)].
Proof.
eexists. split.
- take step_capture. take step_stop. take step_drop_audio_tx. apply steps_refl.
- intros frame. eapply (no_capture_after_stop 2 Scripted.quiet_host "the octopus has escaped" ex_ctx
                         ex_rs ex_i0 [EvCapture [1; 3; 2; 6]%Q]).
  take step_capture. take step_stop. take step_drop_audio_tx. apply steps_refl.
Defined.

(** A window goes through the whole pipeline: a stereo frame of 4 samples
  is mixed to 2 mono samples, which fill the 2-sample window, which is
  resampled, queued and transcribed. *)
Lemma ex_window_run : exists tr s,
ex_steps ex_init tr s /\ length tr = 3 /\ (forall m, inf s <> TPanicked m).
Proof.
do 2 eexists. split.
- eapply steps_step; [eapply (step_capture _ _ _ _ _ [1; 3; 2; 6]%Q); reflexivity|].
  take step_data_emit. take step_inf. apply steps_refl.
- split; [reflexivity|]. intros m. discriminate.
Qed.

Example windows_fifo_witness : exists tr s,
ex_steps ex_init tr s /\ length tr = 3 /\ emitted tr = inferred tr ++ Mpsc.queue (qb s).
Proof.
destruct ex_window_run as (tr & s & Hrun & Hlen & Hnp). exists tr, s.
split_and!; [exact Hrun|exact Hlen|].
exact (windows_fifo _ _ _ _ _ _ _ _ Hrun Hnp).
Defined.

Example shutdown_terminates_witness :
Acc (fun b a => exists e, step (R := AllocRing.ring) (S := Q) (Ctx := Scripted.script)
                            (St := Scripted.script) 2 Scripted.quiet_host
                            "the octopus has escaped" ex_ctx a e b)
    (mkPipeline StreamDropped true (Mpsc.mkChannel [] 1 true) (Mpsc.mkChannel [] 2 true)
                (TRunning (init 2 ex_rs)) (TRunning ex_i0)).
Proof. apply shutdown_terminates. discriminate. Defined.

Example pipeline_progress_witness : exists e s',
step (R := AllocRing.ring) (S := Q) (Ctx := Scripted.script) (St := Scripted.script)
     2 Scripted.quiet_host "the octopus has escaped" ex_ctx ex_init e s'.
Proof.
eapply (pipeline_progress _ _ _ _ ex_rs ex_i0 []); [apply steps_refl|discriminate|discriminate].
Defined.
(** The state right after the stop signal, and a complete shutdown from it. *)
Definition ex_stopped : pipeline (R := AllocRing.ring) (S := Q) (Rs := Nearest.nearest) :=
mkPipeline StreamDropped true (Mpsc.mkChannel [] 1 true) (Mpsc.mkChannel [] 2 true)
           (TRunning (init 2 ex_rs)) (TRunning ex_i0).

Lemma ex_stopped_run : exists s', ex_steps ex_stopped [EvTau; EvTau; EvTau; EvTau; EvTau; EvTau] s'.
Proof.
eexists. take step_drop_audio_tx. take step_data_exit. take step_drop_inference_tx.
take step_inf_exit. take step_join_data. take step_join_inf. apply steps_refl.
Qed.

Example shutdown_steps_bounded_witness : exists s',
ex_steps ex_stopped [EvTau; EvTau; EvTau; EvTau; EvTau; EvTau] s' /\ pc ex_stopped <> Streaming /\
length [EvTau (S := Q); EvTau; EvTau; EvTau; EvTau; EvTau] <=
  2 * length (Mpsc.queue (qa ex_stopped)) + length (Mpsc.queue (qb ex_stopped)) + 8.
Proof.
destruct ex_stopped_run as (s' & Hrun). exists s'. split_and!; [exact Hrun|discriminate|].
exact (shutdown_steps_bounded _ _ _ _ _ _ _ (ltac:(discriminate) : pc ex_stopped <> Streaming) Hrun).
Defined.

Example shutdown_completes_witness : exists s,
ex_steps ex_init [EvStop] s /\ pc s <> Streaming /\
exists tr' s', ex_steps s tr' s' /\ (pc s' = Stopped \/ exists m, pc s' = MainPanicked m).
Proof.
assert (Hrun : exists s, ex_steps ex_init [EvStop] s /\ pc s <> Streaming)
  by (eexists; split; [take step_stop; apply steps_refl|discriminate]).
destruct Hrun as (s & Hrun & Hpc). exists s. split_and!; [exact Hrun|exact Hpc|].
exact (shutdown_completes _ _ _ _ ex_rs ex_i0 _ _ Hrun Hpc).
Defined.
End PipelineWitnesses.
