(* ===== verification/EndToEnd.v ===== *)
(** * EndToEnd: the composition of the capture callback, the data thread
    and the inference thread

    [Pipeline] proves properties of each queue and of the shutdown;
    [Accumulator] proves that the data thread alone refines the spec's
    windowing.  This file puts them together on the runs of the whole
    program ([Pipeline.steps] from [Pipeline.initial]): whatever the
    interleaving of the three contexts,

    - queue A is FIFO: the chunks the data thread has consumed, followed by
      those still queued, are the captured frames mixed to mono;
    - the data thread's state is always the result of [run_chunks] on the
      chunks it consumed, so it never panics while the inference thread is
      alive, and its ring stays well formed;
    - hence the windows transcribed, followed by those queued in B, are the
      resampler applied to the spec's windows ([spec_windows]) of the spec's
      mix ([spec_mix 2]) of a prefix of the captured audio.

    The observers [captured] and [consumed] read a run's trace like
    [emitted] and [inferred] of [PipelineInv]. *)

From Stdlib Require Import String ZArith QArith Lia.
From stdpp Require Import base list.
From S2P Require Import Prelude Channel Mixer Ring Accumulator Text Dispatcher Pipeline.

Import Pipeline PipelineInv Accumulator AccumulatorSpec Mixer MixerFacts.

Module EndToEnd.

Section Observers.
Context {R : Type -> Type} `{RingBuffer R}.
Context {S Rs Ctx St : Type} `{SampleArith S} `{Resampler Rs S} `{Whisper Ctx St S}.

(** The frames the capture callback mixed into queue A. *)
Fixpoint captured (tr : list (event (S := S))) : list (list S) :=
  match tr with
  | [] => []
  | EvCapture f :: tr' => f :: captured tr'
  | _ :: tr' => captured tr'
  end.

(** The chunks the data thread took out of queue A. *)
Fixpoint consumed (tr : list (event (S := S))) : list (list S) :=
  match tr with
  | [] => []
  | EvData c _ :: tr' => c :: consumed tr'
  | _ :: tr' => consumed tr'
  end.

(** A frame the driver can hand over: at most the largest [Vec<f32>]. *)
Definition frame_ok (f : list S) : Prop := (Z.of_nat (length f) <= max_vec_f32)%Z.
End Observers.

Ltac observer_app :=
  let e := fresh "e" in
  let tr1 := fresh "tr1" in
  let IH := fresh "IH" in
  intros tr1; induction tr1 as [|e tr1 IH]; intros; [done|];
  destruct e as [| ? [] | | |]; cbn; by rewrite ?IH.

Section Facts.
Context {R : Type -> Type} `{RingBuffer R}.
Context {S Rs Ctx St : Type} `{SampleArith S} `{Resampler Rs S} `{Whisper Ctx St S}.
Implicit Types (tr : list (event (S := S))).

Lemma captured_app tr1 tr2 : captured (tr1 ++ tr2) = captured tr1 ++ captured tr2.
Proof. revert tr1. observer_app. Qed.
Lemma consumed_app tr1 tr2 : consumed (tr1 ++ tr2) = consumed tr1 ++ consumed tr2.
Proof. revert tr1. observer_app. Qed.
Lemma emitted_app tr1 tr2 : emitted (tr1 ++ tr2) = emitted tr1 ++ emitted tr2.
Proof. revert tr1. observer_app. Qed.
Lemma inferred_app tr1 tr2 : inferred (tr1 ++ tr2) = inferred tr1 ++ inferred tr2.
Proof. revert tr1. observer_app. Qed.

(** What a successful call of the callback puts in queue A. *)
Lemma capture_queue (f : list S) c c' : buffer_stereo_data f c = Done c' ->
  Nat.Even (length f) /\ Mpsc.queue c' = Mpsc.queue c ++ [mix_pairs f].
Proof.
  rewrite buffer_stereo_data_cases. destruct (Nat.even _) eqn:E, (Mpsc.receiver c);
    intros Hc; invc Hc. split; [by apply Nat.even_spec|done].
Qed.

Lemma mix_pairs_ok (f : list S) : frame_ok f -> chunk_ok (mix_pairs f).
Proof.
  unfold frame_ok, chunk_ok. rewrite length_mix_pairs. intros Hf.
  pose proof (Nat.Div0.div_le_upper_bound (length f) 2 (length f)). lia.
Qed.

Lemma send_none_receiver {A} (x : A) c : Mpsc.send x c = None -> Mpsc.receiver c = false.
Proof. unfold Mpsc.send. by destruct (Mpsc.receiver c). Qed.

Lemma spec_mix_2_frames (fs : list (list S)) : Forall (fun f => Nat.Even (length f)) fs ->
  map mix_pairs fs = map (spec_mix 2) fs.
Proof.
  intros Hev. apply map_ext_Forall. eapply Forall_impl; [exact Hev|]. intros f Hf.
  unfold spec_mix. symmetry. apply spec_mix_fuel_2; [done|lia].
Qed.
End Facts.

(** ** The loop of the data thread, one chunk at a time *)

Section Snoc.
Context {R : Type -> Type} `{RingBuffer R} {S Rs : Type} `{Resampler Rs S}.
Variable W : nat.

Lemma run_chunks_snoc cs c : forall (st0 st : DataThread R S Rs) ws,
  run_chunks W cs st0 = Done (st, ws) ->
  run_chunks W (cs ++ [c]) st0 =
    (p <-! on_samples W c st ;; let '(st', o) := p in Done (st', ws ++ option_list o))%vk.
Proof.
  induction cs as [|c0 cs IH]; intros st0 st ws Hrun; cbn [run_chunks app] in *.
  - invc Hrun. destruct (on_samples W c st) as [[st' o]|m]; cbn; [by rewrite app_nil_r|done].
  - destruct (on_samples W c0 st0) as [[st1 o1]|m]; cbn in Hrun |- *; [|done].
    destruct (run_chunks W cs st1) as [[st2 ws2]|m] eqn:E; cbn in Hrun; [|done]. invc Hrun.
    rewrite (IH _ _ _ E). destruct (on_samples W c st) as [[st3 o3]|m]; cbn; [by rewrite app_assoc|done].
Qed.
End Snoc.

(** ** The composition invariant *)

Section Composition.
Context {R : Type -> Type} `{RingBufferLaws R}.
Context {S Rs Ctx St : Type} `{SampleArith S} `{ResamplerLaws Rs S} `{Whisper Ctx St S}.
Variables (W : nat) (host : Host) (code_phrase : string) (ctx : Ctx) (rs : Rs).
Hypothesis HW : 0 < W.
Hypothesis HWmax : (Z.of_nat W <= max_vec_f32)%Z.
Hypothesis Hin : rs_input_frames rs = W.
Hypothesis Hch : rs_channels rs = 1.

Local Abbreviation step := (step W host code_phrase ctx).
Local Abbreviation steps := (steps W host code_phrase ctx).
Implicit Types (tr : list (event (S := S))) (s : pipeline (R := R) (S := S) (Rs := Rs)).

(** Queue A and the data thread against the trace of a run. *)
Definition e2e_inv tr s : Prop :=
  consumed tr ++ Mpsc.queue (qa s) = map mix_pairs (captured tr) /\
  Forall chunk_ok (Mpsc.queue (qa s)) /\ Forall chunk_ok (consumed tr) /\
  Forall (fun f => Nat.Even (length f)) (captured tr) /\
  exists st, (data s = TRunning st \/ data s = TExited) /\
    run_chunks W (consumed tr) (init W rs) = Done (st, emitted tr).

Lemma e2e_inv_initial i0 : e2e_inv [] (initial W rs i0).
Proof. split_and!; try constructor. exists (init W rs). cbn. auto. Qed.

(** The state reached by the loop satisfies the accumulator's invariant. *)
Lemma e2e_acc_inv cs st ws : Forall chunk_ok cs -> run_chunks W cs (init W rs) = Done (st, ws) ->
  exists pending, acc_inv W (concat cs) pending st.
Proof.
  intros Hok Hrun.
  destruct (run_chunks_refines W HW HWmax cs [] 0 (init W rs) (acc_inv_init W HW rs Hin Hch) Hok)
    as (st' & outs & p & Hrun' & _ & Hinv). rewrite Hrun in Hrun'. invc Hrun'. eauto.
Qed.

Lemma recv_fifo (c : Mpsc.channel (list S)) chunk c' cs (M : list (list S)) :
  cs ++ Mpsc.queue c = M -> Forall chunk_ok (Mpsc.queue c) -> Forall chunk_ok cs ->
  Mpsc.recv c = Mpsc.Received chunk c' ->
  (cs ++ [chunk]) ++ Mpsc.queue c' = M /\ Forall chunk_ok (Mpsc.queue c') /\
  Forall chunk_ok (cs ++ [chunk]) /\ chunk_ok chunk.
Proof.
  intros Hf Hq Hc Hr. apply Mpsc.recv_received in Hr as (Hqc & _ & _).
  rewrite Hqc in Hf, Hq. apply Forall_cons in Hq as [Hch' Hq].
  rewrite <- app_assoc. split_and!; [done|done| |done]. apply Forall_app_2; [done|by constructor].
Qed.

Lemma run_chunks_step cs c (st st' : DataThread R S Rs) ws o :
  run_chunks W cs (init W rs) = Done (st, ws) -> on_samples W c st = Done (st', o) ->
  run_chunks W (cs ++ [c]) (init W rs) = Done (st', ws ++ option_list o).
Proof. intros Hr Ho. by rewrite (run_chunks_snoc W cs c _ _ _ Hr), Ho. Qed.

(** While the inference thread has not panicked, the data thread's sends
    into queue B succeed. *)
Lemma send_alive s st (w : list S) : inv s -> data s = TRunning st ->
  (forall m, inf s <> TPanicked m) -> Mpsc.send w (qb s) <> None.
Proof.
  intros (_ & _ & _ & Hrb & Hexit & _) Hd Hnp Hsend. apply send_none_receiver in Hsend.
  rewrite Hrb in Hsend. destruct (inf s) eqn:Hi; [done| |by destruct (Hnp msg)].
  destruct (Hexit eq_refl) as [Hr _]. by rewrite Hd in Hr.
Qed.

(** A chunk within bounds never makes the data thread panic. *)
Lemma on_samples_alive cs st ws c msg : Forall chunk_ok cs -> chunk_ok c ->
  run_chunks W cs (init W rs) = Done (st, ws) -> on_samples W c st <> Panicked msg.
Proof.
  intros Hok Hc Hrun Hp. destruct (e2e_acc_inv cs st ws Hok Hrun) as [pending Hacc].
  destruct (on_samples_step W HW HWmax _ _ _ c Hacc Hc) as (st' & o & Hon & _). congruence.
Qed.

Lemma e2e_step tr s e s' : inv s -> e2e_inv tr s -> step s e s' ->
  (forall m, inf s' <> TPanicked m) -> (forall f, e = EvCapture f -> frame_ok f) ->
  e2e_inv (tr ++ [e]) s'.
Proof.
  intros Hinv HJ Hs. unfold e2e_inv. rewrite captured_app, consumed_app, emitted_app.
  revert Hinv HJ.
  destruct Hs; intros Hinv (Hfifo & Hqok & Hcok & Hev & stA & Hdata & Hrun) Hnp Hfr;
    cbn [captured consumed emitted with_qa qa qb data inf] in *;
    rewrite ?app_nil_r; try (split_and!; eauto; done).
  - (* the callback enqueues a mixed frame *)
    match goal with Hb : buffer_stereo_data _ _ = Done _ |- _ => apply capture_queue in Hb as [Hf ->] end.
    rewrite app_assoc, Hfifo, map_app. split_and!; eauto using Forall_app_2.
    apply Forall_app_2; [done|]. constructor; [|done]. by apply mix_pairs_ok, Hfr.
  - (* a chunk without a window *)
    match goal with Hr : Mpsc.recv _ = _, Hd : data s = TRunning _, Ho : on_samples _ _ _ = _ |- _ =>
      destruct (recv_fifo _ _ _ _ _ Hfifo Hqok Hcok Hr) as (? & ? & ? & _);
      rewrite Hd in Hdata; destruct Hdata as [Hst|]; [injection Hst as ->|done];
      pose proof (run_chunks_step _ _ _ _ _ _ Hrun Ho) end.
    cbn [option_list] in *. rewrite app_nil_r in *. split_and!; eauto.
  - (* a chunk that completes a window *)
    match goal with Hr : Mpsc.recv _ = _, Hd : data s = TRunning _, Ho : on_samples _ _ _ = _ |- _ =>
      destruct (recv_fifo _ _ _ _ _ Hfifo Hqok Hcok Hr) as (? & ? & ? & _);
      rewrite Hd in Hdata; destruct Hdata as [Hst|]; [injection Hst as ->|done];
      pose proof (run_chunks_step _ _ _ _ _ _ Hrun Ho) end.
    split_and!; eauto.
  - (* the send into queue B cannot fail *)
    exfalso. match goal with Hd : data s = TRunning _, Hsd : Mpsc.send _ _ = None |- _ =>
      exact (send_alive _ _ _ Hinv Hd Hnp Hsd) end.
  - (* on_samples cannot panic *)
    exfalso. match goal with Hr : Mpsc.recv _ = _, Hd : data s = TRunning _, Ho : on_samples _ _ _ = _ |- _ =>
      destruct (recv_fifo _ _ _ _ _ Hfifo Hqok Hcok Hr) as (_ & _ & _ & Hc);
      rewrite Hd in Hdata; destruct Hdata as [Hst|]; [injection Hst as ->|done];
      exact (on_samples_alive _ _ _ _ _ Hcok Hc Hrun Ho) end.
  - (* the loop ends on a disconnected, hence empty, queue A *)
    match goal with Hr : Mpsc.recv _ = Mpsc.Disconnected |- _ =>
      apply Mpsc.recv_disconnected in Hr as [Hq _] end.
    rewrite Hq, app_nil_r in Hfifo. split_and!; eauto.
Qed.

Lemma e2e_steps s tr s' : steps s tr s' -> forall tr0, inv s -> e2e_inv tr0 s ->
  (forall m, inf s' <> TPanicked m) -> Forall frame_ok (captured tr) -> e2e_inv (tr0 ++ tr) s'.
Proof.
  induction 1 as [s|s e s1 tr s2 Hs Hrest IH]; intros tr0 Hinv HJ Hnp Hfr; [by rewrite app_nil_r|].
  replace (tr0 ++ e :: tr) with ((tr0 ++ [e]) ++ tr) by (by rewrite <- app_assoc).
  assert (Hfr' : (forall f, e = EvCapture f -> frame_ok f) /\ Forall frame_ok (captured tr))
    by (destruct e; cbn in Hfr; try apply Forall_cons in Hfr as [? ?]; split; congruence || done).
  destruct Hfr' as [Hfe Hfr']. apply IH; [eapply inv_step; eauto| |done|done].
  apply (e2e_step tr0 s e s1 Hinv HJ Hs); [|done].
  intros m Hm. eapply Hnp, steps_inf_panicked; eauto.
Qed.

(** The data thread's state: its ring and counter satisfy the
    accumulator's invariant for some history, and queue A holds chunks
    within bounds. *)
Definition data_inv s : Prop :=
  Forall chunk_ok (Mpsc.queue (qa s)) /\
  forall st, data s = TRunning st -> exists hist pending, acc_inv W hist pending st.

Lemma data_inv_step s e s' : data_inv s -> step s e s' ->
  (forall f, e = EvCapture f -> frame_ok f) -> data_inv s'.
Proof.
  intros (Hq & Hst) Hs. destruct Hs; intros Hfr; unfold data_inv;
    cbn [with_qa qa data Mpsc.queue Mpsc.drop_receiver Mpsc.drop_sender] in *;
    try (split; [done|intros ? Hd; discriminate Hd]); try (split; [done|exact Hst]).
  1: { match goal with Hb : buffer_stereo_data _ _ = Done _ |- _ => apply capture_queue in Hb as [_ ->] end.
    split; [|exact Hst]. apply Forall_app_2; [done|]. constructor; [|done]. by apply mix_pairs_ok, Hfr. }
  all: match goal with
    | Hr : Mpsc.recv _ = Mpsc.Received _ _, Hd : data _ = TRunning _, Ho : on_samples _ _ _ = Done _ |- _ =>
        destruct (recv_fifo _ _ _ [] _ eq_refl Hq (Forall_nil_2 _) Hr) as (_ & Hq' & _ & Hc);
        destruct (Hst _ Hd) as (hist & pending & Hacc);
        destruct (on_samples_step W HW HWmax _ _ _ _ Hacc Hc) as (st2 & o2 & Ho2 & _ & Hacc2 & _);
        rewrite Ho in Ho2; injection Ho2 as <- <-
    end; split; [done|]; intros ? Hd'; injection Hd' as <-; eauto.
Qed.

Lemma data_inv_steps s tr s' : steps s tr s' -> data_inv s -> Forall frame_ok (captured tr) -> data_inv s'.
Proof.
  induction 1 as [s|s e s1 tr s2 Hs Hrest IH]; intros HK Hfr; [done|].
  assert (Hfr' : (forall f, e = EvCapture f -> frame_ok f) /\ Forall frame_ok (captured tr))
    by (destruct e; cbn in Hfr; try apply Forall_cons in Hfr as [? ?]; split; congruence || done).
  destruct Hfr' as [Hfe Hfr']. apply IH; [|done]. by apply (data_inv_step s e s1).
Qed.

(** C31: end-to-end refinement of the whole program.  In every
    run, whatever the interleaving of the capture callback, the data
    thread, the inference thread and the shutdown, as long as the
    inference thread has not panicked and the driver hands over frames of
    at most [max_vec_f32] samples: the data thread has not panicked, and
    the windows transcribed so far, followed by those waiting in queue B,
    are exactly the resampler applied to the spec's windows of a prefix
    [chunks] of the captured audio mixed by the spec's mixer, the rest of
    which is still in queue A. *)
Theorem pipeline_refines_spec i0 tr s :
  steps (initial W rs i0) tr s -> Forall frame_ok (captured tr) ->
  (forall m, inf s <> TPanicked m) ->
  (forall m, data s <> TPanicked m) /\
  exists chunks rs', chunks ++ Mpsc.queue (qa s) = map (spec_mix 2) (captured tr) /\
    rs_run rs (spec_windows W 0 [] chunks) = Some (rs', inferred tr ++ Mpsc.queue (qb s)).
Proof.
  intros Hrun Hfr Hnp.
  pose proof (e2e_steps _ _ _ Hrun [] (inv_initial W rs i0) (e2e_inv_initial i0) Hnp Hfr) as HJ.
  cbn [app] in HJ. destruct HJ as (Hfifo & _ & Hcok & Hev & st & Hdata & Hrun').
  split; [intros m; by destruct Hdata as [-> | ->]|].
  destruct (run_chunks_refines W HW HWmax (consumed tr) [] 0 (init W rs) (acc_inv_init W HW rs Hin Hch) Hcok)
    as (st' & outs & p & Hr & Hrs & _).
  rewrite Hr in Hrun'. injection Hrun' as -> ->.
  exists (consumed tr), (resampler st). split; [by rewrite Hfifo, spec_mix_2_frames|].
  cbn [resampler init] in Hrs. rewrite Hrs. do 2 f_equal.
  exact (steps_fifo W host code_phrase ctx _ _ _ Hrun Hnp).
Qed.

(** C32: well-formedness of the data thread's state in every
    run (frames within [max_vec_f32]): while it runs, its ring is well
    formed with capacity [W] and holds at most [W] samples, its counter
    is below [W], and its resampler takes chunks of [W] samples in one
    channel, so the next [process] call cannot fail on the window's
    shape. *)
Theorem data_thread_state_wf i0 tr s st :
  steps (initial W rs i0) tr s -> Forall frame_ok (captured tr) -> data s = TRunning st ->
  rb_wf (buffer st) /\ rb_capacity (buffer st) = W /\ length (rb_to_vec (buffer st)) <= W /\
  sample_count st < W /\ rs_input_frames (resampler st) = W /\ rs_channels (resampler st) = 1.
Proof.
  intros Hrun Hfr Hd.
  assert (Hinit : data_inv (initial W rs i0)).
  { split; [constructor|]. intros st0 Hst0. injection Hst0 as <-. exists [], 0. by apply acc_inv_init. }
  destruct (data_inv_steps _ _ _ Hrun Hinit Hfr) as [_ Hst].
  destruct (Hst _ Hd) as (hist & pending & Hwf & Hcap & Hvec & Hsc & Hp & _ & Hin' & Hch').
  rewrite Hvec, length_lastn. split_and!; done || lia.
Qed.
End Composition.

(** ** The kill pipeline over a run

    Composition of [Dispatcher.process_window] with the runs of
    [Pipeline.step]: the inference thread runs the kill pipeline at most
    once per transcribed window, and writes at most one stderr line per
    pipeline run. *)

Section KillCount.
Context {R : Type -> Type} `{RingBuffer R}.
Context {S Rs Ctx St : Type} `{SampleArith S} `{Resampler Rs S} `{Whisper Ctx St S}.
Variables (W : nat) (host : Host) (code_phrase : string) (ctx : Ctx).
Implicit Types (tr : list (event (S := S))) (s : pipeline (R := R) (S := S) (Rs := Rs)).

(** One segment touches neither the pipeline count nor stderr. *)
Lemma segment_step_counts (state : St) acc i acc' :
  Dispatcher.segment_step host state acc i = Done acc' ->
  Dispatcher.pipes_run acc'.1 = Dispatcher.pipes_run acc.1 /\
  Dispatcher.stderr acc'.1 = Dispatcher.stderr acc.1.
Proof.
  destruct acc as [inf chunk]. unfold Dispatcher.segment_step.
  destruct (w_full_get_segment_text state i); cbn; [|discriminate].
  destruct (Dispatcher.log inf) as [lines|]; cbn; [|by intros [= <-]].
  destruct (w_full_get_segment_t0 state i), (w_full_get_segment_t1 state i); cbn; try discriminate.
  destruct (Dispatcher.host_write_ok host (Dispatcher.clock inf)); cbn; [by intros [= <-]|discriminate].
Qed.

Lemma segments_loop_counts (state : St) idxs : forall acc acc',
  Dispatcher.segments_loop host state idxs acc = Done acc' ->
  Dispatcher.pipes_run acc'.1 = Dispatcher.pipes_run acc.1 /\
  Dispatcher.stderr acc'.1 = Dispatcher.stderr acc.1.
Proof.
  induction idxs as [|i idxs IH]; intros acc acc' Hl; cbn [Dispatcher.segments_loop] in Hl; [by invc Hl|].
  apply obind_done_inv in Hl as (acc1 & Hs1 & Hs2).
  destruct (segment_step_counts _ _ _ _ Hs1), (IH _ _ Hs2). split; congruence.
Qed.

(** The trigger runs the pipeline at most once and logs at most one error. *)
Lemma check_trigger_counts inf chunk : exists d, d <= 1 /\
  Dispatcher.pipes_run (Dispatcher.check_trigger host code_phrase inf chunk) = Dispatcher.pipes_run inf + d /\
  length (Dispatcher.stderr (Dispatcher.check_trigger host code_phrase inf chunk))
    <= length (Dispatcher.stderr inf) + d.
Proof.
  unfold Dispatcher.check_trigger. destruct (Text.contains _ _); [destruct (Dispatcher.host_pipe _ _)|];
    [exists 1|exists 1|exists 0]; cbn [Dispatcher.pipes_run Dispatcher.stderr];
    rewrite ?length_app; cbn [length]; lia.
Qed.

Lemma process_window_counts (w : list S) i i' :
  Dispatcher.process_window host code_phrase ctx w i = Done i' -> exists d, d <= 1 /\
  Dispatcher.pipes_run i' = Dispatcher.pipes_run i + d /\
  length (Dispatcher.stderr i') <= length (Dispatcher.stderr i) + d.
Proof.
  unfold Dispatcher.process_window. intros Hp.
  do 3 apply obind_done_inv in Hp as (? & _ & Hp).
  apply obind_done_inv in Hp as (acc & Hl & Hp). injection Hp as <-.
  apply segments_loop_counts in Hl as [Hpr Hse]. cbn in Hpr, Hse.
  destruct (check_trigger_counts acc.1 acc.2) as (d & Hd & Hp & Hs).
  exists d. rewrite <- Hpr, <- Hse. auto.
Qed.

(** The inference thread, if it runs, has run the pipeline [k] times since
    [i0], for at most as many windows as it has transcribed. *)
Definition pipes_inv (i0 : Dispatcher.InfThread) tr s : Prop :=
  forall i, inf s = TRunning i -> exists k,
    Dispatcher.pipes_run i = Dispatcher.pipes_run i0 + k /\ k <= length (inferred tr) /\
    length (Dispatcher.stderr i) <= length (Dispatcher.stderr i0) + k.

Lemma pipes_inv_step i0 tr s e s' : pipes_inv i0 tr s ->
  step W host code_phrase ctx s e s' -> pipes_inv i0 (tr ++ [e]) s'.
Proof.
  intros HI Hs. unfold pipes_inv. rewrite inferred_app, length_app.
  destruct Hs; cbn [inf with_qa inferred length] in *; intros i1 Hi1; try discriminate;
    try (destruct (HI i1 Hi1) as (k & Hk1 & Hk2 & Hk3); exists k; lia).
  (* the inference thread transcribes a window *)
  injection Hi1 as <-.
  match goal with Hi : inf s = TRunning ?i, Hp : Dispatcher.process_window _ _ _ _ _ = Done _ |- _ =>
    destruct (HI _ Hi) as (k & Hk1 & Hk2 & Hk3);
    destruct (process_window_counts _ _ _ Hp) as (d & Hd & Hd1 & Hd2) end.
  exists (k + d). lia.
Qed.

Lemma pipes_inv_steps i0 s tr s' : steps W host code_phrase ctx s tr s' ->
  forall tr0, pipes_inv i0 tr0 s -> pipes_inv i0 (tr0 ++ tr) s'.
Proof.
  induction 1 as [s|s e s1 tr s2 Hs Hrest IH]; intros tr0 HI; [by rewrite app_nil_r|].
  replace (tr0 ++ e :: tr) with ((tr0 ++ [e]) ++ tr) by (by rewrite <- app_assoc).
  apply IH. by apply (pipes_inv_step i0 tr0 s e s1).
Qed.

(** C37: in every run of the program, whatever the interleaving, the
    inference thread, while it runs, has run the kill pipeline at most once
    per window it has transcribed, and has written at most one
    ["Shell Command error"] line to stderr per pipeline run. *)
Theorem kill_pipeline_runs_bounded (rs : Rs) i0 tr s i :
  steps W host code_phrase ctx (initial W rs i0) tr s -> inf s = TRunning i ->
  exists k, Dispatcher.pipes_run i = Dispatcher.pipes_run i0 + k /\ k <= length (inferred tr) /\
    length (Dispatcher.stderr i) <= length (Dispatcher.stderr i0) + k.
Proof.
  intros Hrun. apply (pipes_inv_steps i0 _ _ _ Hrun []).
  intros i1 Hi1. injection Hi1 as <-. exists 0. lia.
Qed.
End KillCount.
End EndToEnd.

Module EndToEndWitnesses.
Import EndToEnd Dispatcher.

Local Abbreviation ex_steps := (steps (R := AllocRing.ring) (S := Q) (Ctx := Scripted.script)
                                (St := Scripted.script) 2 Scripted.quiet_host
                                "the octopus has escaped" PipelineWitnesses.ex_ctx).

(** The run of [PipelineWitnesses]: a stereo frame of 4 samples is mixed,
    fills the 2-sample window, which is resampled, queued and transcribed. *)
Lemma e2e_window_run : exists tr s (st : DataThread AllocRing.ring Q Nearest.nearest),
  ex_steps (initial 2 PipelineWitnesses.ex_rs PipelineWitnesses.ex_i0) tr s /\
  Forall frame_ok (captured tr) /\ (forall m, inf s <> TPanicked m) /\ data s = TRunning st.
Proof.
  do 3 eexists. split_and!.
  - eapply steps_step; [eapply (step_capture _ _ _ _ _ [1; 3; 2; 6]%Q); reflexivity|].
    eapply steps_step; [eapply step_data_emit; reflexivity|].
    eapply steps_step; [eapply step_inf; reflexivity|]. apply steps_refl.
  - repeat constructor. unfold frame_ok. vk_zcompute.
  - intros m. discriminate.
  - reflexivity.
Qed.

Example pipeline_refines_spec_witness : exists tr s,
  ex_steps (initial 2 PipelineWitnesses.ex_rs PipelineWitnesses.ex_i0) tr s /\
  Forall frame_ok (captured tr) /\ (forall m, inf s <> TPanicked m) /\
  (forall m, data s <> TPanicked m) /\
  exists chunks rs', chunks ++ Mpsc.queue (qa s) = map (spec_mix 2) (captured tr) /\
    rs_run PipelineWitnesses.ex_rs (spec_windows 2 0 [] chunks) = Some (rs', inferred tr ++ Mpsc.queue (qb s)).
Proof.
  destruct e2e_window_run as (tr & s & st & Hrun & Hfr & Hnp & _). exists tr, s.
  refine (conj Hrun (conj Hfr (conj Hnp _)));
    apply (pipeline_refines_spec 2 Scripted.quiet_host "the octopus has escaped" PipelineWitnesses.ex_ctx
             PipelineWitnesses.ex_rs) with (i0 := PipelineWitnesses.ex_i0); try (exact Hrun || exact Hfr || exact Hnp || reflexivity || lia).
  all: unfold max_vec_f32; vk_zcompute.
Defined.

Example data_thread_state_wf_witness : exists tr s (st : DataThread AllocRing.ring Q Nearest.nearest),
  ex_steps (initial 2 PipelineWitnesses.ex_rs PipelineWitnesses.ex_i0) tr s /\
  Forall frame_ok (captured tr) /\ data s = TRunning st /\
  rb_wf (buffer st) /\ rb_capacity (buffer st) = 2 /\ length (rb_to_vec (buffer st)) <= 2 /\
  sample_count st < 2 /\ rs_input_frames (S := Q) (resampler st) = 2 /\ rs_channels (S := Q) (resampler st) = 1.
Proof.
  destruct e2e_window_run as (tr & s & st & Hrun & Hfr & _ & Hd). exists tr, s, st.
  refine (conj Hrun (conj Hfr (conj Hd _)));
    apply (data_thread_state_wf 2 Scripted.quiet_host "the octopus has escaped" PipelineWitnesses.ex_ctx
             PipelineWitnesses.ex_rs) with (i0 := PipelineWitnesses.ex_i0) (tr := tr) (s := s);
    try (exact Hrun || exact Hfr || exact Hd || reflexivity || lia).
  all: unfold max_vec_f32; vk_zcompute.
Defined.
(** A host whose [pipe(..)] always fails, and a model that hears the code
    phrase in every window. *)
Definition failing_pipe_host : Host :=
  mkHost (fun _ => true) (fun _ => "2024-01-01T00:00:00Z"%string) (fun _ => true)
         (fun _ => Some "No such file or directory (os error 2)"%string).
Definition phrase_ctx : Scripted.script := [(" The octopus has escaped."%string, 0%Z, 100%Z)].

Local Abbreviation phrase_steps := (steps (R := AllocRing.ring) (S := Q) (Ctx := Scripted.script)
                                   (St := Scripted.script) 2 failing_pipe_host
                                   "the octopus has escaped" phrase_ctx).

(** A frame is mixed, fills the window, which is transcribed: the phrase
    is heard, the pipeline fails and its error goes to stderr. *)
Lemma phrase_run : exists tr s i,
  phrase_steps (initial 2 PipelineWitnesses.ex_rs PipelineWitnesses.ex_i0) tr s /\
  inf s = TRunning i /\ pipes_run i = 1 /\ length (stderr i) = 1.
Proof.
  do 3 eexists. split.
  - eapply steps_step; [eapply (step_capture _ _ _ _ _ [1; 3; 2; 6]%Q); reflexivity|].
    eapply steps_step; [eapply step_data_emit; reflexivity|].
    eapply steps_step; [eapply step_inf; reflexivity|]. apply steps_refl.
  - split_and!; reflexivity.
Qed.

(** Witness of C37 on that run. *)
Example kill_pipeline_runs_bounded_witness : exists tr s i,
  phrase_steps (initial 2 PipelineWitnesses.ex_rs PipelineWitnesses.ex_i0) tr s /\
  inf s = TRunning i /\ pipes_run i = 1 /\ length (stderr i) = 1 /\
  exists k, pipes_run i = pipes_run PipelineWitnesses.ex_i0 + k /\ k <= length (inferred tr) /\
    length (stderr i) <= length (stderr PipelineWitnesses.ex_i0) + k.
Proof.
  destruct phrase_run as (tr & s & i & Hrun & Hi & Hp & Hs). exists tr, s, i.
  refine (conj Hrun (conj Hi (conj Hp (conj Hs _)))).
  exact (kill_pipeline_runs_bounded 2 failing_pipe_host "the octopus has escaped" phrase_ctx
           PipelineWitnesses.ex_rs PipelineWitnesses.ex_i0 tr s i Hrun Hi).
Defined.
End EndToEndWitnesses.
