(* ===== verification/Program.v ===== *)
(** * Program: the whole of [main], from the options to the exit code

    [Startup] models [main] up to the device's default configuration,
    [Dispatcher.inference_start] the prologue of the inference thread, and
    [Pipeline] the running session.  This file puts them together as
    [main] (lines 39-219) does:

    - lines 40-73 ([Startup.main_startup]) may end [main] at once: the
      list-devices mode, a host error, a missing device or configuration;
    - line 77 spawns the inference thread, whose prologue (lines 78-92)
      opens the log file and loads the model and panics if either fails;
      line 162 spawns the data thread, with the resampler of lines 167-173;
    - lines 191-203 accept only [f32] input and build the input stream, and
      line 205 starts it; an [Err] of either is returned by [main] ([?]);
    - the session then runs ([Pipeline.steps]) until [main] returns
      ([Stopped], exit code 0) or panics (exit code 101).

    The inference thread's prologue runs concurrently with [main]; the
    session starts from its outcome ([session]): a thread that failed to
    load the model is already panicked, and its receiver dropped.  A
    window the data thread might have queued before that panic is lost
    with the receiver, so the windows transcribed and the exit codes are
    those of this model.  [program_exits] relates the options, the
    environment and a run to the exit code of the process. *)

From Stdlib Require Import String ZArith QArith Lia.
From stdpp Require Import base list.
From S2P Require Import Prelude Channel Mixer Ring Accumulator Text Dispatcher Startup Pipeline.

Import Mixer Accumulator Startup Pipeline PipelineInv.

Module Program.

(** Lines 193-197 and 205: the [Err] that [device.build_input_stream]
    and [stream.play()] return, if any (their [Display]). *)
Record StreamEnv := mkStreamEnv {
  build_error : option string;
  play_error : option string;
}.

(** [BUFFER_SIZE * SECONDS], the window length of lines 163-170. *)
Definition window_len : nat := BUFFER_SIZE * SECONDS.

Section Launch.
Context {R : Type -> Type} `{RingBuffer R}.
Context {S Rs Ctx St : Type} `{SampleArith S} `{Resampler Rs S} `{Whisper Ctx St S}.

(** The inference thread once its prologue has run. *)
Definition inf_thread (start : outcome (Dispatcher.InfThread * Ctx)) : tstate Dispatcher.InfThread :=
  match start with
  | Done (i, _) => TRunning i
  | Panicked m => TPanicked m
  end.

(** The program once [stream.play()] has returned (line 205): both queues
    have two senders (lines 76, 160, 161 and 189), queue B's receiver
    lives as long as the inference thread. *)
Definition session (rs : Rs) (start : outcome (Dispatcher.InfThread * Ctx))
    : pipeline (R := R) (S := S) (Rs := Rs) :=
  mkPipeline Streaming true (Mpsc.mkChannel [] 2 true)
             (Mpsc.mkChannel [] 2 (is_running (inf_thread start)))
             (TRunning (init window_len rs)) (inf_thread start).

Inductive launched :=
  | Ended (r : startup)                                         (** [main] ended before the session *)
  | Session (s : pipeline (R := R) (S := S) (Rs := Rs)) (stdout : list string).

(** Lines 40-205. *)
Definition launch (opt : Opt) (ah : AudioHost) (env : StreamEnv) (rs : Rs)
    (start : outcome (Dispatcher.InfThread * Ctx)) : launched :=
  match main_startup opt ah with
  | Start _ _ out =>
      match build_error env with
      | Some e => Ended (Failed e)
      | None =>
          match play_error env with
          | Some e => Ended (Failed e)
          | None => Session (session rs start) out
          end
      end
  | r => Ended r
  end.

(** The exit code once [main] has returned [Ok(())] or panicked. *)
Definition session_exit (s : pipeline (R := R) (S := S) (Rs := Rs)) : option nat :=
  match pc s with
  | Stopped => Some 0
  | MainPanicked _ => Some 101
  | _ => None
  end.

(** The model the inference thread loaded, if it did. *)
Definition start_ctx (start : outcome (Dispatcher.InfThread * Ctx)) (ctx : Ctx) : Prop :=
  forall i c, start = Done (i, c) -> ctx = c.

(** A run of the whole program, with the trace of the session and the
    exit code of the process. *)
Inductive program_exits (host : Dispatcher.Host) (opt : Opt) (ah : AudioHost) (env : StreamEnv)
    (rs : Rs) : list (event (S := S)) -> nat -> Prop :=
  | exits_early r c :
      launch opt ah env rs
        (Dispatcher.inference_start (Smp := S) host (out_file opt) (model_path opt)) = Ended r ->
      exit_code r = Some c ->
      program_exits host opt ah env rs [] c
  | exits_session s0 out ctx tr s c :
      launch opt ah env rs
        (Dispatcher.inference_start (Smp := S) host (out_file opt) (model_path opt)) = Session s0 out ->
      start_ctx (Dispatcher.inference_start (Smp := S) host (out_file opt) (model_path opt)) ctx ->
      steps window_len host (code_phrase opt) ctx s0 tr s ->
      session_exit s = Some c ->
      program_exits host opt ah env rs tr c.
End Launch.

Section Facts.
Context {R : Type -> Type} `{RingBuffer R}.
Context {S Rs Ctx St : Type} `{SampleArith S} `{Resampler Rs S} `{Whisper Ctx St S}.
Implicit Types (s : pipeline (R := R) (S := S) (Rs := Rs)) (tr : list (event (S := S))).

Lemma session_inv (rs : Rs) (start : outcome (Dispatcher.InfThread * Ctx)) :
  inv (session (R := R) (S := S) rs start).
Proof. destruct start as [[i c]|m]; unfold inv, session; cbn -[window_len]; split_and!; done || lia. Qed.

Lemma launch_session opt ah env (rs : Rs) (start : outcome (Dispatcher.InfThread * Ctx)) s0 out :
  launch opt ah env rs start = Session s0 out ->
  list_devices opt = false /\ s0 = session rs start.
Proof.
  unfold launch, main_startup, check_sample_format.
  destruct (list_devices opt); [by repeat case_match|].
  repeat case_match; intros Hl; simplify_eq; done.
Qed.

Lemma launch_ended_zero opt ah env (rs : Rs) (start : outcome (Dispatcher.InfThread * Ctx)) r :
  launch (R := R) (S := S) opt ah env rs start = Ended r -> exit_code r = Some 0 -> list_devices opt = true.
Proof.
  unfold launch, main_startup, check_sample_format.
  destruct (list_devices opt); [done|].
  repeat case_match; intros Hl Hc; simplify_eq; discriminate.
Qed.

Section Runs.
Variables (W : nat) (host : Dispatcher.Host) (phrase : string) (ctx : Ctx).
Local Abbreviation step := (step (R := R) (S := S) (Rs := Rs) W host phrase ctx).
Local Abbreviation steps := (steps (R := R) (S := S) (Rs := Rs) W host phrase ctx).

(** Before the stop signal main stays in [read_line], unless it fails. *)
Lemma step_pc_streaming s e s' : step s e s' -> pc s = Streaming ->
  pc s' = Streaming \/ e = EvStop \/ pc s' = MainPanicked read_panic.
Proof. intros Hs Hp. destruct Hs; cbn [pc with_qa] in *; auto; congruence. Qed.

(** A panicked main does not move. *)
Lemma step_pc_panicked s e s' m : step s e s' -> pc s = MainPanicked m -> pc s' = MainPanicked m.
Proof. intros Hs Hp. destruct Hs; cbn [pc with_qa] in *; congruence. Qed.

Lemma steps_pc_panicked s tr s' m : steps s tr s' -> pc s = MainPanicked m -> pc s' = MainPanicked m.
Proof. induction 1; eauto using step_pc_panicked. Qed.

Lemma steps_stop s tr s' : steps s tr s' -> pc s = Streaming ->
  (pc s' = Streaming \/ pc s' = MainPanicked read_panic) \/ EvStop ∈ tr.
Proof.
  induction 1 as [s|s e s1 tr s2 Hs Hrest IH]; intros Hp; [by left; left|].
  destruct (step_pc_streaming _ _ _ Hs Hp) as [Hp1|[->|Hp1]].
  - destruct (IH Hp1) as [?|?]; [by left|right; by apply list_elem_of_further].
  - right. apply list_elem_of_here.
  - left; right. by eapply steps_pc_panicked.
Qed.

(** Once the inference thread has returned, queue B is empty for good. *)
Definition qb_drained s : Prop := inf s = TExited -> Mpsc.queue (qb s) = [].

Lemma qb_drained_step s e s' : inv s -> qb_drained s -> step s e s' -> qb_drained s'.
Proof.
  intros (_ & _ & _ & _ & Hie & _) Hq Hs. unfold qb_drained in *.
  destruct Hs; cbn [inf qb with_qa Mpsc.queue Mpsc.drop_sender Mpsc.drop_receiver] in *;
    intros Hi; try discriminate; try done; try by apply Hq.
  (* the data thread cannot send once the inference thread has returned *)
  match goal with Hd : data s = TRunning _ |- _ => destruct (Hie Hi) as [Hr _]; by rewrite Hd in Hr end.
Qed.

Lemma steps_qb_drained s tr s' : inv s -> qb_drained s -> steps s tr s' -> qb_drained s'.
Proof.
  intros Hinv Hq Hs. revert Hinv Hq.
  induction Hs; intros; eauto using qb_drained_step, inv_step.
Qed.

(** A panicked inference thread rules out [Stopped]. *)
Lemma steps_panicked_not_stopped s tr s' m : inv s -> inf s = TPanicked m ->
  steps s tr s' -> pc s' <> Stopped.
Proof.
  intros Hinv Hi Hs Hp. pose proof (steps_inv _ _ _ _ _ _ _ Hinv Hs) as (_&_&_&_&_&_&_&Hstop).
  rewrite (steps_inf_panicked _ _ _ _ _ _ _ _ Hs Hi) in Hstop. by discriminate Hstop.
Qed.

Lemma steps_app s1 tr1 s2 tr2 s3 : steps s1 tr1 s2 -> steps s2 tr2 s3 -> steps s1 (tr1 ++ tr2) s3.
Proof. induction 1; intros; [done|]. cbn. econstructor; eauto. Qed.

(** In particular after a failed start of the inference thread. *)
Lemma session_panicked_not_stopped (rs : Rs) m tr s :
  steps (session (Ctx := Ctx) rs (Panicked m)) tr s -> pc s <> Stopped.
Proof. intros Hs. by eapply steps_panicked_not_stopped; [apply session_inv| |exact Hs]. Qed.
End Runs.
End Facts.

End Program.

Module ProgramProps.
Import Program.

Section Props.
Context {R : Type -> Type} `{RingBuffer R}.
Context {S Rs Ctx St : Type} `{SampleArith S} `{Resampler Rs S} `{Whisper Ctx St S}.
Variables (host : Dispatcher.Host) (opt : Opt) (ah : AudioHost) (env : StreamEnv) (rs : Rs).

Local Abbreviation start := (Dispatcher.inference_start (Ctx := Ctx) (St := St) (Smp := S)
                               host (out_file opt) (model_path opt)).
Local Abbreviation steps ctx := (steps (R := R) (S := S) (Rs := Rs) window_len host (code_phrase opt) ctx).

(** C25: exit code 0 (spec, process exit codes): the process exits
    with 0 only in list-devices mode, before any session, or after a clean
    session: the stop signal was read, the model had loaded, and every
    window the data thread produced was transcribed before the inference
    thread returned. *)
Theorem program_exit_zero tr :
  program_exits host opt ah env rs tr 0 ->
  (list_devices opt = true /\ tr = []) \/
  (list_devices opt = false /\ EvStop ∈ tr /\ (exists i c, start = Done (i, c)) /\
   emitted tr = inferred tr).
Proof.
  intros Hex. inversion Hex as [r c Hl Hc|s0 out ctx tr' s c Hl Hctx Hrun Hexit]; subst.
  - left. split; [by eapply launch_ended_zero|done].
  - right. apply launch_session in Hl as [Hlist ->].
    assert (Hstop : pc s = Stopped)
      by (unfold session_exit in Hexit; by destruct (pc s); try discriminate).
    pose proof (steps_inv _ _ _ _ _ _ _ (session_inv rs start) Hrun) as Hinv.
    pose proof Hinv as (_&_&_&_&_&_&_&Hie). specialize (Hie Hstop).
    split_and!; [done| | |].
    + destruct (steps_stop _ _ _ ctx _ _ _ Hrun eq_refl) as [[Hp|Hp]|?]; [congruence..|done].
    + destruct start as [[i c']|m] eqn:Hst; [by eauto|].
      exfalso. exact (session_panicked_not_stopped _ _ _ _ _ _ _ _ Hrun Hstop).
    + assert (Hnp : forall m, inf s <> TPanicked m) by (intros m; by rewrite Hie).
      pose proof (steps_fifo _ _ _ _ _ _ _ Hrun Hnp) as Hf.
      rewrite (steps_qb_drained _ _ _ _ _ _ _ (session_inv rs start) (fun Hi => eq_refl) Hrun Hie) in Hf.
      cbn [session qb Mpsc.queue app] in Hf. by rewrite app_nil_r in Hf.
Qed.

(** C20: a model that fails to load (spec: a configuration error,
    fatal at startup before the pipeline starts).  The code panics only
    the inference thread: [main] still starts the stream, stays in
    [read_line] until the stop signal (or a failed read), and can then
    always end, with exit code 101; no run of the program exits with
    another code. *)
Theorem model_load_failure_exit_101 d cfg out m :
  main_startup opt ah = Start d cfg out -> build_error env = None -> play_error env = None ->
  start = Panicked m ->
  launch (R := R) (S := S) opt ah env rs start = Session (session (Ctx := Ctx) rs (Panicked m)) out /\
  (forall ctx tr s, steps ctx (session (Ctx := Ctx) rs (Panicked m)) tr s -> EvStop ∉ tr ->
     pc s = Streaming \/ pc s = MainPanicked read_panic) /\
  (forall ctx tr s, steps ctx (session (Ctx := Ctx) rs (Panicked m)) tr s -> pc s <> Streaming ->
     exists tr' s', steps ctx s tr' s' /\ session_exit s' = Some 101) /\
  (forall tr c, program_exits host opt ah env rs tr c -> c = 101).
Proof.
  intros Hms Hb Hp Hst.
  assert (Hl : launch (R := R) (S := S) opt ah env rs start = Session (session (Ctx := Ctx) rs (Panicked m)) out)
    by (unfold launch; by rewrite Hms, Hb, Hp, Hst).
  split_and!; [done| | |].
  - intros ctx tr s Hrun Hnot.
    destruct (steps_stop _ _ _ ctx _ _ _ Hrun eq_refl) as [?|?]; [done|contradiction].
  - intros ctx tr s Hrun Hpc.
    pose proof (steps_inv _ _ _ _ _ _ _ (session_inv (Ctx := Ctx) rs (Panicked m)) Hrun) as Hinv.
    destruct (PipelineProps.inv_shutdown_completes window_len host (code_phrase opt) ctx _ Hinv Hpc) as (tr' & s' & Hrest & Hend).
    exists tr', s'. split; [done|]. unfold session_exit.
    destruct Hend as [Hs'|[m' ->]]; [|done]. exfalso.
    eapply session_panicked_not_stopped; [|exact Hs']. eapply steps_app; [exact Hrun|exact Hrest].
  - intros tr c Hex. inversion Hex as [r c' Hl'|s0 out' ctx tr' s c' Hl' _ Hrun Hexit]; subst; [congruence|].
    rewrite Hl in Hl'. injection Hl' as <- <-.
    unfold session_exit in Hexit. destruct (pc s) eqn:Hpc; try discriminate; [|congruence].
    exfalso. by eapply session_panicked_not_stopped.
Qed.
End Props.
End ProgramProps.

Module ProgramWitnesses.
Import Program ProgramProps.
Local Open Scope string_scope.

Definition ex_mic : Device := mkDevice (Some "mic") (Some (mkConfig 2 44100 F32)).
Definition ex_audio_host : AudioHost := mkAudioHost (Some [ex_mic]) (Some ex_mic).
Definition ex_stream_ok : StreamEnv := mkStreamEnv None None.

Ltac take c := eapply steps_step; [eapply c; reflexivity|].

(** With the default options, a working model and a working stream, the
    user stops at once: main drops the stream and both senders, both
    threads return and are joined, and the process exits with 0. *)
Lemma clean_program_run :
  program_exits (R := AllocRing.ring) (S := Q) (Ctx := Scripted.script) (St := Scripted.script)
    Scripted.quiet_host default_opt ex_audio_host ex_stream_ok PipelineWitnesses.ex_rs
    [EvStop; EvTau; EvTau; EvTau; EvTau; EvTau; EvTau] 0.
Proof.
  eapply (exits_session _ _ _ _ _ _ _ []).
  - reflexivity.
  - intros i c Hs. by injection Hs as _ <-.
  - take step_stop. take step_drop_audio_tx. take step_data_exit.
    take step_drop_inference_tx. take step_inf_exit. take step_join_data. take step_join_inf.
    apply steps_refl.
  - reflexivity.
Qed.

Example program_exit_zero_witness :
  let tr := [EvStop; EvTau; EvTau; EvTau; EvTau; EvTau; EvTau] in
  program_exits (R := AllocRing.ring) (S := Q) (Ctx := Scripted.script) (St := Scripted.script)
    Scripted.quiet_host default_opt ex_audio_host ex_stream_ok PipelineWitnesses.ex_rs tr 0 /\
  ((list_devices default_opt = true /\ tr = []) \/
   (list_devices default_opt = false /\ EvStop ∈ tr /\
    (exists i c, Dispatcher.inference_start (Smp := Q) Scripted.quiet_host
                   (out_file default_opt) (model_path default_opt) = Done (i, c)) /\
    emitted tr = inferred tr)).
Proof.
  intros tr. split; [exact clean_program_run|].
  exact (program_exit_zero Scripted.quiet_host default_opt ex_audio_host ex_stream_ok
           PipelineWitnesses.ex_rs tr clean_program_run).
Defined.

(** A Whisper whose model file cannot be loaded. *)
#[local] Instance Missing_model : Whisper unit unit Q := {
  w_new_with_params _ := None;
  w_create_state _ := None;
  w_full _ _ _ := None;
  w_full_n_segments _ := None;
  w_full_get_segment_text _ _ := None;
  w_full_get_segment_t0 _ _ := None;
  w_full_get_segment_t1 _ _ := None;
}.

(** Witness of C20: the default options with a missing model file. *)
Example model_load_failure_exit_101_witness :
  main_startup default_opt ex_audio_host = Start ex_mic (mkConfig 2 44100 F32) ["Input device: mic"%string] /\
  build_error ex_stream_ok = None /\ play_error ex_stream_ok = None /\
  Dispatcher.inference_start (Smp := Q) (Ctx := unit) (St := unit) Scripted.quiet_host
    (out_file default_opt) (model_path default_opt) = Panicked "failed to load model" /\
  launch (R := AllocRing.ring) (S := Q) default_opt ex_audio_host ex_stream_ok PipelineWitnesses.ex_rs
    (Dispatcher.inference_start (Smp := Q) (Ctx := unit) (St := unit) Scripted.quiet_host
       (out_file default_opt) (model_path default_opt))
  = Session (session (Ctx := unit) PipelineWitnesses.ex_rs (Panicked "failed to load model")) ["Input device: mic"%string] /\
  (forall tr c, program_exits (R := AllocRing.ring) (S := Q) (Ctx := unit) (St := unit)
                  Scripted.quiet_host default_opt ex_audio_host ex_stream_ok PipelineWitnesses.ex_rs tr c ->
                c = 101).
Proof.
  pose proof (model_load_failure_exit_101 (R := AllocRing.ring) (S := Q) (Ctx := unit) (St := unit)
                Scripted.quiet_host default_opt ex_audio_host ex_stream_ok PipelineWitnesses.ex_rs
                ex_mic (mkConfig 2 44100 F32) ["Input device: mic"%string] "failed to load model") as Hthm.
  destruct (Hthm eq_refl eq_refl eq_refl eq_refl) as (Hl & _ & _ & Hc).
  split_and!; [reflexivity..|exact Hl|exact Hc].
Defined.
End ProgramWitnesses.
